(** * Blog management system: the post persistence layer

    A shallow embedding of [backend/models/Post.js] (the schema and its
    [pre('save')] hook), of the post routes of [backend/routes/posts.js]
    (create, update, like) and of the two text helpers of the front-end
    utilities ([calculateReadingTime], [generateSlug]).

    Modelling conventions.
    - A JavaScript string is a [string] of 8-bit code units (the Latin-1
      range); on that range [toLowerCase], [trim] and the regular
      expression class [\s] are modelled exactly.
    - A [Date] is a number of milliseconds, an [ObjectId] its 24-digit
      hexadecimal rendering.
    - The collection is a list of stored documents in insertion order,
      together with the unique indexes the schema declares.
    - [await]-ed storage calls are explicit state passing on [Db]. *)

From Stdlib Require Import Ascii String NArith ZArith List Lia Bool Permutation.
From stdpp Require Import base strings list pretty numbers.

Open Scope string_scope.
Open Scope N_scope.

(** ** JavaScript string primitives *)

Module JS.

Definition code (c : ascii) : N := N_of_ascii c.

(** [/[A-Z]/] *)
Definition is_upper (c : ascii) : bool := (65 <=? code c) && (code c <=? 90).
(** [/[a-z]/] *)
Definition is_lower (c : ascii) : bool := (97 <=? code c) && (code c <=? 122).
(** [/[0-9]/], also [\d] *)
Definition is_digit (c : ascii) : bool := (48 <=? code c) && (code c <=? 57).
(** [\s] on 8-bit code units: TAB, LF, VT, FF, CR, SP and NBSP. *)
Definition is_space (c : ascii) : bool :=
  ((9 <=? code c) && (code c <=? 13)) || (code c =? 32) || (code c =? 160).
(** [\w] is [[A-Za-z0-9_]]. *)
Definition is_word (c : ascii) : bool :=
  is_upper c || is_lower c || is_digit c || (code c =? 95).
Definition is_hyphen (c : ascii) : bool := code c =? 45.

(** Upper-case letters of the Latin-1 supplement: U+00C0..U+00DE without
    the multiplication sign U+00D7. *)
Definition is_latin1_upper (c : ascii) : bool :=
  (192 <=? code c) && (code c <=? 222) && negb (code c =? 215).

Definition lower_char (c : ascii) : ascii :=
  if is_upper c || is_latin1_upper c then ascii_of_N (code c + 32) else c.

Fixpoint map_chars (f : ascii -> ascii) (s : string) : string :=
  match s with
  | EmptyString => EmptyString
  | String c r => String (f c) (map_chars f r)
  end.

(** [s.toLowerCase()] *)
Definition toLowerCase (s : string) : string := map_chars lower_char s.

(** [s.replace(/[cls]/g, '')] for a one-character class [cls]: every
    character of the class is deleted. *)
Fixpoint remove_class (cls : ascii -> bool) (s : string) : string :=
  match s with
  | EmptyString => EmptyString
  | String c r => if cls c then remove_class cls r else String c (remove_class cls r)
  end.

(** [s.replace(/[cls]+/g, '-')]: every maximal run of characters of the
    class becomes one hyphen; [in_run] tells that the previous character
    belonged to the run being replaced. *)
Fixpoint replace_runs (cls : ascii -> bool) (in_run : bool) (s : string) : string :=
  match s with
  | EmptyString => EmptyString
  | String c r =>
      if cls c then
        if in_run then replace_runs cls true r
        else String "-" (replace_runs cls true r)
      else String c (replace_runs cls false r)
  end.

(** [s.substring(0, n)] *)
Fixpoint substring0 (n : nat) (s : string) : string :=
  match n, s with
  | S k, String c r => String c (substring0 k r)
  | _, _ => EmptyString
  end.

(** [s.replace(/^[cls]+/, '')] *)
Fixpoint drop_leading (cls : ascii -> bool) (s : string) : string :=
  match s with
  | EmptyString => EmptyString
  | String c r => if cls c then drop_leading cls r else s
  end.

(** [s.replace(/[cls]+$/, '')] *)
Fixpoint drop_trailing (cls : ascii -> bool) (s : string) : string :=
  match s with
  | EmptyString => EmptyString
  | String c r =>
      match drop_trailing cls r with
      | EmptyString => if cls c then EmptyString else String c EmptyString
      | r' => String c r'
      end
  end.

(** [s.trim()] *)
Definition trim (s : string) : string :=
  drop_trailing is_space (drop_leading is_space s).

(** [s.split(/\s+/)]: the pieces between the maximal whitespace runs, the
    empty pieces at either end included; [acc] is the piece being read
    and [in_run] tells that the previous character was whitespace. *)
Fixpoint split_go (in_run : bool) (acc : string) (s : string) : list string :=
  match s with
  | EmptyString => [acc]
  | String c r =>
      if is_space c then
        if in_run then split_go true acc r
        else acc :: split_go true EmptyString r
      else split_go false (acc +:+ String c EmptyString) r
  end.

Definition split_ws (s : string) : list string := split_go false EmptyString s.

(** [s.includes('>')] *)
Fixpoint includes_char (x : ascii) (s : string) : bool :=
  match s with
  | EmptyString => false
  | String c r => Ascii.eqb c x || includes_char x r
  end.

(** [s.replace(/<[^>]*>/g, '')]: from a ["<"] that has a [">"] somewhere
    after it, everything up to the first such [">"] is deleted; a ["<"]
    with no [">"] after it stays. [in_tag] tells that a tag is open. *)
Fixpoint strip_tags_go (in_tag : bool) (s : string) : string :=
  match s with
  | EmptyString => EmptyString
  | String c r =>
      if in_tag then
        if Ascii.eqb c ">" then strip_tags_go false r else strip_tags_go true r
      else if Ascii.eqb c "<" && includes_char ">" r then strip_tags_go true r
      else String c (strip_tags_go false r)
  end.

Definition strip_tags (s : string) : string := strip_tags_go false s.

(** [Math.ceil(n / d)] on non-negative integers. *)
Definition ceil_div (n d : N) : N := (n + d - 1) / d.

(** The characters of a string. *)
Definition chars (s : string) : list ascii := list_ascii_of_string s.

(** [/^[0-9a-fA-F]$/] *)
Definition is_hex (c : ascii) : bool :=
  is_digit c || ((65 <=? code c) && (code c <=? 70)) || ((97 <=? code c) && (code c <=? 102)).

Fixpoint all_chars (p : ascii -> bool) (s : string) : bool :=
  match s with
  | EmptyString => true
  | String c r => p c && all_chars p r
  end.

(** [s[0]] and [s[s.length - 1]], when there is one. *)
Definition first_char (s : string) : option ascii :=
  match s with
  | EmptyString => None
  | String c _ => Some c
  end.

Fixpoint last_char (s : string) : option ascii :=
  match s with
  | EmptyString => None
  | String c EmptyString => Some c
  | String _ r => last_char r
  end.

(** Two neighbouring characters of [s] are both in the class. *)
Fixpoint has_adjacent (cls : ascii -> bool) (s : string) : bool :=
  match s with
  | String a (String b _ as r) => (cls a && cls b) || has_adjacent cls r
  | _ => false
  end.

End JS.

Import JS.

(** ** Slug generator *)

(** The class [[^a-zA-Z0-9\s]] of the characters the hook deletes. *)
Definition not_alnum_space (c : ascii) : bool :=
  negb (is_lower c || is_upper c || is_digit c || is_space c).

(** [this.title.toLowerCase().replace(/[^a-zA-Z0-9\s]/g, '')
      .replace(/\s+/g, '-').substring(0, 50)] of the [pre('save')] hook. *)
Definition baseSlug (title : string) : string :=
  substring0 50
    (replace_runs is_space false
       (remove_class not_alnum_space (toLowerCase title))).

(** [generateSlug] of the front-end utilities:
    [text.toLowerCase().trim().replace(/[^\w\s-]/g, '')
       .replace(/[\s_-]+/g, '-').replace(/^-+|-+$/g, '')]. *)
Definition not_word_space_hyphen (c : ascii) : bool :=
  negb (is_word c || is_space c || is_hyphen c).
Definition space_underscore_hyphen (c : ascii) : bool :=
  is_space c || (code c =? 95) || is_hyphen c.

Definition generateSlug (text : string) : string :=
  drop_trailing is_hyphen
    (drop_leading is_hyphen
       (replace_runs space_underscore_hyphen false
          (remove_class not_word_space_hyphen (trim (toLowerCase text))))).

(** The characters a slug is made of: [[a-z0-9-]]. *)
Definition is_slug_char (c : ascii) : bool :=
  is_lower c || is_digit c || is_hyphen c.

(** What [replace(/[^a-zA-Z0-9\s]/g, '')] leaves of the lower-cased title:
    lower-case letters, digits and whitespace. *)
Definition stripped (title : string) : string :=
  remove_class not_alnum_space (toLowerCase title).

(** [[a-zA-Z0-9]] *)
Definition is_alnum (c : ascii) : bool := is_lower c || is_upper c || is_digit c.

Definition leading_hyphen (s : string) : bool :=
  match first_char s with Some c => is_hyphen c | None => false end.
Definition trailing_hyphen (s : string) : bool :=
  match last_char s with Some c => is_hyphen c | None => false end.

(** ** Data model *)

Inductive Status := draft | published | archived.
Inductive Role := admin | author.

Definition ObjectId := string.
Definition Date := N.

Definition Status_eqb (a b : Status) : bool :=
  match a, b with
  | draft, draft | published, published | archived, archived => true
  | _, _ => false
  end.

(** One entry of [likes]: [{ user, createdAt }]. *)
Record Like := { like_user : ObjectId; like_createdAt : Date }.

(** A document of the [Post] collection. The fields that no modelled
    operation reads (excerpt, featuredImage, category, tags, views,
    comments, the SEO fields and the time stamps) are left out. In a
    document under construction an absent [slug] is the empty string:
    the hook only tests [!this.slug], which both satisfy. *)
Record Post := {
  post_id : ObjectId;
  post_title : string;
  post_slug : string;
  post_content : string;
  post_author : ObjectId;
  post_status : Status;
  post_publishedAt : option Date;
  post_readingTime : N;
  post_likes : list Like
}.

(** [req.user] as the [protect] middleware leaves it. *)
Record User := { user_id : ObjectId; user_role : Role }.

(** [req.body]: each modelled field is either absent or carries a value
    of the field's type. *)
Record Body := {
  body_title : option string;
  body_slug : option string;
  body_content : option string;
  body_author : option ObjectId;
  body_status : option Status;
  body_publishedAt : option Date;
  body_readingTime : option N
}.

Definition empty_body : Body :=
  {| body_title := None; body_slug := None; body_content := None;
     body_author := None; body_status := None; body_publishedAt := None;
     body_readingTime := None |}.

(** The storage: the stored posts in insertion order and the number of
    write commands issued so far. *)
Record Db := { posts : list Post; write_calls : nat }.

Definition empty_db : Db := {| posts := []; write_calls := 0 |}.

(** What a storage or model call throws; [error.name] tells the two
    apart, and code 11000 is the duplicate-key error of a unique index. *)
Inductive Error :=
| ValidationError (messages : list string)
| MongoServerError (code : N).

(** [res.status(code).json(...)] *)
Inductive Response :=
| Success (code : N) (data : Post)
| Liked (code : N) (likesCount : nat) (isLiked : bool)
| Failure (code : N) (error : string) (details : list string).

(** ** Schema: setters, validators, unique index *)

(** [slug: { trim: true, lowercase: true }]; Mongoose runs the setters of
    a path on assignment, on update and on the values of a query filter. *)
Definition slug_setter (s : string) : string := toLowerCase (trim s).
(** [title: { trim: true }] *)
Definition title_setter (s : string) : string := trim s.

Definition isSome {A} (o : option A) : bool :=
  match o with Some _ => true | None => false end.

(** [!s] for a string. *)
Definition falsy (s : string) : bool := String.eqb s "".

(** The schema validators of the modelled paths: [required] on [title]
    and [content], [maxlength] 200 on [title]. *)
Definition title_errors (title : string) : list string :=
  if falsy title then ["Title is required"]
  else if (200 <? String.length title)%nat then ["Title cannot exceed 200 characters"]
  else [].

Definition content_errors (content : string) : list string :=
  if falsy content then ["Content is required"] else [].

Definition schema_errors (title content : string) : list string :=
  List.app (title_errors title) (content_errors content).

(** The same validators as update validators: only on the paths set. *)
Definition update_errors (title content : option string) : list string :=
  List.app (from_option title_errors [] title) (from_option content_errors [] content).

(** [Post.findOne({ slug })] *)
Definition findOne_slug (store : list Post) (slug : string) : option Post :=
  find (fun p => String.eqb (post_slug p) (slug_setter slug)) store.

(** [Post.findById(id)] for an [id] of 24 hexadecimal digits, which is
    cast to the [ObjectId] it spells (letter case is immaterial). *)
Definition findById (store : list Post) (id : string) : option Post :=
  find (fun p => String.eqb (post_id p) (toLowerCase id)) store.

(** [insertOne]: rejected with a duplicate-key error when the [_id] or the
    [slug] is already in the collection ([slug: { unique: true }]). *)
Definition insertOne (db : Db) (doc : Post) : (Error + Post) * Db :=
  if existsb (fun p => String.eqb (post_id p) (post_id doc)
                       || String.eqb (post_slug p) (post_slug doc)) (posts db)
  then (inl (MongoServerError 11000),
        {| posts := posts db; write_calls := S (write_calls db) |})
  else (inr doc,
        {| posts := List.app (posts db) [doc]; write_calls := S (write_calls db) |}).

(** The stored document with the [_id] of [doc] is replaced by [doc]. *)
Definition replace_doc (doc : Post) (store : list Post) : list Post :=
  map (fun p => if String.eqb (post_id p) (post_id doc) then doc else p) store.

(** An update of the stored document [doc._id] to [doc]: rejected when
    another document already has the slug of [doc]. *)
Definition updateOne (db : Db) (doc : Post) : (Error + Post) * Db :=
  if existsb (fun p => negb (String.eqb (post_id p) (post_id doc))
                       && String.eqb (post_slug p) (post_slug doc)) (posts db)
  then (inl (MongoServerError 11000),
        {| posts := posts db; write_calls := S (write_calls db) |})
  else (inr doc,
        {| posts := replace_doc doc (posts db); write_calls := S (write_calls db) |}).

(** ** The [pre('save')] hook *)

(** The [while (true)] loop of the hook, with a budget of iterations:
    [None] means the budget ran out before the loop left. The counter is
    a natural number printed in decimal, as a JavaScript number is while
    it stays below 2^53. *)
Fixpoint slug_loop (fuel : nat) (store : list Post) (this_id : ObjectId)
    (base slug : string) (counter : N) : option string :=
  match fuel with
  | O => None
  | S fuel' =>
      match findOne_slug store slug with
      | None => Some slug
      | Some existingPost =>
          if String.eqb (post_id existingPost) this_id then Some slug
          else slug_loop fuel' store this_id base
                 (base +:+ "-" +:+ pretty counter) (counter + 1)
      end
  end.

(** What [this.isModified(path)] answers for the three paths the hook asks. *)
Record Modified := { mod_title : bool; mod_status : bool; mod_content : bool }.

Definition unmodified : Modified :=
  {| mod_title := false; mod_status := false; mod_content := false |}.

Definition set_slug (p : Post) (s : string) : Post :=
  {| post_id := post_id p; post_title := post_title p; post_slug := slug_setter s;
     post_content := post_content p; post_author := post_author p;
     post_status := post_status p; post_publishedAt := post_publishedAt p;
     post_readingTime := post_readingTime p; post_likes := post_likes p |}.

Definition set_publishedAt (p : Post) (d : option Date) : Post :=
  {| post_id := post_id p; post_title := post_title p; post_slug := post_slug p;
     post_content := post_content p; post_author := post_author p;
     post_status := post_status p; post_publishedAt := d;
     post_readingTime := post_readingTime p; post_likes := post_likes p |}.

Definition set_readingTime (p : Post) (n : N) : Post :=
  {| post_id := post_id p; post_title := post_title p; post_slug := post_slug p;
     post_content := post_content p; post_author := post_author p;
     post_status := post_status p; post_publishedAt := post_publishedAt p;
     post_readingTime := n; post_likes := post_likes p |}.

Definition set_likes (p : Post) (l : list Like) : Post :=
  {| post_id := post_id p; post_title := post_title p; post_slug := post_slug p;
     post_content := post_content p; post_author := post_author p;
     post_status := post_status p; post_publishedAt := post_publishedAt p;
     post_readingTime := post_readingTime p; post_likes := l |}.

(** The slug step of the hook. *)
Definition hook_slug (fuel : nat) (store : list Post) (isNew : bool) (m : Modified)
    (this : Post) : option Post :=
  if (mod_title m && falsy (post_slug this)) || (isNew && falsy (post_slug this)) then
    match slug_loop fuel store (post_id this)
            (baseSlug (post_title this)) (baseSlug (post_title this)) 1 with
    | Some slug => Some (set_slug this slug)
    | None => None
    end
  else Some this.

(** The [publishedAt] step of the hook. *)
Definition hook_publishedAt (now : Date) (m : Modified) (this : Post) : Post :=
  if mod_status m && Status_eqb (post_status this) published
     && negb (isSome (post_publishedAt this))
  then set_publishedAt this (Some now) else this.

(** [this.content.split(/\s+/).length] *)
Definition wordCount (content : string) : N :=
  N.of_nat (List.length (split_ws content)).

(** The reading-time step of the hook. *)
Definition hook_readingTime (m : Modified) (this : Post) : Post :=
  if mod_content m
  then set_readingTime this (ceil_div (wordCount (post_content this)) 200)
  else this.

Definition pre_save (fuel : nat) (store : list Post) (now : Date) (isNew : bool)
    (m : Modified) (this : Post) : option Post :=
  match hook_slug fuel store isNew m this with
  | Some this1 => Some (hook_readingTime m (hook_publishedAt now m this1))
  | None => None
  end.

(** The budget the operations give the loop: one lookup more than there
    are stored posts, which is never exhausted ([slug_loop_result]). *)
Definition loop_budget (store : list Post) : nat := S (List.length store).

(** [calculateReadingTime(text)] of the front-end utilities, with the
    default of 200 words per minute. *)
Definition calculateReadingTime (text : string) : N :=
  if falsy text then 0
  else
    let plainText := strip_tags text in
    let words := List.filter (fun word => negb (falsy word)) (split_ws plainText) in
    N.max 1 (ceil_div (N.of_nat (List.length words)) 200).

(** The whitespace-delimited tokens of a text: the non-empty pieces. *)
Definition tokens (text : string) : list string :=
  List.filter (fun word => negb (falsy word)) (split_ws text).

(** [s.repeat(n)] *)
Fixpoint repeat_str (s : string) (n : nat) : string :=
  match n with
  | O => EmptyString
  | S k => s +:+ repeat_str s k
  end.

(** A content of 200 words behind one tag that has a blank inside. *)
Definition tagged_200_words : string := "<br />" +:+ repeat_str " w" 200.

(** ** Request validation (express-validator chains) *)

Definition with_title_content (b : Body) (t c : option string) : Body :=
  {| body_title := t; body_slug := body_slug b; body_content := c;
     body_author := body_author b; body_status := body_status b;
     body_publishedAt := body_publishedAt b; body_readingTime := body_readingTime b |}.

Definition length_between (lo hi : nat) (s : string) : bool :=
  ((lo <=? String.length s) && (String.length s <=? hi))%nat.

(** [validatePostCreation]: [title] and [content] are trimmed and must be
    present, the title with 1 to 200 characters. The answer is the list of
    messages, or the sanitised body. *)
Definition validatePostCreation (b : Body) : list string + Body :=
  let title := trim (default "" (body_title b)) in
  let content := trim (default "" (body_content b)) in
  let errors :=
    List.app
      (if length_between 1 200 title then []
       else ["Title is required and cannot exceed 200 characters"])
      (if (1 <=? String.length content)%nat then [] else ["Content is required"]) in
  match errors with
  | [] => inr (with_title_content b (Some title) (Some content))
  | _ => inl errors
  end.

(** [validatePostUpdate]: the same checks on the fields that are present. *)
Definition validatePostUpdate (b : Body) : list string + Body :=
  let title := trim <$> body_title b in
  let content := trim <$> body_content b in
  let errors :=
    List.app
      match title with
      | Some t => if length_between 1 200 t then []
                  else ["Title cannot exceed 200 characters"]
      | None => []
      end
      match content with
      | Some c => if (1 <=? String.length c)%nat then [] else ["Content is required"]
      | None => []
      end in
  match errors with
  | [] => inr (with_title_content b title content)
  | _ => inl errors
  end.

(** ** [POST /api/posts] *)

(** [new Post({ ...req.body, author: req.user._id })]: setters and schema
    defaults applied; the author of the body, if any, is overridden. *)
Definition new_document (new_id : ObjectId) (author_id : ObjectId) (b : Body) : Post :=
  {| post_id := new_id;
     post_title := title_setter (default "" (body_title b));
     post_slug := slug_setter (default "" (body_slug b));
     post_content := default "" (body_content b);
     post_author := author_id;
     post_status := default draft (body_status b);
     post_publishedAt := body_publishedAt b;
     post_readingTime := default 0 (body_readingTime b);
     post_likes := [] |}.

(** The paths a new document got from the body count as modified. *)
Definition create_modified (b : Body) : Modified :=
  {| mod_title := isSome (body_title b);
     mod_status := isSome (body_status b);
     mod_content := isSome (body_content b) |}.

(** [Post.create(postData)] up to the write: document validation, then
    the hook, run against the collection as it is at that moment. *)
Definition Post_create_prepare (fuel : nat) (store : list Post) (now : Date)
    (new_id author_id : ObjectId) (b : Body) : option (Error + Post) :=
  let doc := new_document new_id author_id b in
  match schema_errors (post_title doc) (post_content doc) with
  | [] =>
      match pre_save fuel store now true (create_modified b) doc with
      | Some doc' => Some (inr doc')
      | None => None
      end
  | errs => Some (inl (ValidationError errs))
  end.

(** The [try]/[catch] of the create handler. *)
Definition create_response (r : Error + Post) : Response :=
  match r with
  | inr post => Success 201 post
  | inl (ValidationError errors) => Failure 400 "Validation failed" errors
  | inl _ => Failure 500 "Server error" []
  end.

(** The write of [Post.create] and the answer of the handler. *)
Definition create_commit (db : Db) (doc : Post) : Response * Db :=
  let '(r, db') := insertOne db doc in (create_response r, db').

Definition createPost_handler (db : Db) (now : Date) (new_id : ObjectId)
    (user : User) (b : Body) : option (Response * Db) :=
  match Post_create_prepare (loop_budget (posts db)) (posts db) now new_id (user_id user) b with
  | None => None
  | Some (inl e) => Some (create_response (inl e), db)
  | Some (inr doc) => Some (create_commit db doc)
  end.

Definition createPost (db : Db) (now : Date) (new_id : ObjectId)
    (user : User) (b : Body) : option (Response * Db) :=
  match validatePostCreation b with
  | inl errors => Some (Failure 400 "Validation failed" errors, db)
  | inr b' => createPost_handler db now new_id user b'
  end.

(** ** [PUT /api/posts/:id] *)

(** [/^[0-9a-fA-F]{24}$/.test(id)] *)
Definition isValidObjectId (id : string) : bool :=
  (String.length id =? 24)%nat && all_chars is_hex id.

(** The lookup the update, delete and like handlers share: by [_id] when
    the parameter has the shape of one, else (or when that finds nothing)
    by slug. *)
Definition lookup (store : list Post) (id : string) : option Post :=
  match (if isValidObjectId id then findById store id else None) with
  | Some post => Some post
  | None => findOne_slug store id
  end.

Definition Role_eqb (a b : Role) : bool :=
  match a, b with
  | admin, admin | author, author => true
  | _, _ => false
  end.

(** The [$set] of the body on a stored document, setters applied. *)
Definition apply_update (b : Body) (p : Post) : Post :=
  {| post_id := post_id p;
     post_title := default (post_title p) (title_setter <$> body_title b);
     post_slug := default (post_slug p) (slug_setter <$> body_slug b);
     post_content := default (post_content p) (body_content b);
     post_author := default (post_author p) (body_author b);
     post_status := default (post_status p) (body_status b);
     post_publishedAt :=
       match body_publishedAt b with Some d => Some d | None => post_publishedAt p end;
     post_readingTime := default (post_readingTime p) (body_readingTime b);
     post_likes := post_likes p |}.

(** [Post.findByIdAndUpdate(post._id, req.body, { new: true,
    runValidators: true })]: the update validators of the paths the body
    sets, then one update command. No [save] middleware runs. *)
Definition findByIdAndUpdate (db : Db) (post : Post) (b : Body) : (Error + Post) * Db :=
  let doc := apply_update b post in
  match update_errors (title_setter <$> body_title b) (body_content b) with
  | [] => updateOne db doc
  | errs => (inl (ValidationError errs), db)
  end.

Definition updatePost_handler (db : Db) (id : string) (user : User) (b : Body)
    : Response * Db :=
  match lookup (posts db) id with
  | None => (Failure 404 "Post not found" [], db)
  | Some post =>
      if negb (String.eqb (post_author post) (user_id user))
         && negb (Role_eqb (user_role user) admin)
      then (Failure 403 "Not authorized to update this post" [], db)
      else
        match findByIdAndUpdate db post b with
        | (inr post', db') => (Success 200 post', db')
        | (inl _, db') => (Failure 500 "Server error" [], db')
        end
  end.

Definition updatePost (db : Db) (id : string) (user : User) (b : Body)
    : Response * Db :=
  match validatePostUpdate b with
  | inl errors => (Failure 400 "Validation failed" errors, db)
  | inr b' => updatePost_handler db id user b'
  end.

(** ** [PUT /api/posts/:id/like] *)

(** [likes.findIndex(like => like.user.toString() === uid)] *)
Fixpoint findIndex (uid : ObjectId) (likes : list Like) : option nat :=
  match likes with
  | [] => None
  | like :: rest =>
      if String.eqb (like_user like) uid then Some 0%nat
      else S <$> findIndex uid rest
  end.

(** [likes.splice(i, 1)] *)
Fixpoint splice1 (i : nat) (likes : list Like) : list Like :=
  match i, likes with
  | _, [] => []
  | O, _ :: rest => rest
  | S j, like :: rest => like :: splice1 j rest
  end.

(** The toggle of the handler: the new [likes] and the [isLiked] flag
    ([likeIndex === -1]). *)
Definition toggle_like (now : Date) (uid : ObjectId) (likes : list Like)
    : list Like * bool :=
  match findIndex uid likes with
  | Some likeIndex => (splice1 likeIndex likes, false)
  | None => (List.app likes [{| like_user := uid; like_createdAt := now |}], true)
  end.

Definition likePost (db : Db) (now : Date) (id : string) (user : User)
    : option (Response * Db) :=
  match lookup (posts db) id with
  | None => Some (Failure 404 "Post not found" [], db)
  | Some post =>
      let '(likes', isLiked) := toggle_like now (user_id user) (post_likes post) in
      match pre_save (loop_budget (posts db)) (posts db) now false unmodified
              (set_likes post likes') with
      | None => None
      | Some doc =>
          match updateOne db doc with
          | (inr post', db') =>
              Some (Liked 200 (List.length (post_likes post')) isLiked, db')
          | (inl _, db') => Some (Failure 500 "Server error" [], db')
          end
      end
  end.

(** ** Sequences of requests *)

Inductive Op :=
| OpCreate (now : Date) (new_id : ObjectId) (user : User) (b : Body)
| OpUpdate (id : string) (user : User) (b : Body)
| OpLike (now : Date) (id : string) (user : User).

Definition exec (op : Op) (db : Db) : option (Response * Db) :=
  match op with
  | OpCreate now new_id user b => createPost db now new_id user b
  | OpUpdate id user b => Some (updatePost db id user b)
  | OpLike now id user => likePost db now id user
  end.

(** The requests served one after another; [None] if one does not return. *)
Fixpoint run (ops : list Op) (db : Db) : option Db :=
  match ops with
  | [] => Some db
  | op :: rest =>
      match exec op db with
      | Some (_, db') => run rest db'
      | None => None
      end
  end.

(** The users each of whom has an entry in [likes]. *)
Definition likers (likes : list Like) : list ObjectId := map like_user likes.

(** The slugs of the stored posts. *)
Definition slugs (store : list Post) : list string := map post_slug store.
Definition ids (store : list Post) : list ObjectId := map post_id store.

(** The two unique indexes of the collection, on [_id] and on [slug]. *)
Definition indexes_ok (store : list Post) : Prop :=
  List.NoDup (ids store) /\ List.NoDup (slugs store).

(** Creations with one title and one content, served back to back; a
    request is the time, the fresh [_id] and the caller. *)
Definition creations (title content : string)
    (reqs : list (Date * ObjectId * User)) : list Op :=
  map (fun r => OpCreate (fst (fst r)) (snd (fst r)) (snd r)
                  (with_title_content empty_body (Some title) (Some content))) reqs.

(** The candidates the loop tries in turn: the base slug, then the base
    slug with the counter values 1, 2, ... appended. *)
Definition candidate (base : string) (k : nat) : string :=
  match k with
  | O => base
  | S _ => base +:+ "-" +:+ pretty (N.of_nat k)
  end.

(** [slug] is free for the document [this_id]: no stored post has it, or
    the first that has it is the document itself. *)
Definition free_for (store : list Post) (this_id : ObjectId) (slug : string) : bool :=
  match findOne_slug store slug with
  | None => true
  | Some existingPost => String.eqb (post_id existingPost) this_id
  end.

(** ** Sample data used by the examples *)

Definition alice : User := {| user_id := "aaaaaaaaaaaaaaaaaaaaaaaa"; user_role := author |}.
Definition bob : User := {| user_id := "bbbbbbbbbbbbbbbbbbbbbbbb"; user_role := author |}.
Definition root : User := {| user_id := "cccccccccccccccccccccccc"; user_role := admin |}.

Definition id1 : ObjectId := "000000000000000000000001".
Definition id2 : ObjectId := "000000000000000000000002".
Definition id3 : ObjectId := "000000000000000000000003".

(** [{ title, content }] *)
Definition body_of (title content : string) : Body :=
  with_title_content empty_body (Some title) (Some content).

Definition hello_body : Body := body_of "Hello, World!" "some text".

(** [{ status }] *)
Definition status_body (st : Status) : Body :=
  {| body_title := None; body_slug := None; body_content := None;
     body_author := None; body_status := Some st; body_publishedAt := None;
     body_readingTime := None |}.

(** [{ author }] *)
Definition author_body (a : ObjectId) : Body :=
  {| body_title := None; body_slug := None; body_content := None;
     body_author := Some a; body_status := None; body_publishedAt := None;
     body_readingTime := None |}.

Definition hello_post (id : ObjectId) (slug : string) : Post :=
  {| post_id := id; post_title := "Hello, World!"; post_slug := slug;
     post_content := "some text"; post_author := user_id alice;
     post_status := draft; post_publishedAt := None; post_readingTime := 1;
     post_likes := [] |}.

(** The collection after two posts titled ["Hello, World!"] were created. *)
Definition two_posts : list Post :=
  [hello_post id1 "hello-world"; hello_post id2 "hello-world-1"].

(** * The rest of the code

    The functions of the same files that the definitions above do not
    cover: the front-end validators and text helpers, the registration
    rules of the validation middleware, the listing, reading and deleting
    post routes, the comment model and its routes, the user deletion
    route, and the cache and file-name helpers of the front end. *)

(** ** Front-end validators and text helpers (utils/validation) *)

(** [s.slice(n)] for [n >= 0] *)
Fixpoint slice_from (n : nat) (s : string) : string :=
  match n, s with
  | O, _ => s
  | S k, String _ r => slice_from k r
  | S _, EmptyString => EmptyString
  end.

(** A password is modelled by its UTF-16 code units: the client counts
    them with [.length], and [isLength] of the server's validator counts
    a surrogate pair once. *)

(** The code units of a text of 8-bit characters. *)
Definition units (s : string) : list N := map code (chars s).

(** [[a-z]], [[A-Z]] and [\d] on code units. *)
Definition unit_lower (u : N) : bool := (97 <=? u) && (u <=? 122).
Definition unit_upper (u : N) : bool := (65 <=? u) && (u <=? 90).
Definition unit_digit (u : N) : bool := (48 <=? u) && (u <=? 57).

(** The line terminators the regular expression [.] does not match: LF,
    CR, U+2028 and U+2029. *)
Definition is_line_terminator (u : N) : bool :=
  (u =? 10) || (u =? 13) || (u =? 8232) || (u =? 8233).

(** The look-ahead [(?=.*[cls])] at the start of [s], for a class without
    line terminators: a code unit of the class comes before the first
    line terminator. *)
Fixpoint ahead (cls : N -> bool) (s : list N) : bool :=
  match s with
  | [] => false
  | u :: r => if is_line_terminator u then false else cls u || ahead cls r
  end.

(** [/(?=.*[cls])/.test(s)]: the look-ahead holds at some position. *)
Fixpoint ahead_somewhere (cls : N -> bool) (s : list N) : bool :=
  ahead cls s
  || match s with
     | [] => false
     | _ :: r => ahead_somewhere cls r
     end.

(** [validatePassword(password).errors] *)
Definition validatePassword (password : list N) : list string :=
  List.app
    (if match password with [] => true | _ => false end
        || (List.length password <? 6)%nat
     then ["Password must be at least 6 characters long"] else [])
    (List.app
       (if negb (ahead_somewhere unit_lower password)
        then ["Password must contain at least one lowercase letter"] else [])
       (List.app
          (if negb (ahead_somewhere unit_upper password)
           then ["Password must contain at least one uppercase letter"] else [])
          (if negb (ahead_somewhere unit_digit password)
           then ["Password must contain at least one number"] else []))).

(** [/^[a-zA-Z0-9_]+$/.test(s)] *)
Definition word_only (s : string) : bool := negb (falsy s) && all_chars is_word s.

(** [validateUsername(username).errors] *)
Definition validateUsername (username : string) : list string :=
  List.app
    (if falsy username || (String.length username <? 3)%nat
     then ["Username must be at least 3 characters long"] else [])
    (List.app
       (if (20 <? String.length username)%nat
        then ["Username cannot exceed 20 characters"] else [])
       (if negb (word_only username)
        then ["Username can only contain letters, numbers, and underscores"] else [])).

(** [validateTitle(title).errors] *)
Definition validateTitle (title : string) : list string :=
  List.app
    (if falsy title || (String.length (trim title) =? 0)%nat
     then ["Title is required"] else [])
    (if negb (falsy title) && (200 <? String.length title)%nat
     then ["Title cannot exceed 200 characters"] else []).

(** [validateContent(content).errors] *)
Definition validateContent (content : string) : list string :=
  if falsy content || (String.length (trim content) =? 0)%nat
  then ["Content is required"] else [].

(** [truncateText(text, maxLength)] *)
Definition truncateText (text : string) (maxLength : nat) : string :=
  if falsy text || (String.length text <=? maxLength)%nat then text
  else trim (substring0 maxLength text) +:+ "...".

(** ** Registration rules of the validation middleware *)

(** The chain [body('username').trim().isLength({ min: 3, max: 20 })
    .matches(/^[a-zA-Z0-9_]+$/)] of [validateUserRegistration] and
    [validateUserUpdate]: the messages and the sanitised value. *)
Definition username_chain (username : string) : list string * string :=
  let value := trim username in
  (List.app
     (if length_between 3 20 value then []
      else ["Username must be between 3 and 20 characters"])
     (if word_only value then []
      else ["Username can only contain letters, numbers, and underscores"]),
   value).

(** The matches of [/[\uD800-\uDBFF][\uDC00-\uDFFF]/g]: the surrogate
    pairs, read from the left. *)
Definition is_high_surrogate (u : N) : bool := (55296 <=? u) && (u <=? 56319).
Definition is_low_surrogate (u : N) : bool := (56320 <=? u) && (u <=? 57343).

Fixpoint surrogate_pairs (s : list N) : nat :=
  match s with
  | [] => O
  | hi :: t =>
      match t with
      | [] => O
      | lo :: r =>
          if is_high_surrogate hi && is_low_surrogate lo then S (surrogate_pairs r)
          else surrogate_pairs t
      end
  end.

(** The variation selectors U+FE0E and U+FE0F. *)
Definition is_variation_selector (u : N) : bool := (u =? 65038) || (u =? 65039).

(** The length that [isLength] of the validator library compares with
    the bounds: a surrogate pair counts once; the later versions of the
    library also leave the variation selectors out, and [selectors]
    tells whether the version in use does. *)
Definition validator_length (selectors : bool) (s : list N) : nat :=
  (List.length s
   - (if selectors then List.length (List.filter is_variation_selector s) else O)
   - surrogate_pairs s)%nat.

(** The chain [body('password').isLength({ min: 6 })
    .matches(/^(?=.*[a-z])(?=.*[A-Z])(?=.*\d)/)]. *)
Definition password_chain (selectors : bool) (password : list N) : list string :=
  List.app
    (if (6 <=? validator_length selectors password)%nat then []
     else ["Password must be at least 6 characters long"])
    (if ahead unit_lower password && ahead unit_upper password && ahead unit_digit password
     then []
     else ["Password must contain at least one lowercase letter, one uppercase letter, and one number"]).

(** ** File names (utils/helpers) *)

(** [s.lastIndexOf('.')], [-1] when there is none; [i] is the index of the
    first character of [s]. *)
Fixpoint lastIndexOf_from (x : ascii) (s : string) (i : Z) : Z :=
  match s with
  | EmptyString => (-1)%Z
  | String c r =>
      let later := lastIndexOf_from x r (i + 1)%Z in
      if (0 <=? later)%Z then later
      else if Ascii.eqb c x then i else (-1)%Z
  end.

Definition lastIndexOf (x : ascii) (s : string) : Z := lastIndexOf_from x s 0%Z.

(** [x >>> 0]: the number as an unsigned 32-bit integer. *)
Definition to_uint32 (x : Z) : Z := (x mod 2 ^ 32)%Z.

(** [s.slice(start)] for [start >= 0]: nothing when [start] is at or past
    the end. *)
Definition slice (start : Z) (s : string) : string :=
  if (Z.of_nat (String.length s) <=? start)%Z then EmptyString
  else slice_from (Z.to_nat start) s.

(** [filename.slice((filename.lastIndexOf('.') - 1 >>> 0) + 2)] *)
Definition getFileExtension (filename : string) : string :=
  slice (to_uint32 (lastIndexOf "." filename - 1) + 2) filename.

(** ** The cache of the front end (utils/cache) *)

(** The double nearest to the integer [z], ties to even, for [z] below
    2^1024 in magnitude: up to 2^53 every integer is a double, and from
    there on the doubles are the multiples of a power of two that have
    53 significant bits. It is what an addition of two integers that are
    doubles yields for the exact sum [z]. *)
Definition to_double (z : Z) : Z :=
  let a := Z.abs z in
  if (a <=? 2 ^ 53)%Z then z
  else
    let ulp := (2 ^ (Z.log2 a - 52))%Z in
    let q := (a / ulp)%Z in
    let r := (a mod ulp)%Z in
    let q' := if (2 * r <? ulp)%Z then q
              else if (ulp <? 2 * r)%Z then (q + 1)%Z
              else if Z.even q then q else (q + 1)%Z in
    (Z.sgn z * (q' * ulp))%Z.

(** [CACHE_EXPIRY = 5 * 60 * 1000] *)
Definition CACHE_EXPIRY : Z := (5 * 60 * 1000)%Z.

Section CacheModel.

(** The type of the cached values. *)
Context {V : Type}.

(** [{ value, expiry }] *)
Record CacheItem := { item_value : V; item_expiry : Z }.

(** The module-level [Map]: the entries in insertion order, one per key. *)
Definition Cache := list (string * CacheItem).

(** [cache.get(key)] *)
Fixpoint map_get (key : string) (cache : Cache) : option CacheItem :=
  match cache with
  | [] => None
  | (k, item) :: rest => if String.eqb k key then Some item else map_get key rest
  end.

(** [cache.set(key, item)]: a present key keeps its place. *)
Fixpoint map_set (key : string) (item : CacheItem) (cache : Cache) : Cache :=
  match cache with
  | [] => [(key, item)]
  | (k, old) :: rest =>
      if String.eqb k key then (k, item) :: rest
      else (k, old) :: map_set key item rest
  end.

(** [cache.delete(key)] *)
Fixpoint map_delete (key : string) (cache : Cache) : Cache :=
  match cache with
  | [] => []
  | (k, item) :: rest =>
      if String.eqb k key then rest else (k, item) :: map_delete key rest
  end.

(** [setCache(key, value, expiry)] for a string key, at the time [now],
    for an [expiry] that is an integer and a double: the stored expiry is
    the double [Date.now() + expiry]. *)
Definition setCache (now : Z) (key : string) (value : V) (expiry : Z)
    (cache : Cache) : Cache :=
  map_set key {| item_value := value; item_expiry := to_double (now + expiry) |} cache.

(** What [getCache] returns: the cached value or [null], or, without a
    key, the object of the entries [{ data, timestamp }] that are alive. *)
Inductive CacheAnswer :=
| Value (v : option V)
| Entries (entries : list (string * (V * Z))).

(** The entries that have not expired at [now]. *)
Definition alive (now : Z) (cache : Cache) : Cache :=
  List.filter (fun e => (now <=? item_expiry (snd e))%Z) cache.

(** [getCache(key)] at the time [now] (the clock read once per call):
    the answer and the cache afterwards. *)
Definition getCache (now : Z) (key : string) (cache : Cache) : CacheAnswer * Cache :=
  if falsy key then
    (Entries (map (fun e => (fst e, (item_value (snd e),
                                     (item_expiry (snd e) - CACHE_EXPIRY)%Z)))
                (alive now cache)),
     alive now cache)
  else
    match map_get key cache with
    | None => (Value None, cache)
    | Some item =>
        if (item_expiry item <? now)%Z then (Value None, map_delete key cache)
        else (Value (Some (item_value item)), cache)
    end.

(** [removeCache(key)] and [clearCacheEntry(key)] *)
Definition removeCache (key : string) (cache : Cache) : Cache := map_delete key cache.

(** [cleanExpiredCache()] at the time [now] *)
Definition cleanExpiredCache (now : Z) (cache : Cache) : Cache := alive now cache.

(** [getCacheSize()] *)
Definition getCacheSize (cache : Cache) : nat := List.length cache.

(** [getCacheKeys()] *)
Definition getCacheKeys (cache : Cache) : list string := map fst cache.

End CacheModel.

Arguments CacheItem : clear implicits.
Arguments Cache : clear implicits.
Arguments CacheAnswer : clear implicits.

(** A password of two lines: the lower-case letters on the first, the
    upper-case letters and the digits on the second. *)
Definition two_line_password : list N :=
  List.app (units "abc") (10 :: units "DEF123").

(** A password of one line with two characters outside the basic plane
    (U+1F600 twice): seven code units, five characters. *)
Definition astral_password : list N :=
  List.app (units "Aa1") [55357; 56832; 55357; 56832].

(** ** Comments, users and the whole store *)

(** A document of the [Comment] collection (models/Comment). *)
Record Comment := {
  comment_id : ObjectId;
  comment_content : string;
  comment_author : ObjectId;
  comment_post : ObjectId;
  comment_parent : option ObjectId;
  comment_replies : list ObjectId;
  comment_isApproved : bool;
  comment_likes : list Like;
  comment_edited : bool;
  comment_editedAt : option Date;
  comment_createdAt : Date
}.

(** Modelled from the spec: the User schema (models/User) is not in src.
    A user document has a role and an active flag besides its
    credentials, which no modelled route reads. *)
Record UserDoc := { ud_id : ObjectId; ud_role : Role; ud_isActive : bool }.

(** The three collections. Two fields of a post document that the
    definitions above leave out are kept beside the posts, by [_id]: the
    view counter [views] and the time stamp [updatedAt] that
    [timestamps: true] has Mongoose set on every update of a post. The
    entries of an [_id] that has no stored post are 0. *)
Record Site := {
  site_db : Db;
  site_comments : list Comment;
  site_users : list UserDoc;
  site_views : ObjectId -> N;
  site_updatedAt : ObjectId -> Date
}.

(** [n] more write commands were issued. *)
Definition wrote (n : nat) (db : Db) : Db :=
  {| posts := posts db; write_calls := (n + write_calls db)%nat |}.

Definition with_comments (site : Site) (db : Db) (comments : list Comment) : Site :=
  {| site_db := db; site_comments := comments;
     site_users := site_users site; site_views := site_views site;
     site_updatedAt := site_updatedAt site |}.

(** [res.status(code).json(...)] of the routes below. *)
Record Pagination := {
  currentPage : N;
  totalPages : N;
  totalPosts : N;
  hasNext : bool;
  hasPrev : bool
}.

Inductive Reply :=
| ReplyPost (code : N) (data : Post) (views : N)
| ReplyPosts (code : N) (count : nat) (pagination : Pagination) (data : list Post)
| ReplyComment (code : N) (data : Comment)
| ReplyComments (code : N) (count : nat) (data : list Comment)
| ReplyLiked (code : N) (likesCount : nat) (isLiked : bool)
| ReplyMessage (code : N) (message : string)
| ReplyError (code : N) (error : string) (details : list string).

(** [validateObjectId]: the checks on [req.params.id], which is absent
    when the route has no [:id] segment. *)
Definition validateObjectId (id : option string) : list string :=
  List.app
    (if (1 <=? String.length (default "" id))%nat then []
     else ["ID parameter is required"])
    (if isValidObjectId (default "undefined" id) then []
     else ["Invalid ID format. Expected a 24-character hexadecimal string."]).

(** The first element that satisfies [f] is removed, or replaced by its
    image under [g]: what a command on one document does. *)
Fixpoint remove_first {A : Type} (f : A -> bool) (l : list A) : list A :=
  match l with
  | [] => []
  | x :: rest => if f x then rest else x :: remove_first f rest
  end.

Fixpoint update_first {A : Type} (f : A -> bool) (g : A -> A) (l : list A) : list A :=
  match l with
  | [] => []
  | x :: rest => if f x then g x :: rest else x :: update_first f g rest
  end.

(** ** [GET /api/posts/:id] and [GET /api/posts/slug/:slug] *)

(** [populate('author')] found the user document (it leaves [null]
    otherwise). *)
Definition author_populated (site : Site) (post : Post) : bool :=
  existsb (fun u => String.eqb (ud_id u) (post_author post)) (site_users site).

(** [Post.findByIdAndUpdate(post._id, { $inc: { views: 1 } })] at the
    time [now]: the counter is incremented, and the update sets
    [updatedAt]. *)
Definition count_view (site : Site) (now : Date) (id : ObjectId) : Site :=
  {| site_db := wrote 1 (site_db site);
     site_comments := site_comments site;
     site_users := site_users site;
     site_views := fun i => if String.eqb i id then site_views site id + 1
                            else site_views site i;
     site_updatedAt := fun i => if String.eqb i id then now
                                else site_updatedAt site i |}.

(** What both handlers do with the post they found; [requester] is
    [req.user] as [optionalAuth] leaves it. *)
Definition show_post (site : Site) (now : Date) (requester : option User) (post : Post)
    : Reply * Site :=
  if negb (Status_eqb (post_status post) published) then
    match requester with
    | None => (ReplyError 404 "Post not found" [], site)
    | Some user =>
        if negb (author_populated site post) then
          (ReplyError 500 "Server error" [], site)
        else if negb (String.eqb (user_id user) (post_author post))
                && negb (Role_eqb (user_role user) admin)
        then (ReplyError 404 "Post not found" [], site)
        else (ReplyPost 200 post (site_views site (post_id post)), site)
    end
  else
    (ReplyPost 200 post (site_views site (post_id post) + 1),
     count_view site now (post_id post)).

Definition getPost (site : Site) (now : Date) (requester : option User) (id : string)
    : Reply * Site :=
  match lookup (posts (site_db site)) id with
  | None => (ReplyError 404 "Post not found" [], site)
  | Some post => show_post site now requester post
  end.

Definition getPostBySlug (site : Site) (now : Date) (requester : option User)
    (slug : string) : Reply * Site :=
  match findOne_slug (posts (site_db site)) slug with
  | None => (ReplyError 404 "Post not found" [], site)
  | Some post => show_post site now requester post
  end.

(** ** [DELETE /api/posts/:id] *)


(** ** The listing routes *)

(** [req.query]; the page and the limit are the numbers [parseInt] reads
    from the parameters, which [validatePostQuery] has checked to be
    integers. *)
Record PostQuery := {
  q_page : option N;
  q_limit : option N;
  q_status : option string;
  q_category : option string;
  q_author : option string;
  q_search : option string;
  q_sort : option string;
  q_order : option string
}.

Definition no_query : PostQuery :=
  {| q_page := None; q_limit := None; q_status := None; q_category := None;
     q_author := None; q_search := None; q_sort := None; q_order := None |}.

(** [?author=...] *)
Definition by_author (a : string) : PostQuery :=
  {| q_page := None; q_limit := None; q_status := None; q_category := None;
     q_author := Some a; q_search := None; q_sort := None; q_order := None |}.

(** [isHexadecimal(s)] of the validator library:
    [/^(0x|0h)?[0-9A-F]+$/i]. *)
Definition hex_digits (s : string) : bool := negb (falsy s) && all_chars is_hex s.

Definition isHexadecimal (s : string) : bool :=
  hex_digits s
  || match s with
     | String zero (String p r) =>
         Ascii.eqb zero "0"
         && (Ascii.eqb p "x" || Ascii.eqb p "X" || Ascii.eqb p "h" || Ascii.eqb p "H")
         && hex_digits r
     | _ => false
     end.

(** [.isMongoId()]: [isHexadecimal(s) && s.length === 24]. *)
Definition isMongoId (s : string) : bool :=
  isHexadecimal s && (String.length s =? 24)%nat.

(** The cast of a string of 24 characters to an [ObjectId], which a
    query filter and [findById] make: it fails (a [CastError]) unless the
    characters are hexadecimal digits. *)
Definition cast_ObjectId (s : string) : option ObjectId :=
  if isValidObjectId s then Some (toLowerCase s) else None.

(** [.isIn(values)] *)
Definition isIn (values : list string) (s : string) : bool :=
  existsb (String.eqb s) values.

(** [.optional()] before a check: an absent parameter passes. *)
Definition optional {A : Type} (check : A -> bool) (message : string) (x : option A)
    : list string :=
  match x with
  | Some v => if check v then [] else [message]
  | None => []
  end.

Definition validatePostQuery (q : PostQuery) : list string :=
  List.concat
    [ optional (fun n => 1 <=? n) "Page must be a positive integer" (q_page q);
      optional (fun n => (1 <=? n) && (n <=? 100)) "Limit must be between 1 and 100"
        (q_limit q);
      optional (isIn ["draft"; "published"; "archived"])
        "Status must be draft, published, or archived" (q_status q);
      optional (fun s => (String.length s <=? 50)%nat)
        "Category cannot exceed 50 characters" (q_category q);
      optional isMongoId "Valid author ID is required" (q_author q);
      optional (fun s => (String.length s <=? 100)%nat)
        "Search query cannot exceed 100 characters" (q_search q);
      optional (isIn ["title"; "publishedAt"; "views"; "readingTime"; "createdAt"])
        "Invalid sort field" (q_sort q);
      optional (isIn ["asc"; "desc"]) "Order must be asc or desc" (q_order q) ].

(** [parseInt(x, 10) || d] *)
Definition or_default (d : N) (x : option N) : N :=
  match x with
  | Some 0 | None => d
  | Some n => n
  end.

(** A query parameter that is present and not empty. *)
Definition truthy (x : option string) : option string :=
  match x with
  | Some s => if falsy s then None else Some s
  | None => None
  end.

Definition status_name (st : Status) : string :=
  match st with
  | draft => "draft"
  | published => "published"
  | archived => "archived"
  end.

(** The pagination object of the listing routes. *)
Definition paginate (page limit total : N) : Pagination :=
  {| currentPage := page;
     totalPages := ceil_div total limit;
     totalPosts := total;
     hasNext := page * limit <? total;
     hasPrev := 1 <? page |}.

(** [.skip((page - 1) * limit).limit(limit)] *)
Definition page_slice {A : Type} (page limit : N) (l : list A) : list A :=
  firstn (N.to_nat limit) (skipn (N.to_nat ((page - 1) * limit)) l).

(** The argument of [.sort(...)]. *)
Inductive SortOptions :=
| ByTextScore
| ByField (field : string) (order : Z).

Section Listing.

(** The parts of a query that bear on what this model leaves out of a
    post: its category, the text index, and the order MongoDB returns
    the matching documents in. *)
Variable category_is : string -> Post -> bool.
Variable text_matches : string -> Post -> bool.
Variable mongo_sort : SortOptions -> list Post -> list Post.

Definition listing (options : SortOptions) (matching : list Post) (q : PostQuery)
    : Reply :=
  let page := or_default 1 (q_page q) in
  let limit := or_default 10 (q_limit q) in
  let data := page_slice page limit (mongo_sort options matching) in
  ReplyPosts 200 (List.length data)
    (paginate page limit (N.of_nat (List.length matching))) data.

(** The filter of [GET /api/posts]. *)
Definition public_filter (q : PostQuery) (p : Post) : bool :=
  Status_eqb (post_status p) published
  && match truthy (q_category q) with Some c => category_is c p | None => true end
  && match truthy (q_author q) with
     | Some a => String.eqb (post_author p) (toLowerCase a)
     | None => true
     end
  && match truthy (q_search q) with Some s => text_matches s p | None => true end.

Definition public_sort (q : PostQuery) : SortOptions :=
  match truthy (q_search q), truthy (q_sort q) with
  | Some _, _ => ByTextScore
  | None, Some sortField =>
      ByField sortField
        (match q_order q with
         | Some o => if String.eqb o "asc" then 1%Z else (-1)%Z
         | None => (-1)%Z
         end)
  | None, None => ByField "publishedAt" (-1)%Z
  end.

(** [GET /api/posts]: the author of the query is cast when the query
    runs, and the [catch] of the handler answers a failed cast. *)
Definition listPosts (store : list Post) (q : PostQuery) : Reply :=
  match validatePostQuery q with
  | [] =>
      match truthy (q_author q) with
      | Some a =>
          match cast_ObjectId a with
          | Some _ => listing (public_sort q) (List.filter (public_filter q) store) q
          | None => ReplyError 500 "Server error" []
          end
      | None => listing (public_sort q) (List.filter (public_filter q) store) q
      end
  | errors => ReplyError 400 "Validation failed" errors
  end.

(** The filter of [GET /api/posts/user/my-posts]. *)
Definition my_filter (user : User) (q : PostQuery) (p : Post) : bool :=
  String.eqb (post_author p) (user_id user)
  && match truthy (q_status q) with
     | Some s => String.eqb (status_name (post_status p)) s
     | None => true
     end.

(** [GET /api/posts/user/my-posts] *)
Definition myPosts (store : list Post) (user : User) (q : PostQuery) : Reply :=
  match validatePostQuery q with
  | [] => listing (ByField "createdAt" (-1)%Z) (List.filter (my_filter user q) store) q
  | errors => ReplyError 400 "Validation failed" errors
  end.

End Listing.

(** ** The comment routes *)

(** [Comment.findById(id)] for an [id] of 24 hexadecimal digits. *)
Definition findCommentById (comments : list Comment) (id : string) : option Comment :=
  find (fun c => String.eqb (comment_id c) (toLowerCase id)) comments.


(** The chain [body('content').trim().isLength({ min: 1, max: 1000 })]
    of both comment validators. *)
Definition comment_content_errors (content : string) : list string :=
  if length_between 1 1000 content then []
  else ["Comment content is required and cannot exceed 1000 characters"].


(** The schema validators of [content]: [required] and [maxlength] 1000. *)
Definition comment_schema_errors (content : string) : list string :=
  if falsy content then ["Comment content is required"]
  else if (1000 <? String.length content)%nat then ["Comment cannot exceed 1000 characters"]
  else [].


Definition set_comment_likes (c : Comment) (likes : list Like) : Comment :=
  {| comment_id := comment_id c; comment_content := comment_content c;
     comment_author := comment_author c; comment_post := comment_post c;
     comment_parent := comment_parent c; comment_replies := comment_replies c;
     comment_isApproved := comment_isApproved c; comment_likes := likes;
     comment_edited := comment_edited c; comment_editedAt := comment_editedAt c;
     comment_createdAt := comment_createdAt c |}.

(** [{ content, edited: true, editedAt: new Date() }] set on a comment. *)
Definition edit_comment (content : string) (now : Date) (c : Comment) : Comment :=
  {| comment_id := comment_id c; comment_content := trim content;
     comment_author := comment_author c; comment_post := comment_post c;
     comment_parent := comment_parent c; comment_replies := comment_replies c;
     comment_isApproved := comment_isApproved c; comment_likes := comment_likes c;
     comment_edited := true; comment_editedAt := Some now;
     comment_createdAt := comment_createdAt c |}.

Definition has_comment_id (id : ObjectId) (c : Comment) : bool :=
  String.eqb (comment_id c) id.



(** [PUT /api/comments/:id] *)
Definition updateComment (site : Site) (now : Date) (id : string) (user : User)
    (content : option string) : Reply * Site :=
  match validateObjectId (Some id) with
  | [] =>
      match comment_content_errors (trim (default "" content)) with
      | [] =>
          match findCommentById (site_comments site) id with
          | None => (ReplyError 404 "Comment not found" [], site)
          | Some comment =>
              if negb (String.eqb (comment_author comment) (user_id user)) then
                (ReplyError 403 "Not authorized to update this comment" [], site)
              else
                let content' := trim (default "" content) in
                match comment_schema_errors (trim content') with
                | [] =>
                    (ReplyComment 200 (edit_comment content' now comment),
                     with_comments site (wrote 1 (site_db site))
                       (update_first (has_comment_id (toLowerCase id))
                          (edit_comment content' now) (site_comments site)))
                | _ => (ReplyError 500 "Server error" [], site)
                end
          end
      | errors => (ReplyError 400 "Validation failed" errors, site)
      end
  | errors => (ReplyError 400 "Validation failed" errors, site)
  end.

(** [DELETE /api/comments/:id] *)
Definition deleteComment (site : Site) (id : string) (user : User) : Reply * Site :=
  match validateObjectId (Some id) with
  | [] =>
      match findCommentById (site_comments site) id with
      | None => (ReplyError 404 "Comment not found" [], site)
      | Some comment =>
          if negb (String.eqb (comment_author comment) (user_id user))
             && negb (Role_eqb (user_role user) admin)
          then (ReplyError 403 "Not authorized to delete this comment" [], site)
          else
            (ReplyMessage 200 "Comment deleted successfully",
             with_comments site (wrote 2 (site_db site))
               (remove_first (has_comment_id (toLowerCase id))
                  (List.filter
                     (fun c => negb (bool_decide (comment_parent c = Some (toLowerCase id))))
                     (site_comments site))))
      end
  | errors => (ReplyError 400 "Validation failed" errors, site)
  end.

(** [PUT /api/comments/:id/like] *)
Definition likeComment (site : Site) (now : Date) (id : string) (user : User)
    : Reply * Site :=
  match validateObjectId (Some id) with
  | [] =>
      match findCommentById (site_comments site) id with
      | None => (ReplyError 404 "Comment not found" [], site)
      | Some comment =>
          let '(likes', isLiked) :=
            toggle_like now (user_id user) (comment_likes comment) in
          (ReplyLiked 200 (List.length likes') isLiked,
           with_comments site (wrote 1 (site_db site))
             (update_first (has_comment_id (comment_id comment))
                (fun _ => set_comment_likes comment likes') (site_comments site)))
      end
  | errors => (ReplyError 400 "Validation failed" errors, site)
  end.

(** The filter of [Comment.getByPost(postId)]: the approved top-level
    comments of the post. *)
Definition getByPost_filter (postId : string) (c : Comment) : bool :=
  String.eqb (comment_post c) (toLowerCase postId)
  && negb (isSome (comment_parent c))
  && comment_isApproved c.

(** [GET /api/comments/post/:postId]: the route puts [validateObjectId]
    before the handler, and the route has no [:id] segment.
    [sort_comments] is the order MongoDB returns the comments in. *)
Definition commentsForPost (sort_comments : list Comment -> list Comment)
    (site : Site) (postId : string) : Reply :=
  match validateObjectId None with
  | [] =>
      let comments :=
        sort_comments (List.filter (getByPost_filter postId) (site_comments site)) in
      ReplyComments 200 (List.length comments) comments
  | errors => ReplyError 400 "Validation failed" errors
  end.

(** ** [DELETE /api/users/:id], for a caller that [authorize('admin')] let
    through. *)
Definition deleteUser (site : Site) (caller : User) (id : string) : Reply * Site :=
  match validateObjectId (Some id) with
  | [] =>
      match find (fun u => String.eqb (ud_id u) (toLowerCase id)) (site_users site) with
      | None => (ReplyError 404 "User not found" [], site)
      | Some _ =>
          if String.eqb (user_id caller) id then
            (ReplyError 400 "Cannot delete your own account" [], site)
          else
            (ReplyMessage 200 "User deleted successfully",
             {| site_db :=
                  {| posts := List.filter
                                (fun p => negb (String.eqb (post_author p) (toLowerCase id)))
                                (posts (site_db site));
                     write_calls := (2 + write_calls (site_db site))%nat |};
                site_comments := site_comments site;
                site_users := remove_first
                                (fun u => String.eqb (ud_id u) (toLowerCase id))
                                (site_users site);
                site_views :=
                  fun i => if existsb
                                (fun p => String.eqb (post_id p) i
                                          && String.eqb (post_author p) (toLowerCase id))
                                (posts (site_db site))
                           then 0 else site_views site i;
                site_updatedAt :=
                  fun i => if existsb
                                (fun p => String.eqb (post_id p) i
                                          && String.eqb (post_author p) (toLowerCase id))
                                (posts (site_db site))
                           then 0 else site_updatedAt site i |})
      end
  | errors => (ReplyError 400 "Validation failed" errors, site)
  end.

(** ** More sample data *)

Definition admin_doc : UserDoc :=
  {| ud_id := user_id root; ud_role := admin; ud_isActive := true |}.
Definition alice_doc : UserDoc :=
  {| ud_id := user_id alice; ud_role := author; ud_isActive := true |}.

Definition sample_site : Site :=
  {| site_db := {| posts := two_posts; write_calls := 2 |};
     site_comments := [];
     site_users := [admin_doc; alice_doc];
     site_views := fun _ => 0;
     site_updatedAt := fun _ => 5 |}.


Definition id4 : ObjectId := "000000000000000000000004".
Definition id5 : ObjectId := "000000000000000000000005".

(** A comment on the first sample post, written at time 5. *)
Definition sample_comment (id : ObjectId) (user : User) (parent : option ObjectId)
    (replies : list ObjectId) : Comment :=
  {| comment_id := id; comment_content := "Nice post";
     comment_author := user_id user; comment_post := id1;
     comment_parent := parent; comment_replies := replies;
     comment_isApproved := true; comment_likes := [];
     comment_edited := false; comment_editedAt := None;
     comment_createdAt := 5 |}.

(** A thread: a comment of bob, a reply of alice and a reply to the
    reply. *)
Definition commented_site : Site :=
  with_comments sample_site (site_db sample_site)
    [sample_comment id3 bob None [id4];
     sample_comment id4 alice (Some id3) [id5];
     sample_comment id5 bob (Some id4) []].

(** The first sample post, published at time 10. *)
Definition published_hello : Post :=
  {| post_id := id1; post_title := "Hello, World!"; post_slug := "hello-world";
     post_content := "some text"; post_author := user_id alice;
     post_status := published; post_publishedAt := Some 10; post_readingTime := 1;
     post_likes := [] |}.

(** The sample store with its first post published. *)
Definition published_site : Site :=
  {| site_db := {| posts := [published_hello; hello_post id2 "hello-world-1"];
                  write_calls := 2 |};
     site_comments := [];
     site_users := [admin_doc; alice_doc];
     site_views := fun _ => 0;
     site_updatedAt := fun _ => 10 |}.

(** * Properties *)

(** ** The primitives on concrete inputs *)

Example baseSlug_hello : baseSlug "Hello, World!" = "hello-world".
Proof. reflexivity. Qed.

Example baseSlug_runs : baseSlug "a  b - c" = "a-b-c".
Proof. reflexivity. Qed.

Example baseSlug_punctuation_only : baseSlug "?!" = "".
Proof. reflexivity. Qed.

Example generateSlug_hello : generateSlug "  Hello, World! - " = "hello-world".
Proof. reflexivity. Qed.

Example trim_both_ends : trim "  a b  " = "a b".
Proof. reflexivity. Qed.

Example split_ws_empty : split_ws "" = [""].
Proof. reflexivity. Qed.

Example split_ws_ends : split_ws " a  b " = [""; "a"; "b"; ""].
Proof. reflexivity. Qed.

Example strip_tags_unclosed : strip_tags "<p class='x'>a < b</p> <" = "a  <".
Proof. reflexivity. Qed.

Example wordCount_300 : ceil_div (wordCount ("w" +:+ repeat_str " w" 299)) 200 = 2.
Proof. vm_compute. reflexivity. Qed.

Example calculateReadingTime_empty : calculateReadingTime "" = 0.
Proof. reflexivity. Qed.

Example calculateReadingTime_300 :
  calculateReadingTime ("<p>w" +:+ repeat_str " w" 299 +:+ "</p>") = 2.
Proof. vm_compute. reflexivity. Qed.

Example isValidObjectId_id1 : isValidObjectId id1 = true /\ isValidObjectId "hello-world" = false.
Proof. split; reflexivity. Qed.

(** ** Characters *)

Ltac ascii_cases c := destruct c as [[] [] [] [] [] [] [] []].

Lemma lower_char_kept (c : ascii) :
  not_alnum_space (lower_char c) = false ->
  is_space (lower_char c) = false ->
  is_slug_char (lower_char c) = true /\ is_hyphen (lower_char c) = false.
Proof. ascii_cases c; vm_compute; intros; try discriminate; split; reflexivity. Qed.

Lemma lower_char_slug_id (c : ascii) : is_slug_char c = true -> lower_char c = c.
Proof. ascii_cases c; vm_compute; intros; try discriminate; reflexivity. Qed.

Lemma slug_char_not_space (c : ascii) : is_slug_char c = true -> is_space c = false.
Proof. ascii_cases c; vm_compute; intros; try discriminate; reflexivity. Qed.

Lemma digit_slug_char (c : ascii) : is_digit c = true -> is_slug_char c = true.
Proof. ascii_cases c; vm_compute; intros; try discriminate; reflexivity. Qed.

Lemma lower_char_alnum (c : ascii) :
  is_alnum c = true ->
  not_alnum_space (lower_char c) = false /\ is_space (lower_char c) = false.
Proof. ascii_cases c; vm_compute; intros; try discriminate; split; reflexivity. Qed.

(** ** Strings *)

Lemma all_chars_impl (p q : ascii -> bool) (s : string) :
  (forall c, p c = true -> q c = true) ->
  all_chars p s = true -> all_chars q s = true.
Proof.
  intros Hpq. induction s as [|c r IH]; simpl; [reflexivity|].
  rewrite !andb_true_iff. intros [Hc Hr]. split; [apply Hpq, Hc | apply IH, Hr].
Qed.

Lemma all_chars_app (p : ascii -> bool) (s t : string) :
  all_chars p (s +:+ t) = all_chars p s && all_chars p t.
Proof.
  induction s as [|c r IH]; simpl; [reflexivity|].
  unfold String.app in *. simpl. rewrite IH. apply andb_assoc.
Qed.

Lemma substring0_all_chars (p : ascii -> bool) (n : nat) (s : string) :
  all_chars p s = true -> all_chars p (substring0 n s) = true.
Proof.
  revert s. induction n as [|n IH]; intros [|c r]; simpl; try reflexivity.
  rewrite !andb_true_iff. intros [Hc Hr]. split; [exact Hc | apply IH, Hr].
Qed.

Lemma substring0_length (n : nat) (s : string) :
  (String.length (substring0 n s) <= n)%nat.
Proof.
  revert s. induction n as [|n IH]; intros [|c r]; simpl; try lia.
  specialize (IH r). lia.
Qed.

Lemma substring0_all (n : nat) (s : string) :
  (String.length s <= n)%nat -> substring0 n s = s.
Proof.
  revert s. induction n as [|n IH]; intros [|c r]; simpl; try reflexivity; try lia.
  intros H. f_equal. apply IH. lia.
Qed.

Lemma substring0_first (n : nat) (s : string) :
  first_char (substring0 (S n) s) = first_char s.
Proof. destruct s; reflexivity. Qed.

Lemma substring0_adjacent (cls : ascii -> bool) (n : nat) (s : string) :
  has_adjacent cls s = false -> has_adjacent cls (substring0 n s) = false.
Proof.
  revert s. induction n as [|n IH]; intros [|a r]; simpl; try reflexivity.
  destruct r as [|b r']; [destruct n; reflexivity|].
  rewrite orb_false_iff. intros [Hab Hr].
  specialize (IH (String b r') Hr).
  destruct n as [|n']; [reflexivity|].
  simpl in *. rewrite Hab. exact IH.
Qed.

Lemma toLowerCase_slug_id (s : string) :
  all_chars is_slug_char s = true -> toLowerCase s = s.
Proof.
  induction s as [|c r IH]; simpl; [reflexivity|].
  rewrite andb_true_iff. intros [Hc Hr].
  unfold toLowerCase in *. simpl. rewrite (lower_char_slug_id c Hc), (IH Hr). reflexivity.
Qed.

Lemma replace_runs_stripped (title : string) (in_run : bool) :
  all_chars is_slug_char (replace_runs is_space in_run (stripped title)) = true
  /\ has_adjacent is_hyphen (replace_runs is_space in_run (stripped title)) = false
  /\ (in_run = true ->
      leading_hyphen (replace_runs is_space in_run (stripped title)) = false).
Proof.
  unfold stripped, toLowerCase. revert in_run.
  induction title as [|c r IH]; intros in_run; simpl.
  { repeat split; reflexivity. }
  destruct (not_alnum_space (lower_char c)) eqn:Hkeep; [apply IH|].
  simpl. destruct (is_space (lower_char c)) eqn:Hsp.
  - destruct (IH true) as (Hall & Hadj & Hlead).
    destruct in_run.
    + split; [exact Hall|]. split; [exact Hadj|exact Hlead].
    + specialize (Hlead eq_refl). unfold leading_hyphen in Hlead.
      simpl. rewrite Hall. split; [reflexivity|]. split; [|discriminate].
      destruct (replace_runs _ _ _) as [|b t]; [reflexivity|].
      simpl in Hlead. rewrite Hlead. exact Hadj.
  - destruct (lower_char_kept c Hkeep Hsp) as [Hslug Hnh].
    destruct (IH false) as (Hall & Hadj & _).
    simpl. rewrite Hslug, Hall. split; [reflexivity|]. split.
    + destruct (replace_runs _ _ _) as [|b t]; [reflexivity|].
      rewrite Hnh. simpl. exact Hadj.
    + intros _. unfold leading_hyphen. simpl. exact Hnh.
Qed.

Lemma replace_runs_length (title : string) (in_run : bool) :
  (String.length (replace_runs is_space in_run (stripped title))
   <= String.length title)%nat.
Proof.
  unfold stripped, toLowerCase. revert in_run.
  induction title as [|c r IH]; intros in_run; simpl; [lia|].
  destruct (not_alnum_space (lower_char c)).
  - specialize (IH in_run). lia.
  - simpl. destruct (is_space (lower_char c)).
    + destruct in_run; simpl; specialize (IH true); lia.
    + simpl. specialize (IH false). lia.
Qed.

Lemma last_char_cons (a : ascii) (s : string) (c : ascii) :
  last_char s = Some c -> last_char (String a s) = Some c.
Proof. destruct s; [discriminate|]. intros H. exact H. Qed.

Lemma replace_runs_last (title : string) (c : ascii) (in_run : bool) :
  last_char title = Some c -> is_alnum c = true ->
  last_char (replace_runs is_space in_run (stripped title)) = Some (lower_char c).
Proof.
  unfold stripped, toLowerCase. revert in_run.
  induction title as [|a r IH]; intros in_run Hlast Hc; [discriminate|].
  destruct r as [|b r'].
  - injection Hlast as ->. simpl.
    destruct (lower_char_alnum c Hc) as [-> Hsp]. simpl. rewrite Hsp. reflexivity.
  - assert (Hr : last_char (String b r') = Some c) by exact Hlast.
    change (map_chars lower_char (String a (String b r')))
      with (String (lower_char a) (map_chars lower_char (String b r'))).
    cbn [remove_class].
    destruct (not_alnum_space (lower_char a)); [apply IH; assumption|].
    cbn [replace_runs]. destruct (is_space (lower_char a)).
    + destruct in_run; [apply IH; assumption|].
      apply last_char_cons, IH; assumption.
    + apply last_char_cons, IH; assumption.
Qed.

(** ** The slug candidate of the hook (claim C4) *)

(** C4, the code against the claim: the candidate of the title ["- hello"]
    begins with a hyphen and that of ["hello !"] ends with one (the hook
    has no step that removes them), and [generateSlug] of the front end,
    which does remove them, does not cut at 50 characters. *)
Lemma baseSlug_hyphen_at_the_ends :
  baseSlug "- hello" = "-hello"
  /\ baseSlug "hello !" = "hello-"
  /\ ~ (forall title : string,
          leading_hyphen (baseSlug title) = false
          /\ trailing_hyphen (baseSlug title) = false)
  /\ String.length
       (generateSlug "aaaaaaaaaaaaaaaaaaaaaaaaaaaaaaaaaaaaaaaaaaaaaaaaaaaaaaaaaaaa") = 60%nat.
Proof.
  split; [reflexivity|]. split; [reflexivity|]. split; [|reflexivity].
  intros H. destruct (H "- hello") as [Hlead _]. vm_compute in Hlead. discriminate.
Qed.

Lemma split_go_not_nil (in_run : bool) (acc s : string) : split_go in_run acc s <> [].
Proof.
  revert in_run acc. induction s as [|c r IH]; intros in_run acc; simpl; [discriminate|].
  destruct (is_space c); [destruct in_run; [apply IH|discriminate]|apply IH].
Qed.

Lemma append_assoc (a b c : string) : (a +:+ b) +:+ c = a +:+ (b +:+ c).
Proof.
  induction a as [|x a IH]; [reflexivity|].
  change (String x ((a +:+ b) +:+ c) = String x (a +:+ (b +:+ c))).
  rewrite IH. reflexivity.
Qed.

(** Cutting at the whitespace runs and joining the pieces with hyphens
    is replacing every whitespace run by one hyphen. *)
Lemma join_split_go (in_run : bool) (acc s : string) :
  String.concat "-" (split_go in_run acc s) = acc +:+ replace_runs is_space in_run s.
Proof.
  revert in_run acc. induction s as [|c r IH]; intros in_run acc.
  { cbn [split_go replace_runs String.concat].
    induction acc as [|x acc IHacc]; [reflexivity|].
    change (String x acc = String x (acc +:+ EmptyString)). rewrite <- IHacc.
    reflexivity. }
  cbn [split_go replace_runs]. destruct (is_space c).
  - destruct in_run; [apply IH|].
    pose proof (IH true EmptyString) as Hrest.
    pose proof (split_go_not_nil true EmptyString r) as Hne.
    destruct (split_go true EmptyString r) as [|x l]; [contradiction|].
    change (String.concat "-" (acc :: x :: l))
      with (acc +:+ "-" +:+ String.concat "-" (x :: l)).
    rewrite Hrest. reflexivity.
  - rewrite IH, append_assoc. reflexivity.
Qed.

Lemma lower_char_deleted (c : ascii) :
  negb (not_alnum_space (lower_char c))
  = is_lower (lower_char c) || is_digit (lower_char c) || is_space (lower_char c).
Proof. ascii_cases c; vm_compute; reflexivity. Qed.

(** C4 as the hook has it: for every title the candidate is the first 50
    characters of the pieces joined by single hyphens that are left when
    the title is lower-cased, every character other than [a-z], [0-9] and
    whitespace is deleted, and the rest is cut at its whitespace runs (so
    each run of whitespace left after the deletion becomes one hyphen).
    It is therefore lower-cased, made of [[a-z0-9-]] only, without two
    hyphens in a row, and of at most 50 characters; it does not begin
    with a hyphen when the title begins with one of [a-z], [A-Z], [0-9],
    and does not end with one when the title has at most 50 characters
    and ends with one of [a-z], [A-Z], [0-9]. *)
Theorem baseSlug_shape (title : string) :
  baseSlug title = substring0 50 (String.concat "-" (split_ws (stripped title)))
  /\ chars (stripped title)
     = List.filter (fun c => is_lower c || is_digit c || is_space c)
         (map lower_char (chars title))
  /\ toLowerCase (baseSlug title) = baseSlug title
  /\ all_chars is_slug_char (baseSlug title) = true
  /\ has_adjacent is_hyphen (baseSlug title) = false
  /\ (String.length (baseSlug title) <= 50)%nat
  /\ ((exists c, first_char title = Some c /\ is_alnum c = true) ->
      leading_hyphen (baseSlug title) = false)
  /\ ((String.length title <= 50)%nat ->
      (exists c, last_char title = Some c /\ is_alnum c = true) ->
      trailing_hyphen (baseSlug title) = false).
Proof.
  split.
  { unfold baseSlug, split_ws. fold (stripped title).
    rewrite join_split_go. reflexivity. }
  split.
  { unfold stripped, toLowerCase, chars.
    induction title as [|c r IH]; [reflexivity|].
    cbn [map_chars remove_class list_ascii_of_string map List.filter].
    rewrite <- lower_char_deleted.
    destruct (not_alnum_space (lower_char c)); cbn [negb list_ascii_of_string];
      rewrite IH; reflexivity. }
  destruct (replace_runs_stripped title false) as (Hall & Hadj & _).
  assert (Hslug : all_chars is_slug_char (baseSlug title) = true)
    by (apply substring0_all_chars, Hall).
  split; [apply toLowerCase_slug_id, Hslug|].
  split; [exact Hslug|].
  split; [apply substring0_adjacent, Hadj|].
  split; [apply substring0_length|].
  split.
  - intros (c & Hfirst & Hc). destruct title as [|a r]; [discriminate|].
    injection Hfirst as ->.
    destruct (lower_char_alnum c Hc) as [Hkeep Hsp].
    unfold baseSlug, leading_hyphen, toLowerCase. simpl. rewrite Hkeep. simpl.
    rewrite Hsp. simpl.
    destruct (lower_char_kept c Hkeep Hsp) as [_ Hnh]. exact Hnh.
  - intros Hlen (c & Hlast & Hc).
    unfold baseSlug, trailing_hyphen.
    fold (stripped title).
    rewrite substring0_all
      by (pose proof (replace_runs_length title false); lia).
    rewrite (replace_runs_last title c false Hlast Hc).
    destruct (lower_char_alnum c Hc) as [Hkeep Hsp].
    destruct (lower_char_kept (c) Hkeep Hsp) as [_ Hnh]. exact Hnh.
Qed.

Lemma baseSlug_shape_witness :
  baseSlug "My 1st Post" = "my-1st-post"
  /\ split_ws (stripped "My 1st Post") = ["my"; "1st"; "post"]
  /\ leading_hyphen (baseSlug "My 1st Post") = false
  /\ trailing_hyphen (baseSlug "My 1st Post") = false.
Proof.
  split; [reflexivity|]. split; [reflexivity|].
  destruct (baseSlug_shape "My 1st Post") as (_ & _ & _ & _ & _ & _ & Hlead & Htrail).
  split.
  - apply Hlead. exists "M"%char. split; reflexivity.
  - apply Htrail; [simpl; lia|]. exists "t"%char. split; reflexivity.
Defined.

(** ** Trimming *)

Lemma drop_leading_first (cls : ascii -> bool) (s : string) :
  match first_char s with Some c => cls c = false | None => True end ->
  drop_leading cls s = s.
Proof. destruct s as [|c r]; simpl; [reflexivity|]. intros ->. reflexivity. Qed.

Lemma drop_leading_head (cls : ascii -> bool) (s : string) :
  match first_char (drop_leading cls s) with Some c => cls c = false | None => True end.
Proof.
  induction s as [|c r IH]; simpl; [exact I|].
  destruct (cls c) eqn:Hc; [exact IH|]. simpl. exact Hc.
Qed.

Lemma drop_trailing_head (cls : ascii -> bool) (s : string) :
  match first_char s with Some c => cls c = false | None => True end ->
  match first_char (drop_trailing cls s) with Some c => cls c = false | None => True end.
Proof.
  destruct s as [|c r]; simpl; [trivial|]. intros Hc.
  destruct (drop_trailing cls r); [rewrite Hc|]; simpl; exact Hc.
Qed.

Lemma drop_trailing_idem (cls : ascii -> bool) (s : string) :
  drop_trailing cls (drop_trailing cls s) = drop_trailing cls s.
Proof.
  induction s as [|c r IH]; simpl; [reflexivity|].
  destruct (drop_trailing cls r) as [|b t] eqn:Hr.
  - destruct (cls c) eqn:Hc; simpl; [reflexivity|]. rewrite Hc. reflexivity.
  - change (drop_trailing cls (String c (String b t)))
      with (match drop_trailing cls (String b t) with
            | EmptyString => if cls c then EmptyString else String c EmptyString
            | r' => String c r'
            end).
    rewrite IH. reflexivity.
Qed.

Lemma trim_idem (s : string) : trim (trim s) = trim s.
Proof.
  unfold trim.
  rewrite (drop_leading_first is_space (drop_trailing is_space (drop_leading is_space s))).
  - apply drop_trailing_idem.
  - apply drop_trailing_head, drop_leading_head.
Qed.

Lemma drop_trailing_last (cls : ascii -> bool) (s : string) :
  match last_char (drop_trailing cls s) with
  | Some c => cls c = false
  | None => True
  end.
Proof.
  induction s as [|c r IH]; simpl; [exact I|].
  destruct (drop_trailing cls r) as [|b t].
  - destruct (cls c) eqn:Hc; simpl; [exact I|exact Hc].
  - exact IH.
Qed.

(** ** [generateSlug] of the front end *)

Lemma lower_char_not_upper (c : ascii) : is_upper (lower_char c) = false.
Proof. ascii_cases c; reflexivity. Qed.

Lemma generateSlug_char (c : ascii) :
  is_upper c = false ->
  not_word_space_hyphen c = false ->
  space_underscore_hyphen c = false ->
  is_slug_char c = true.
Proof. ascii_cases c; vm_compute; intros; try discriminate; reflexivity. Qed.

Lemma drop_leading_all_chars (p cls : ascii -> bool) (s : string) :
  all_chars p s = true -> all_chars p (drop_leading cls s) = true.
Proof.
  induction s as [|c r IH]; simpl; [reflexivity|]. intros H.
  destruct (cls c); [|exact H]. apply andb_true_iff in H as [_ Hr]. apply IH, Hr.
Qed.

Lemma drop_trailing_all_chars (p cls : ascii -> bool) (s : string) :
  all_chars p s = true -> all_chars p (drop_trailing cls s) = true.
Proof.
  induction s as [|c r IH]; simpl; [reflexivity|].
  rewrite andb_true_iff. intros [Hc Hr]. specialize (IH Hr).
  destruct (drop_trailing cls r) as [|b t].
  - destruct (cls c); simpl; [reflexivity|]. rewrite Hc. reflexivity.
  - simpl in *. rewrite Hc. exact IH.
Qed.

Lemma toLowerCase_not_upper (s : string) :
  all_chars (fun c => negb (is_upper c)) (toLowerCase s) = true.
Proof.
  unfold toLowerCase. induction s as [|c r IH]; simpl; [reflexivity|].
  rewrite lower_char_not_upper, IH. reflexivity.
Qed.

Lemma replace_runs_generateSlug (s : string) (in_run : bool) :
  all_chars (fun c => negb (is_upper c)) s = true ->
  all_chars is_slug_char
    (replace_runs space_underscore_hyphen in_run
       (remove_class not_word_space_hyphen s)) = true.
Proof.
  revert in_run. induction s as [|c r IH]; intros in_run; simpl; [reflexivity|].
  rewrite andb_true_iff, negb_true_iff. intros [Hc Hr].
  destruct (not_word_space_hyphen c) eqn:Hkeep; [apply IH, Hr|].
  simpl. destruct (space_underscore_hyphen c) eqn:Hsep.
  - destruct in_run; simpl; apply IH, Hr.
  - simpl. rewrite (generateSlug_char c Hc Hkeep Hsep). apply IH, Hr.
Qed.

(** The front-end helper yields [[a-z0-9-]] only and no hyphen at either
    end (it has no bound on the length). *)
Lemma generateSlug_shape (text : string) :
  all_chars is_slug_char (generateSlug text) = true
  /\ leading_hyphen (generateSlug text) = false
  /\ trailing_hyphen (generateSlug text) = false.
Proof.
  unfold generateSlug.
  set (body := replace_runs space_underscore_hyphen false
                 (remove_class not_word_space_hyphen (trim (toLowerCase text)))).
  split; [|split].
  - apply drop_trailing_all_chars, drop_leading_all_chars.
    apply replace_runs_generateSlug. unfold trim.
    apply drop_trailing_all_chars, drop_leading_all_chars, toLowerCase_not_upper.
  - pose proof (drop_trailing_head is_hyphen (drop_leading is_hyphen body)
                  (drop_leading_head is_hyphen body)) as H.
    unfold leading_hyphen. destruct (first_char _); [exact H|reflexivity].
  - pose proof (drop_trailing_last is_hyphen (drop_leading is_hyphen body)) as H.
    unfold trailing_hyphen. destruct (last_char _); [exact H|reflexivity].
Qed.

(** ** Decimal suffixes and the slug setter *)

Lemma pretty_N_char_digit (x : N) : is_digit (pretty_N_char x) = true.
Proof. unfold pretty_N_char. repeat case_match; reflexivity. Qed.

Lemma pretty_N_go_digits (x : N) (s : string) :
  all_chars is_digit s = true -> all_chars is_digit (pretty_N_go x s) = true.
Proof.
  revert s. induction (N.lt_wf_0 x) as [x _ IH]; intros s Hs.
  destruct (N.eq_dec x 0) as [->|Hx]; [rewrite pretty_N_go_0; exact Hs|].
  rewrite pretty_N_go_step by lia.
  apply IH; [apply N.div_lt; lia|].
  simpl. rewrite pretty_N_char_digit. exact Hs.
Qed.

Lemma pretty_N_digits (x : N) : all_chars is_digit (pretty x) = true.
Proof.
  unfold pretty, pretty_N. case_decide; [reflexivity|].
  apply pretty_N_go_digits. reflexivity.
Qed.

Lemma drop_trailing_no_space (s : string) :
  all_chars is_slug_char s = true -> drop_trailing is_space s = s.
Proof.
  induction s as [|c r IH]; simpl; [reflexivity|].
  rewrite andb_true_iff. intros [Hc Hr]. rewrite (IH Hr).
  destruct r; [rewrite (slug_char_not_space c Hc)|]; reflexivity.
Qed.

Lemma trim_slug_id (s : string) : all_chars is_slug_char s = true -> trim s = s.
Proof.
  intros Hs. unfold trim.
  assert (Hlead : drop_leading is_space s = s).
  { destruct s as [|c r]; [reflexivity|]. simpl in *.
    apply andb_true_iff in Hs as [Hc _]. rewrite (slug_char_not_space c Hc). reflexivity. }
  rewrite Hlead. apply drop_trailing_no_space, Hs.
Qed.

(** On a string of [[a-z0-9-]] the setters of the [slug] path do nothing. *)
Lemma slug_setter_id (s : string) : all_chars is_slug_char s = true -> slug_setter s = s.
Proof.
  intros Hs. unfold slug_setter. rewrite (trim_slug_id s Hs).
  apply toLowerCase_slug_id, Hs.
Qed.

Lemma baseSlug_slug_chars (title : string) :
  all_chars is_slug_char (baseSlug title) = true.
Proof. apply substring0_all_chars, (replace_runs_stripped title false). Qed.

Lemma candidate_slug_chars (base : string) (k : nat) :
  all_chars is_slug_char base = true ->
  all_chars is_slug_char (candidate base k) = true.
Proof.
  intros Hb. destruct k as [|k]; [exact Hb|].
  unfold candidate. rewrite !all_chars_app, Hb. simpl.
  apply (all_chars_impl is_digit), pretty_N_digits. exact digit_slug_char.
Qed.

Lemma app_length (s t : string) :
  String.length (s +:+ t) = (String.length s + String.length t)%nat.
Proof.
  induction s as [|c r IH]; [reflexivity|].
  change (String c r +:+ t) with (String c (r +:+ t)). simpl. rewrite IH. reflexivity.
Qed.

Lemma candidate_inj (base : string) (j k : nat) :
  candidate base j = candidate base k -> j = k.
Proof.
  destruct j as [|j], k as [|k]; unfold candidate; intros H.
  - reflexivity.
  - apply (f_equal String.length) in H. rewrite !app_length in H. simpl in H. lia.
  - apply (f_equal String.length) in H. rewrite !app_length in H. simpl in H. lia.
  - apply String.app_inj in H. apply String.app_inj in H.
    apply pretty_N_inj in H. lia.
Qed.

Lemma candidates_NoDup (base : string) (n : nat) :
  List.NoDup (map (candidate base) (seq 0 n)).
Proof.
  apply Finite.Injective_map_NoDup; [|apply seq_NoDup].
  intros j k. apply candidate_inj.
Qed.

(** ** The uniqueness loop *)

Lemma findOne_slug_Some (store : list Post) (slug : string) (p : Post) :
  findOne_slug store slug = Some p -> In p store /\ post_slug p = slug_setter slug.
Proof.
  unfold findOne_slug. intros H. apply find_some in H as [Hin Heq].
  split; [exact Hin | apply String.eqb_eq, Heq].
Qed.

Lemma findOne_slug_None (store : list Post) (slug : string) :
  findOne_slug store slug = None ->
  forall p, In p store -> post_slug p <> slug_setter slug.
Proof.
  unfold findOne_slug. intros H p Hin.
  apply String.eqb_neq. exact (find_none _ _ H p Hin).
Qed.

Lemma not_free_taken (store : list Post) (this_id : ObjectId) (slug : string) :
  free_for store this_id slug = false -> In (slug_setter slug) (slugs store).
Proof.
  unfold free_for. destruct (findOne_slug store slug) as [p|] eqn:Hf; [|discriminate].
  intros _. apply findOne_slug_Some in Hf as [Hin <-].
  unfold slugs. apply in_map, Hin.
Qed.

(** Pigeonhole: the candidates tried and found taken are distinct slugs
    of stored posts, so there are no more of them than stored posts. *)
Lemma taken_candidates_bound (store : list Post) (this_id : ObjectId)
    (base : string) (j : nat) :
  all_chars is_slug_char base = true ->
  (forall i, (i < j)%nat -> free_for store this_id (candidate base i) = false) ->
  (j <= List.length store)%nat.
Proof.
  intros Hb Htaken.
  assert (H : (List.length (map (candidate base) (seq 0 j))
               <= List.length (slugs store))%nat).
  { apply NoDup_incl_length; [apply candidates_NoDup|].
    intros s Hs. apply in_map_iff in Hs as (i & <- & Hi). apply in_seq in Hi.
    rewrite <- (slug_setter_id (candidate base i))
      by (apply candidate_slug_chars, Hb).
    apply (not_free_taken store this_id), Htaken. lia. }
  unfold slugs in H. rewrite !length_map, length_seq in H. exact H.
Qed.

(** One turn of the loop, in terms of [free_for]. *)
Lemma slug_loop_step (fuel : nat) (store : list Post) (this_id : ObjectId)
    (base : string) (j : nat) :
  slug_loop (S fuel) store this_id base (candidate base j) (N.of_nat (S j)) =
  if free_for store this_id (candidate base j) then Some (candidate base j)
  else slug_loop fuel store this_id base (candidate base (S j)) (N.of_nat (S (S j))).
Proof.
  simpl slug_loop. unfold free_for.
  destruct (findOne_slug store (candidate base j)) as [p|]; [|reflexivity].
  destruct (String.eqb (post_id p) this_id); [reflexivity|].
  replace (N.of_nat (S j) + 1) with (N.of_nat (S (S j))) by lia. reflexivity.
Qed.

(** The loop started at candidate [j] with all earlier candidates taken
    leaves at the first free candidate, which it reaches within the
    budget. *)
Lemma slug_loop_from (store : list Post) (this_id : ObjectId) (base : string) :
  all_chars is_slug_char base = true ->
  forall fuel j,
    (forall i, (i < j)%nat -> free_for store this_id (candidate base i) = false) ->
    (List.length store < j + fuel)%nat ->
    exists k,
      (j <= k <= List.length store)%nat
      /\ slug_loop fuel store this_id base (candidate base j) (N.of_nat (S j))
         = Some (candidate base k)
      /\ free_for store this_id (candidate base k) = true
      /\ (forall i, (i < k)%nat -> free_for store this_id (candidate base i) = false).
Proof.
  intros Hb. induction fuel as [|fuel IH]; intros j Htaken Hfuel.
  - pose proof (taken_candidates_bound store this_id base j Hb Htaken). lia.
  - rewrite slug_loop_step.
    pose proof (taken_candidates_bound store this_id base j Hb Htaken) as Hj.
    destruct (free_for store this_id (candidate base j)) eqn:Hfree.
    + exists j. repeat split; auto; lia.
    + destruct (IH (S j)) as (k & Hk & Hloop & Hfk & Hmin).
      * intros i Hi. destruct (Nat.eq_dec i j) as [->|]; [exact Hfree|].
        apply Htaken. lia.
      * lia.
      * exists k. repeat split; auto; lia.
Qed.

Lemma slug_loop_result (title : string) (store : list Post) (this_id : ObjectId)
    (fuel : nat) :
  (List.length store < fuel)%nat ->
  exists k,
    (k <= List.length store)%nat
    /\ slug_loop fuel store this_id (baseSlug title) (baseSlug title) 1
       = Some (candidate (baseSlug title) k)
    /\ free_for store this_id (candidate (baseSlug title) k) = true
    /\ (forall i, (i < k)%nat ->
          free_for store this_id (candidate (baseSlug title) i) = false).
Proof.
  intros Hfuel.
  destruct (slug_loop_from store this_id (baseSlug title)
              (baseSlug_slug_chars title) fuel 0%nat) as (k & Hk & Hloop & Hfree & Hmin).
  - intros i Hi. lia.
  - lia.
  - exists k. split; [lia|]. split; [exact Hloop|]. split; assumption.
Qed.

Lemma NoDup_map_In_inj {A B : Type} (f : A -> B) (l : list A) (x y : A) :
  List.NoDup (map f l) -> In x l -> In y l -> f x = f y -> x = y.
Proof.
  induction l as [|a l IH]; simpl; intros Hnd Hx Hy Hxy; [contradiction|].
  inversion Hnd as [|? ? Hnotin Hnd']; subst.
  destruct Hx as [->|Hx], Hy as [->|Hy]; auto.
  - exfalso. apply Hnotin. rewrite Hxy. apply in_map, Hy.
  - exfalso. apply Hnotin. rewrite <- Hxy. apply in_map, Hx.
Qed.

(** A slug that is free for a document belongs to no other stored post,
    if the collection respects the unique index on [slug] or the
    document is not stored yet. *)
Lemma free_for_no_other (store : list Post) (this_id : ObjectId) (slug : string) :
  all_chars is_slug_char slug = true ->
  free_for store this_id slug = true ->
  List.NoDup (slugs store) \/ ~ In this_id (ids store) ->
  forall p, In p store -> post_id p <> this_id -> post_slug p <> slug.
Proof.
  intros Hs Hfree Hidx p Hin Hid Heq.
  unfold free_for in Hfree.
  destruct (findOne_slug store slug) as [q|] eqn:Hf.
  - apply String.eqb_eq in Hfree.
    apply findOne_slug_Some in Hf as [Hq Hqs]. rewrite (slug_setter_id slug Hs) in Hqs.
    destruct Hidx as [Hnd|Hnew].
    + assert (p = q) by (apply (NoDup_map_In_inj post_slug store); auto; congruence).
      subst q. contradiction.
    + apply Hnew. unfold ids. rewrite <- Hfree. apply in_map, Hq.
  - apply (findOne_slug_None store slug Hf p Hin).
    rewrite (slug_setter_id slug Hs). exact Heq.
Qed.

(** ** Suffixes of the uniqueness resolver (claim C2) *)

(** C2, the code against the claim: the counter starts at 1, so the
    second post created with the title of a post whose slug is
    ["hello-world"] gets ["hello-world-1"], not ["hello-world-2"]. *)
Lemma second_post_slug_suffix_1 :
  exists p1 db1 p2 db2,
    createPost empty_db 10 id1 alice hello_body = Some (Success 201 p1, db1)
    /\ post_slug p1 = "hello-world"
    /\ createPost db1 20 id2 alice hello_body = Some (Success 201 p2, db2)
    /\ post_slug p2 = "hello-world-1"
    /\ post_slug p2 <> "hello-world-2".
Proof.
  do 4 eexists. split; [vm_compute; reflexivity|].
  split; [reflexivity|]. split; [vm_compute; reflexivity|].
  split; [reflexivity|]. discriminate.
Qed.

(** C2 as the code has it: the resolver tries the candidate itself and
    then the candidate with the suffixes -1, -2, -3, ... in this order,
    and returns the first that no other post has: all the earlier ones
    are taken by other posts. *)
Theorem slug_loop_first_free (title : string) (store : list Post) (this_id : ObjectId) :
  candidate (baseSlug title) 0 = baseSlug title
  /\ candidate (baseSlug title) 1 = baseSlug title +:+ "-1"
  /\ candidate (baseSlug title) 2 = baseSlug title +:+ "-2"
  /\ candidate (baseSlug title) 3 = baseSlug title +:+ "-3"
  /\ exists k,
       slug_loop (loop_budget store) store this_id (baseSlug title) (baseSlug title) 1
       = Some (candidate (baseSlug title) k)
       /\ free_for store this_id (candidate (baseSlug title) k) = true
       /\ (forall i, (i < k)%nat ->
             free_for store this_id (candidate (baseSlug title) i) = false).
Proof.
  do 4 (split; [reflexivity|]).
  destruct (slug_loop_result title store this_id (loop_budget store))
    as (k & _ & Hloop & Hfree & Hmin); [unfold loop_budget; lia|].
  exists k. split; [exact Hloop|]. split; assumption.
Qed.

(** ** Termination of the uniqueness loop (claim C9) *)

(** C9: for every title and every collection, the loop started on the
    candidate of the title leaves, within one lookup more than there are
    stored posts (and so for every larger budget), and, the collection
    respecting its unique index on [slug] (or the document being new), no
    other stored post has the slug it returns. *)
Theorem slug_loop_terminates (title : string) (store : list Post) (this_id : ObjectId) :
  exists slug,
    (forall fuel, (List.length store < fuel)%nat ->
       slug_loop fuel store this_id (baseSlug title) (baseSlug title) 1 = Some slug)
    /\ (List.NoDup (slugs store) \/ ~ In this_id (ids store) ->
        forall p, In p store -> post_id p <> this_id -> post_slug p <> slug).
Proof.
  destruct (slug_loop_result title store this_id (S (List.length store)))
    as (k & Hk & Hloop & Hfree & Hmin); [lia|].
  exists (candidate (baseSlug title) k). split.
  - intros fuel Hfuel.
    destruct (slug_loop_result title store this_id fuel Hfuel)
      as (k' & _ & Hloop' & Hfree' & Hmin').
    rewrite Hloop'. f_equal. f_equal.
    destruct (Nat.lt_trichotomy k k') as [Hlt|[->|Hlt]]; [|reflexivity|].
    + rewrite (Hmin' k Hlt) in Hfree. discriminate.
    + rewrite (Hmin k' Hlt) in Hfree'. discriminate.
  - apply free_for_no_other; [|exact Hfree].
    apply candidate_slug_chars, baseSlug_slug_chars.
Qed.

Lemma slug_loop_terminates_witness :
  exists slug,
    slug_loop 3 two_posts id3 (baseSlug "Hello, World!") (baseSlug "Hello, World!") 1
    = Some slug
    /\ (forall p, In p two_posts -> post_id p <> id3 -> post_slug p <> slug).
Proof.
  destruct (slug_loop_terminates "Hello, World!" two_posts id3) as (slug & Hloop & Hother).
  exists slug. split.
  - apply Hloop. simpl. lia.
  - apply Hother. left. unfold two_posts, slugs. simpl.
    repeat constructor; simpl; intuition discriminate.
Defined.

(** ** The unique indexes under the storage commands *)

Lemma existsb_false_forall {A : Type} (f : A -> bool) (l : list A) :
  existsb f l = false -> forall x, In x l -> f x = false.
Proof.
  intros H x Hin. destruct (f x) eqn:Hfx; [|reflexivity].
  assert (existsb f l = true) by (apply existsb_exists; eauto). congruence.
Qed.

Lemma insertOne_indexes (db : Db) (doc : Post) :
  indexes_ok (posts db) -> indexes_ok (posts (snd (insertOne db doc))).
Proof.
  intros [Hids Hslugs]. unfold insertOne.
  destruct (existsb _ (posts db)) eqn:Hex; simpl; [split; assumption|].
  pose proof (existsb_false_forall _ _ Hex) as Hall.
  unfold indexes_ok, ids, slugs. rewrite !map_app. simpl.
  split; apply NoDup_app; repeat split; auto;
    try (repeat constructor; simpl; tauto);
    intros x Hx; simpl; intros [<-|[]];
    apply in_map_iff in Hx as (p & Heq & Hp);
    specialize (Hall p Hp); apply orb_false_iff in Hall as [H1 H2];
    [apply String.eqb_neq in H1 | apply String.eqb_neq in H2]; congruence.
Qed.

Lemma replace_doc_absent (doc : Post) (store : list Post) :
  ~ In (post_id doc) (ids store) -> replace_doc doc store = store.
Proof.
  induction store as [|p r IH]; simpl; intros Hnot; [reflexivity|].
  destruct (String.eqb (post_id p) (post_id doc)) eqn:Heq.
  - apply String.eqb_eq in Heq. tauto.
  - rewrite IH by tauto. reflexivity.
Qed.

Lemma replace_doc_ids (doc : Post) (store : list Post) :
  ids (replace_doc doc store) = ids store.
Proof.
  unfold ids, replace_doc. rewrite map_map. apply map_ext_in. intros p _.
  destruct (String.eqb (post_id p) (post_id doc)) eqn:Heq; [|reflexivity].
  apply String.eqb_eq in Heq. congruence.
Qed.

Lemma replace_doc_slugs (doc : Post) (store : list Post) (s : string) :
  In s (slugs (replace_doc doc store)) -> s = post_slug doc \/ In s (slugs store).
Proof.
  unfold slugs, replace_doc. rewrite map_map. intros H.
  apply in_map_iff in H as (p & Heq & Hp).
  destruct (String.eqb (post_id p) (post_id doc)); [left; congruence|].
  right. rewrite <- Heq. apply in_map, Hp.
Qed.

Lemma updateOne_indexes (db : Db) (doc : Post) :
  indexes_ok (posts db) -> indexes_ok (posts (snd (updateOne db doc))).
Proof.
  intros [Hids Hslugs]. unfold updateOne.
  destruct (existsb _ (posts db)) eqn:Hex; simpl; [split; assumption|].
  pose proof (existsb_false_forall _ _ Hex) as Hall. clear Hex.
  split; [rewrite replace_doc_ids; exact Hids|].
  induction (posts db) as [|p r IH]; simpl; [constructor|].
  inversion Hids as [|? ? Hp_id Hr_ids]; subst.
  inversion Hslugs as [|? ? Hp_slug Hr_slugs]; subst.
  assert (Hr : forall x, In x r ->
            negb (String.eqb (post_id x) (post_id doc))
            && String.eqb (post_slug x) (post_slug doc) = false)
    by (intros x Hx; apply Hall; right; exact Hx).
  destruct (String.eqb (post_id p) (post_id doc)) eqn:Heq.
  - apply String.eqb_eq in Heq.
    fold (replace_doc doc r). rewrite replace_doc_absent by (rewrite <- Heq; exact Hp_id).
    constructor; [|exact Hr_slugs].
    intros Hin. apply in_map_iff in Hin as (q & Hq_slug & Hq).
    specialize (Hr q Hq). rewrite Hq_slug, String.eqb_refl, andb_true_r in Hr.
    apply negb_false_iff, String.eqb_eq in Hr.
    apply Hp_id. rewrite Heq, <- Hr. apply in_map, Hq.
  - constructor; [|apply IH; assumption].
    intros Hin. apply replace_doc_slugs in Hin as [Hdoc|Hin]; [|contradiction].
    specialize (Hall p (or_introl eq_refl)).
    rewrite Heq, Hdoc, String.eqb_refl in Hall. discriminate.
Qed.

(** ** The hook returns *)

Lemma hook_slug_returns (store : list Post) (isNew : bool) (m : Modified) (this : Post) :
  exists this', hook_slug (loop_budget store) store isNew m this = Some this'.
Proof.
  unfold hook_slug.
  destruct ((mod_title m && falsy (post_slug this)) || (isNew && falsy (post_slug this)));
    [|eauto].
  destruct (slug_loop_result (post_title this) store (post_id this) (loop_budget store))
    as (k & _ & -> & _); [unfold loop_budget; lia|]. eauto.
Qed.

Lemma pre_save_returns (store : list Post) (now : Date) (isNew : bool)
    (m : Modified) (this : Post) :
  exists this', pre_save (loop_budget store) store now isNew m this = Some this'.
Proof.
  unfold pre_save.
  destruct (hook_slug_returns store isNew m this) as [this1 ->]. eauto.
Qed.

(** Every request returns and leaves the unique indexes intact. *)
Lemma exec_indexes (op : Op) (db : Db) :
  indexes_ok (posts db) ->
  exists r db', exec op db = Some (r, db') /\ indexes_ok (posts db').
Proof.
  intros Hok. destruct op as [now new_id user b|id user b|now id user]; simpl.
  - unfold createPost. destruct (validatePostCreation b) as [errs|b']; [eauto|].
    unfold createPost_handler, Post_create_prepare.
    destruct (schema_errors _ _); [|eauto].
    destruct (pre_save_returns (posts db) now true (create_modified b')
                (new_document new_id (user_id user) b')) as [doc ->].
    unfold create_commit.
    pose proof (insertOne_indexes db doc Hok) as Hins.
    destruct (insertOne db doc) as [r db']. eauto.
  - unfold updatePost. destruct (validatePostUpdate b) as [errs|b']; [eauto|].
    unfold updatePost_handler.
    destruct (lookup (posts db) id) as [post|]; [|eauto].
    destruct (negb _ && negb _); [eauto|].
    unfold findByIdAndUpdate. destruct (update_errors _ _); [|eauto].
    pose proof (updateOne_indexes db (apply_update b' post) Hok) as Hupd.
    destruct (updateOne db (apply_update b' post)) as [[e|post'] db']; eauto.
  - unfold likePost. destruct (lookup (posts db) id) as [post|]; [|eauto].
    destruct (toggle_like now (user_id user) (post_likes post)) as [likes' isLiked].
    destruct (pre_save_returns (posts db) now false unmodified (set_likes post likes'))
      as [doc ->].
    pose proof (updateOne_indexes db doc Hok) as Hupd.
    destruct (updateOne db doc) as [[e|post'] db']; eauto.
Qed.

Lemma run_indexes (ops : list Op) (db : Db) :
  indexes_ok (posts db) ->
  exists db', run ops db = Some db' /\ indexes_ok (posts db').
Proof.
  revert db. induction ops as [|op rest IH]; intros db Hok; simpl; [eauto|].
  destruct (exec_indexes op db Hok) as (r & db' & -> & Hok'). apply IH, Hok'.
Qed.

(** ** Creations with a generated slug are never rejected *)

Lemma falsy_length (s : string) : falsy s = negb (1 <=? String.length s)%nat.
Proof. destruct s; reflexivity. Qed.

(** A creation request with a valid title and content, no slug of its
    own and a fresh [_id] is stored: the slug the hook generated passes
    the unique index. *)
Lemma createPost_fresh (db : Db) (now : Date) (new_id : ObjectId) (user : User)
    (title content : string) :
  length_between 1 200 (trim title) = true ->
  (1 <=? String.length (trim content))%nat = true ->
  ~ In new_id (ids (posts db)) ->
  exists p,
    createPost db now new_id user
      (with_title_content empty_body (Some title) (Some content))
    = Some (Success 201 p,
            {| posts := List.app (posts db) [p]; write_calls := S (write_calls db) |})
    /\ post_id p = new_id.
Proof.
  intros Htitle Hcontent Hfresh.
  unfold createPost, validatePostCreation.
  cbn -[Nat.leb trim length_between]. rewrite Htitle, Hcontent.
  cbn -[Nat.leb trim length_between].
  unfold createPost_handler, Post_create_prepare, new_document.
  cbn -[Nat.leb Nat.ltb trim length_between loop_budget pre_save schema_errors].
  unfold title_setter. rewrite trim_idem.
  unfold schema_errors, title_errors, content_errors.
  rewrite !falsy_length, Hcontent.
  unfold length_between in Htitle. apply andb_true_iff in Htitle as [Hlo Hhi].
  rewrite Hlo.
  replace (200 <? String.length (trim title))%nat with false
    by (symmetry; apply Nat.ltb_ge, Nat.leb_le, Hhi).
  cbn -[Nat.leb Nat.ltb trim loop_budget slug_loop baseSlug wordCount ceil_div].
  unfold pre_save, hook_slug.
  cbn -[Nat.leb Nat.ltb trim loop_budget slug_loop baseSlug wordCount ceil_div].
  destruct (slug_loop_result (trim title) (posts db) new_id (loop_budget (posts db)))
    as (k & _ & Hloop & Hfree & _); [unfold loop_budget; lia|].
  rewrite Hloop.
  set (slug := candidate (baseSlug (trim title)) k) in *.
  assert (Hchars : all_chars is_slug_char slug = true)
    by (apply candidate_slug_chars, baseSlug_slug_chars).
  unfold hook_readingTime, hook_publishedAt.
  change (slug_setter "") with "".
  cbn -[trim slug_setter wordCount ceil_div].
  unfold create_commit, insertOne. cbn -[trim slug_setter wordCount ceil_div].
  rewrite (slug_setter_id slug Hchars).
  assert (Hex : existsb (fun p => String.eqb (post_id p) new_id
                                  || String.eqb (post_slug p) slug) (posts db) = false).
  { destruct (existsb _ (posts db)) eqn:Hex; [|reflexivity].
    apply existsb_exists in Hex as (p & Hp & Hor).
    assert (Hid : post_id p <> new_id)
      by (intros <-; apply Hfresh; unfold ids; apply in_map, Hp).
    apply orb_true_iff in Hor as [H|H]; apply String.eqb_eq in H; [contradiction|].
    exfalso.
    apply (free_for_no_other (posts db) new_id slug Hchars Hfree (or_intror Hfresh) p Hp Hid H). }
  rewrite Hex. eexists. split; reflexivity.
Qed.

Lemma creations_all_stored (title content : string)
    (reqs : list (Date * ObjectId * User)) :
  length_between 1 200 (trim title) = true ->
  (1 <=? String.length (trim content))%nat = true ->
  List.NoDup (map (fun r => snd (fst r)) reqs) ->
  forall db,
    (forall r, In r reqs -> ~ In (snd (fst r)) (ids (posts db))) ->
    exists db',
      run (creations title content reqs) db = Some db'
      /\ List.length (posts db') = (List.length (posts db) + List.length reqs)%nat.
Proof.
  intros Htitle Hcontent. induction reqs as [|r rest IH]; intros Hnd db Hfresh; simpl.
  - exists db. split; [reflexivity|lia].
  - inversion Hnd as [|? ? Hr Hrest]; subst.
    destruct (createPost_fresh db (fst (fst r)) (snd (fst r)) (snd r) title content
                Htitle Hcontent (Hfresh r (or_introl eq_refl))) as (p & -> & Hp).
    destruct (IH Hrest {| posts := List.app (posts db) [p];
                          write_calls := S (write_calls db) |})
      as (db' & Hrun & Hlen).
    + intros r' Hr' Hin. simpl in Hin. unfold ids in Hin.
      rewrite map_app in Hin. apply in_app_iff in Hin as [Hin|Hin].
      * apply (Hfresh r' (or_intror Hr')). exact Hin.
      * simpl in Hin. destruct Hin as [Hin|[]].
        apply Hr. rewrite <- Hp, Hin.
        apply (in_map (fun r => snd (fst r))), Hr'.
    + exists db'. split; [exact Hrun|].
      rewrite Hlen. simpl. rewrite length_app. simpl. lia.
Qed.

(** ** Slug uniqueness as an invariant (claim C3) *)

(** C3: after every prefix of every sequence of create, update and like
    requests served one after another on the empty collection, the
    request has returned and the slugs of the stored posts are pairwise
    distinct; and creations with one title served back to back (valid
    title and content, fresh [_id]s) are all stored, with pairwise
    distinct slugs. *)
Theorem slug_unique_invariant :
  (forall (ops : list Op) (n : nat),
     exists db, run (firstn n ops) empty_db = Some db
                /\ List.NoDup (slugs (posts db)))
  /\ (forall (title content : string) (reqs : list (Date * ObjectId * User)),
        length_between 1 200 (trim title) = true ->
        (1 <=? String.length (trim content))%nat = true ->
        List.NoDup (map (fun r => snd (fst r)) reqs) ->
        exists db, run (creations title content reqs) empty_db = Some db
                   /\ List.length (posts db) = List.length reqs
                   /\ List.NoDup (slugs (posts db))).
Proof.
  assert (Hempty : indexes_ok (posts empty_db)) by (split; constructor).
  split.
  - intros ops n.
    destruct (run_indexes (firstn n ops) empty_db Hempty) as (db & Hrun & _ & Hslugs).
    eauto.
  - intros title content reqs Htitle Hcontent Hnd.
    destruct (creations_all_stored title content reqs Htitle Hcontent Hnd empty_db)
      as (db & Hrun & Hlen); [intros r _ []|].
    destruct (run_indexes (creations title content reqs) empty_db Hempty)
      as (db' & Hrun' & _ & Hslugs).
    rewrite Hrun in Hrun'. injection Hrun' as <-.
    exists db. split; [exact Hrun|]. split; [exact Hlen|exact Hslugs].
Qed.

Lemma slug_unique_invariant_witness :
  exists db,
    run (creations "Hello, World!" "some text"
           [(10, id1, alice); (20, id2, bob); (30, id3, alice)]) empty_db = Some db
    /\ List.length (posts db) = 3%nat
    /\ List.NoDup (slugs (posts db)).
Proof.
  destruct slug_unique_invariant as [_ Hsame].
  apply (Hsame "Hello, World!" "some text"
           [(10, id1, alice); (20, id2, bob); (30, id3, alice)]).
  - reflexivity.
  - reflexivity.
  - simpl. repeat constructor; simpl; intuition discriminate.
Defined.

(** ** Update: not found and forbidden (claim C7) *)

(** C7: the update handler answers 404 when the lookup by [_id] or slug
    finds no post and 403 when the caller is neither the author of the
    post found nor an admin; in both cases the storage is as before, no
    write command having been issued. The same holds of the whole route
    whenever the body passes [validatePostUpdate]. *)
Theorem updatePost_notfound_forbidden (db : Db) (id : string) (user : User) (b : Body) :
  (lookup (posts db) id = None ->
   updatePost_handler db id user b = (Failure 404 "Post not found" [], db)
   /\ (forall b', validatePostUpdate b = inr b' ->
         updatePost db id user b = (Failure 404 "Post not found" [], db)))
  /\ (forall post,
        lookup (posts db) id = Some post ->
        post_author post <> user_id user ->
        user_role user <> admin ->
        updatePost_handler db id user b
        = (Failure 403 "Not authorized to update this post" [], db)
        /\ (forall b', validatePostUpdate b = inr b' ->
              updatePost db id user b
              = (Failure 403 "Not authorized to update this post" [], db))).
Proof.
  split.
  - intros Hnone. unfold updatePost, updatePost_handler. rewrite Hnone.
    split; [reflexivity|]. intros b' ->. reflexivity.
  - intros post Hsome Hauthor Hrole.
    apply String.eqb_neq in Hauthor.
    assert (Hr : Role_eqb (user_role user) admin = false)
      by (destruct (user_role user); [contradiction|reflexivity]).
    unfold updatePost, updatePost_handler. rewrite Hsome, Hauthor, Hr.
    split; [reflexivity|]. intros b' ->. reflexivity.
Qed.

Lemma updatePost_notfound_forbidden_witness :
  updatePost {| posts := two_posts; write_calls := 2 |} "no-such-post" alice
    (status_body published)
  = (Failure 404 "Post not found" [], {| posts := two_posts; write_calls := 2 |})
  /\ updatePost {| posts := two_posts; write_calls := 2 |} "hello-world" bob
       (status_body published)
     = (Failure 403 "Not authorized to update this post" [],
        {| posts := two_posts; write_calls := 2 |}).
Proof.
  split.
  - destruct (updatePost_notfound_forbidden {| posts := two_posts; write_calls := 2 |}
                "no-such-post" alice (status_body published)) as [Hnf _].
    destruct Hnf as [_ Hroute]; [reflexivity|].
    apply (Hroute (status_body published)). reflexivity.
  - destruct (updatePost_notfound_forbidden {| posts := two_posts; write_calls := 2 |}
                "hello-world" bob (status_body published)) as [_ Hfb].
    destruct (Hfb (hello_post id1 "hello-world")) as [_ Hroute];
      [reflexivity|discriminate|discriminate|].
    apply (Hroute (status_body published)). reflexivity.
Defined.

(** ** [publishedAt] (claim C1) *)

(** What the hook does with [publishedAt]: it never changes one that is
    set, and it sets an unset one to the current time exactly when the
    status is modified and is [published]. *)
Lemma hook_publishedAt_spec (now : Date) (m : Modified) (this : Post) :
  post_publishedAt (hook_publishedAt now m this) =
  match post_publishedAt this with
  | Some d => Some d
  | None => if mod_status m && Status_eqb (post_status this) published
            then Some now else None
  end.
Proof.
  unfold hook_publishedAt.
  destruct (post_publishedAt this) as [d|] eqn:Hd; simpl.
  - rewrite andb_false_r. exact Hd.
  - rewrite andb_true_r.
    destruct (mod_status m && Status_eqb (post_status this) published);
      [reflexivity|exact Hd].
Qed.

(** An update whose body carries no [publishedAt] leaves the stored one
    as it is, whatever it does to the status. *)
Lemma apply_update_publishedAt (b : Body) (p : Post) :
  body_publishedAt b = None ->
  post_publishedAt (apply_update b p) = post_publishedAt p.
Proof. intros H. unfold apply_update. simpl. rewrite H. reflexivity. Qed.

(** A post created as [published] gets [publishedAt] from the hook. *)
Example create_published_sets_publishedAt :
  exists p db,
    createPost empty_db 10 id1 alice
      {| body_title := Some "Hello, World!"; body_slug := None;
         body_content := Some "some text"; body_author := None;
         body_status := Some published; body_publishedAt := None;
         body_readingTime := None |}
    = Some (Success 201 p, db)
    /\ post_status p = published /\ post_publishedAt p = Some 10.
Proof. do 2 eexists. split; [vm_compute; reflexivity|]. split; reflexivity. Qed.

(** C1, the code against the claim: a post is created as a draft and then
    published through the update route. The route writes with
    [findByIdAndUpdate], which runs no [save] hook, so the stored post is
    [published] with [publishedAt] still unset. *)
Theorem publish_by_update_leaves_publishedAt_unset :
  exists p1 db1 p2 db2,
    createPost empty_db 10 id1 alice hello_body = Some (Success 201 p1, db1)
    /\ post_status p1 = draft /\ post_publishedAt p1 = None
    /\ updatePost db1 id1 alice (status_body published) = (Success 200 p2, db2)
    /\ posts db2 = [p2]
    /\ post_status p2 = published /\ post_publishedAt p2 = None.
Proof.
  do 4 eexists. split; [vm_compute; reflexivity|].
  split; [reflexivity|]. split; [reflexivity|].
  split; [vm_compute; reflexivity|]. repeat split; reflexivity.
Qed.

(** ** The author of a post (claim C8) *)

(** On creation the author of the body is overridden by the caller. *)
Lemma new_document_author (new_id author_id : ObjectId) (b : Body) :
  post_author (new_document new_id author_id b) = author_id.
Proof. reflexivity. Qed.

(** An update whose body carries no [author] keeps the author. *)
Lemma apply_update_author (b : Body) (p : Post) :
  body_author b = None -> post_author (apply_update b p) = post_author p.
Proof. intros H. unfold apply_update. simpl. rewrite H. reflexivity. Qed.

(** C8, the code against the claim: the update route hands the whole
    body to [findByIdAndUpdate], so a body with an [author] field, sent by
    the owner, replaces the stored author. *)
Theorem update_changes_author :
  exists p1 db1 p2 db2,
    createPost empty_db 10 id1 alice hello_body = Some (Success 201 p1, db1)
    /\ post_author p1 = user_id alice
    /\ updatePost db1 id1 alice (author_body (user_id bob)) = (Success 200 p2, db2)
    /\ posts db2 = [p2]
    /\ post_author p2 = user_id bob
    /\ post_author p2 <> post_author p1.
Proof.
  do 4 eexists. split; [vm_compute; reflexivity|].
  split; [reflexivity|]. split; [vm_compute; reflexivity|].
  repeat split; try reflexivity. discriminate.
Qed.

(** ** The like toggle (claim C10) *)

Lemma findIndex_None (uid : ObjectId) (likes : list Like) :
  findIndex uid likes = None <-> ~ In uid (likers likes).
Proof.
  induction likes as [|l rest IH]; simpl; [tauto|].
  destruct (String.eqb (like_user l) uid) eqn:Heq.
  - apply String.eqb_eq in Heq. split; [discriminate|tauto].
  - apply String.eqb_neq in Heq.
    destruct (findIndex uid rest) as [n|]; simpl.
    + split; [discriminate|]. intros H. exfalso.
      assert (Hn : ~ In uid (likers rest)) by tauto.
      apply IH in Hn. discriminate.
    + split; [|reflexivity]. intros _ [H|H]; [contradiction|].
      revert H. apply IH. reflexivity.
Qed.

(** Removing the first entry of a user from [likes] that hold at most
    one entry per user removes the user and nobody else. *)
Lemma splice1_findIndex (uid : ObjectId) (likes : list Like) (i : nat) :
  List.NoDup (likers likes) ->
  findIndex uid likes = Some i ->
  ~ In uid (likers (splice1 i likes))
  /\ (forall v, v <> uid -> (In v (likers (splice1 i likes)) <-> In v (likers likes)))
  /\ List.NoDup (likers (splice1 i likes))
  /\ S (List.length (splice1 i likes)) = List.length likes.
Proof.
  revert i. induction likes as [|l rest IH]; intros i Hnd Hfind; [discriminate|].
  simpl in Hnd. inversion Hnd as [|? ? Hl Hrest]; subst. simpl in Hfind.
  destruct (String.eqb (like_user l) uid) eqn:Heq.
  - injection Hfind as <-. apply String.eqb_eq in Heq. subst uid. simpl.
    split; [exact Hl|]. split; [|split; [exact Hrest|reflexivity]].
    intros v Hv. split; [intros H; right; exact H|].
    intros [H|H]; [congruence|exact H].
  - apply String.eqb_neq in Heq.
    destruct (findIndex uid rest) as [j|] eqn:Hj; [|discriminate].
    injection Hfind as <-. simpl.
    destruct (IH j Hrest eq_refl) as (Hnot & Hsame & Hnd' & Hlen).
    split; [intros [H|H]; [congruence|contradiction]|].
    split; [|split; [|lia]].
    + intros v Hv. specialize (Hsame v Hv). tauto.
    + constructor; [|exact Hnd'].
      intros Hin. apply Hl. apply (Hsame (like_user l)); [congruence|exact Hin].
Qed.

Lemma find_replace_doc_Some (f : Post -> bool) (doc post : Post) (store : list Post) :
  f doc = true -> post_id post = post_id doc ->
  find f store = Some post -> find f (replace_doc doc store) = Some doc.
Proof.
  intros Hdoc Hid. induction store as [|p r IH]; simpl; [discriminate|].
  destruct (f p) eqn:Hp.
  - intros [= ->]. rewrite Hid, String.eqb_refl, Hdoc. reflexivity.
  - intros Hr. destruct (String.eqb (post_id p) (post_id doc)).
    + rewrite Hdoc. reflexivity.
    + rewrite Hp. apply IH, Hr.
Qed.

Lemma find_replace_doc_None (f : Post -> bool) (doc : Post) (store : list Post) :
  (forall p, post_id p = post_id doc -> f p = f doc) ->
  find f store = None -> find f (replace_doc doc store) = None.
Proof.
  intros Hf. induction store as [|p r IH]; simpl; [reflexivity|].
  destruct (f p) eqn:Hp; [discriminate|]. intros Hr.
  destruct (String.eqb (post_id p) (post_id doc)) eqn:Heq.
  - apply String.eqb_eq in Heq. rewrite <- (Hf p Heq), Hp. apply IH, Hr.
  - rewrite Hp. apply IH, Hr.
Qed.

Lemma lookup_In (store : list Post) (id : string) (post : Post) :
  lookup store id = Some post -> In post store.
Proof.
  unfold lookup, findById, findOne_slug.
  destruct (isValidObjectId id).
  - destruct (find _ store) as [q|] eqn:Hq.
    + intros [= <-]. apply (find_some _ _ Hq).
    + intros H. apply (find_some _ _ H).
  - intros H. apply (find_some _ _ H).
Qed.

(** The lookup finds the replaced document where it found the old one. *)
Lemma lookup_replace_doc (store : list Post) (id : string) (post doc : Post) :
  post_id doc = post_id post -> post_slug doc = post_slug post ->
  lookup store id = Some post ->
  lookup (replace_doc doc store) id = Some doc.
Proof.
  intros Hid Hslug. unfold lookup, findById, findOne_slug.
  set (by_id := fun p => String.eqb (post_id p) (toLowerCase id)).
  set (by_slug := fun p => String.eqb (post_slug p) (slug_setter id)).
  assert (Hslug_case : find by_slug store = Some post ->
                       find by_slug (replace_doc doc store) = Some doc).
  { intros H. apply (find_replace_doc_Some by_slug doc post); auto.
    pose proof (find_some _ _ H) as [_ Hp]. unfold by_slug in *. rewrite Hslug. exact Hp. }
  destruct (isValidObjectId id); [|intros H; apply Hslug_case, H].
  destruct (find by_id store) as [q|] eqn:Hq.
  - intros [= ->].
    rewrite (find_replace_doc_Some by_id doc post); auto.
    pose proof (find_some _ _ Hq) as [_ Hp]. unfold by_id in *. rewrite Hid. exact Hp.
  - intros H. rewrite (find_replace_doc_None by_id doc store); auto.
    intros p Hp. unfold by_id. rewrite Hp. reflexivity.
Qed.

(** The handler on a post it finds: the toggled [likes] are stored and
    reported. *)
Lemma likePost_found (db : Db) (now : Date) (id : string) (user : User) (post : Post) :
  indexes_ok (posts db) ->
  lookup (posts db) id = Some post ->
  exists db1,
    likePost db now id user
    = Some (Liked 200 (List.length (fst (toggle_like now (user_id user) (post_likes post))))
              (snd (toggle_like now (user_id user) (post_likes post))), db1)
    /\ lookup (posts db1) id
       = Some (set_likes post (fst (toggle_like now (user_id user) (post_likes post))))
    /\ indexes_ok (posts db1).
Proof.
  intros Hok Hlook. unfold likePost. rewrite Hlook.
  destruct (toggle_like now (user_id user) (post_likes post)) as [likes1 isLiked].
  cbn [fst snd].
  assert (Hsave : pre_save (loop_budget (posts db)) (posts db) now false unmodified
                    (set_likes post likes1) = Some (set_likes post likes1))
    by reflexivity.
  rewrite Hsave.
  pose proof (updateOne_indexes db (set_likes post likes1) Hok) as Hok1.
  unfold updateOne in *.
  assert (Hex : existsb (fun p => negb (String.eqb (post_id p) (post_id (set_likes post likes1)))
                           && String.eqb (post_slug p) (post_slug (set_likes post likes1)))
                  (posts db) = false).
  { destruct (existsb _ (posts db)) eqn:Hex; [|reflexivity].
    apply existsb_exists in Hex as (p & Hp & Hand).
    apply andb_true_iff in Hand as [Hne Heq].
    apply String.eqb_eq in Heq. simpl in Heq.
    assert (p = post)
      by (apply (NoDup_map_In_inj post_slug (posts db));
          [apply Hok|exact Hp|apply (lookup_In _ id), Hlook|exact Heq]).
    subst p. simpl in Hne. rewrite String.eqb_refl in Hne. discriminate. }
  rewrite Hex in *. simpl in Hok1. eexists. split; [reflexivity|].
  split; [|exact Hok1]. simpl.
  apply (lookup_replace_doc _ _ post); auto.
Qed.

(** One toggle on [likes] that hold at most one entry per user. *)
Lemma toggle_like_spec (now : Date) (uid : ObjectId) (likes : list Like) :
  List.NoDup (likers likes) ->
  (In uid (likers likes) ->
     ~ In uid (likers (fst (toggle_like now uid likes)))
     /\ S (List.length (fst (toggle_like now uid likes))) = List.length likes)
  /\ (~ In uid (likers likes) ->
      fst (toggle_like now uid likes)
      = List.app likes [{| like_user := uid; like_createdAt := now |}])
  /\ (forall v, v <> uid ->
        (In v (likers (fst (toggle_like now uid likes))) <-> In v (likers likes)))
  /\ List.NoDup (likers (fst (toggle_like now uid likes)))
  /\ (snd (toggle_like now uid likes) = true
      <-> In uid (likers (fst (toggle_like now uid likes)))).
Proof.
  intros Hnd. unfold toggle_like.
  destruct (findIndex uid likes) as [i|] eqn:Hfind; cbn [fst snd].
  - destruct (splice1_findIndex uid likes i Hnd Hfind) as (Hnot & Hsame & Hnd1 & Hlen).
    assert (Hin : In uid (likers likes)).
    { destruct (in_dec string_dec uid (likers likes)) as [H|H]; [exact H|].
      apply findIndex_None in H. congruence. }
    split; [intros _; split; assumption|].
    split; [intros H; contradiction|].
    split; [exact Hsame|]. split; [exact Hnd1|].
    split; [discriminate|intros H; contradiction].
  - assert (Hnot : ~ In uid (likers likes)) by (apply findIndex_None, Hfind).
    assert (Hlast : likers (List.app likes [{| like_user := uid; like_createdAt := now |}])
                    = List.app (likers likes) [uid])
      by (unfold likers; rewrite map_app; reflexivity).
    split; [intros H; contradiction|].
    split; [reflexivity|]. rewrite Hlast.
    split.
    { intros v Hv. rewrite in_app_iff. simpl.
      split; [intros [H|[H|[]]]; [exact H|congruence]|tauto]. }
    split.
    { apply NoDup_app. repeat split; auto.
      - repeat constructor. simpl. tauto.
      - intros x Hx [<-|[]]. contradiction. }
    split; [intros _; apply in_app_iff; right; left; reflexivity|reflexivity].
Qed.

(** Two toggles by one user restore the membership of every user. *)
Lemma toggle_like_twice (now now' : Date) (uid : ObjectId) (likes : list Like) :
  List.NoDup (likers likes) ->
  forall v,
    In v (likers (fst (toggle_like now' uid (fst (toggle_like now uid likes)))))
    <-> In v (likers likes).
Proof.
  intros Hnd v.
  destruct (toggle_like_spec now uid likes Hnd) as (Hrem1 & Hadd1 & Hoth1 & Hnd1 & _).
  destruct (toggle_like_spec now' uid (fst (toggle_like now uid likes)) Hnd1)
    as (Hrem2 & Hadd2 & Hoth2 & _ & _).
  destruct (string_dec v uid) as [->|Hv].
  - destruct (in_dec string_dec uid (likers likes)) as [Hin|Hout].
    + destruct (Hrem1 Hin) as [Hgone _]. rewrite (Hadd2 Hgone).
      unfold likers at 1. rewrite map_app, in_app_iff. simpl. tauto.
    + assert (Hin1 : In uid (likers (fst (toggle_like now uid likes)))).
      { rewrite (Hadd1 Hout). unfold likers. rewrite map_app, in_app_iff. simpl. tauto. }
      destruct (Hrem2 Hin1) as [Hgone _]. tauto.
  - rewrite (Hoth2 v Hv). apply Hoth1, Hv.
Qed.

(** C10: on a post whose [likes] hold at most one entry per user, one
    call of the like endpoint removes the entry of the caller if there is
    one and appends one if there is none, nobody else's membership
    changes and no user gets two entries; the answer reports the new
    number of likes and, as [isLiked], the membership of the caller after
    the call; a second call by the same user restores the membership of
    every user. *)
Theorem likePost_involution (db : Db) (now now' : Date) (id : string) (user : User)
    (post : Post) :
  indexes_ok (posts db) ->
  lookup (posts db) id = Some post ->
  List.NoDup (likers (post_likes post)) ->
  exists likes1 isLiked1 db1 likes2 isLiked2 db2,
    likePost db now id user = Some (Liked 200 (List.length likes1) isLiked1, db1)
    /\ lookup (posts db1) id = Some (set_likes post likes1)
    /\ (In (user_id user) (likers (post_likes post)) ->
        ~ In (user_id user) (likers likes1)
        /\ S (List.length likes1) = List.length (post_likes post))
    /\ (~ In (user_id user) (likers (post_likes post)) ->
        likes1 = List.app (post_likes post)
                   [{| like_user := user_id user; like_createdAt := now |}])
    /\ (forall v, v <> user_id user ->
          (In v (likers likes1) <-> In v (likers (post_likes post))))
    /\ List.NoDup (likers likes1)
    /\ (isLiked1 = true <-> In (user_id user) (likers likes1))
    /\ likePost db1 now' id user = Some (Liked 200 (List.length likes2) isLiked2, db2)
    /\ lookup (posts db2) id = Some (set_likes post likes2)
    /\ (forall v, In v (likers likes2) <-> In v (likers (post_likes post))).
Proof.
  intros Hok Hlook Hnd.
  destruct (likePost_found db now id user post Hok Hlook) as (db1 & Hcall1 & Hlook1 & Hok1).
  destruct (likePost_found db1 now' id user _ Hok1 Hlook1) as (db2 & Hcall2 & Hlook2 & _).
  set (uid := user_id user) in *. set (likes := post_likes post) in *.
  change (post_likes (set_likes post (fst (toggle_like now uid likes))))
    with (fst (toggle_like now uid likes)) in *.
  change (set_likes (set_likes post (fst (toggle_like now uid likes)))
            (fst (toggle_like now' uid (fst (toggle_like now uid likes)))))
    with (set_likes post (fst (toggle_like now' uid (fst (toggle_like now uid likes))))) in *.
  exists (fst (toggle_like now uid likes)), (snd (toggle_like now uid likes)), db1,
    (fst (toggle_like now' uid (fst (toggle_like now uid likes)))),
    (snd (toggle_like now' uid (fst (toggle_like now uid likes)))), db2.
  split; [exact Hcall1|]. split; [exact Hlook1|].
  destruct (toggle_like_spec now uid likes Hnd) as (H1 & H2 & H3 & H4 & H5).
  pose proof (toggle_like_twice now now' uid likes Hnd) as H6.
  split; [exact H1|]. split; [exact H2|]. split; [exact H3|].
  split; [exact H4|]. split; [exact H5|].
  split; [exact Hcall2|]. split; [exact Hlook2|exact H6].
Qed.

Lemma likePost_involution_witness :
  exists likes1 db1 likes2 db2,
    likePost {| posts := two_posts; write_calls := 2 |} 30 "hello-world" bob
    = Some (Liked 200 (List.length likes1) true, db1)
    /\ In (user_id bob) (likers likes1)
    /\ likePost db1 40 "hello-world" bob
       = Some (Liked 200 (List.length likes2) false, db2)
    /\ (forall v, In v (likers likes2) <-> In v []).
Proof.
  destruct (likePost_involution {| posts := two_posts; write_calls := 2 |} 30 40
              "hello-world" bob (hello_post id1 "hello-world"))
    as (likes1 & isLiked1 & db1 & likes2 & isLiked2 & db2 & Hcall1 & _ & _ & Hadd & _ & _
        & Hflag & Hcall2 & _ & Hback).
  - split; simpl; repeat constructor; simpl; intuition discriminate.
  - reflexivity.
  - constructor.
  - exists likes1, db1, likes2, db2.
    assert (Hin : In (user_id bob) (likers likes1))
      by (rewrite (Hadd (fun H => H)); simpl; left; reflexivity).
    assert (H1 : isLiked1 = true) by (apply Hflag, Hin).
    assert (H2 : isLiked2 = false).
    { destruct isLiked2; [|reflexivity]. exfalso.
      vm_compute in Hcall1. injection Hcall1 as _ _ <-.
      vm_compute in Hcall2. discriminate. }
    subst. repeat split; auto; apply Hback.
Defined.

(** ** Reading time (claim C5) *)

Lemma split_go_pieces (s : string) (in_run : bool) (acc : string) :
  (acc <> "" \/ in_run = true
   \/ match first_char s with Some c => is_space c = false | None => False end) ->
  match last_char s with Some c => is_space c = false | None => acc <> "" end ->
  List.Forall (fun w => falsy w = false) (split_go in_run acc s).
Proof.
  revert in_run acc. induction s as [|c r IH]; intros in_run acc Hfirst Hlast.
  - simpl in *. constructor; [|constructor]. destruct acc; [contradiction|reflexivity].
  - assert (Hr : forall acc', acc' <> "" ->
              match last_char r with Some c' => is_space c' = false | None => acc' <> "" end).
    { intros acc' Hacc'. destruct r as [|b t]; [exact Hacc'|].
      change (last_char (String c (String b t))) with (last_char (String b t)) in Hlast.
      destruct (last_char (String b t)); [exact Hlast|exact Hacc']. }
    simpl split_go. destruct (is_space c) eqn:Hc.
    + assert (Hr' : forall acc', match last_char r with
                                 | Some c' => is_space c' = false
                                 | None => acc' <> "" end).
      { intros acc'. destruct r as [|b t]; [simpl in Hlast; congruence|].
        change (last_char (String c (String b t))) with (last_char (String b t)) in Hlast.
        destruct (last_char (String b t)) eqn:Hl; [exact Hlast|].
        exfalso. clear -Hl. revert b Hl.
        induction t as [|d t IHt]; intros b Hl; [discriminate|]. apply (IHt d), Hl. }
      destruct in_run.
      * apply IH; [right; left; reflexivity|apply Hr'].
      * constructor.
        -- destruct acc; [|reflexivity]. simpl in Hfirst.
           destruct Hfirst as [H|[H|H]]; congruence.
        -- apply IH; [right; left; reflexivity|apply Hr'].
    + assert (Hne : acc +:+ String c "" <> "") by (destruct acc; discriminate).
      apply IH; [left; exact Hne|apply Hr, Hne].
Qed.

Lemma filter_all {A : Type} (f : A -> bool) (l : list A) :
  List.Forall (fun x => f x = true) l -> List.filter f l = l.
Proof.
  induction 1 as [|x l Hx _ IH]; simpl; [reflexivity|]. rewrite Hx, IH. reflexivity.
Qed.

(** In a non-empty text without whitespace at either end every piece of
    the split is a token. *)
Lemma trimmed_pieces_are_tokens (text : string) :
  trim text = text -> text <> "" ->
  wordCount text = N.of_nat (List.length (tokens text)).
Proof.
  intros Htrim Hne. unfold wordCount, tokens. f_equal. f_equal. symmetry.
  apply filter_all. unfold split_ws.
  assert (Hpieces : List.Forall (fun w => falsy w = false) (split_go false "" text)).
  { apply split_go_pieces.
    - right. right.
      pose proof (drop_trailing_head is_space (drop_leading is_space text)
                    (drop_leading_head is_space text)) as H.
      fold (trim text) in H. rewrite Htrim in H.
      destruct text; [contradiction|exact H].
    - pose proof (drop_trailing_last is_space (drop_leading is_space text)) as H.
      fold (trim text) in H. rewrite Htrim in H.
      destruct (last_char text) eqn:Hl; [exact H|].
      exfalso. destruct text as [|a t]; [contradiction|].
      clear -Hl. revert a Hl.
      induction t as [|d t IH]; intros a Hl; [discriminate|]. apply (IH d), Hl. }
  eapply Forall_impl; [|exact Hpieces]. intros w Hw. simpl. rewrite Hw. reflexivity.
Qed.

Lemma split_go_length (s : string) (in_run : bool) (acc : string) :
  (1 <= List.length (split_go in_run acc s))%nat.
Proof.
  revert in_run acc. induction s as [|c r IH]; intros in_run acc; simpl; [lia|].
  destruct (is_space c); [destruct in_run; simpl; [apply IH|lia]|apply IH].
Qed.

Lemma ceil_div_200_pos (n : N) : 1 <= n -> 1 <= ceil_div n 200.
Proof.
  intros Hn. unfold ceil_div. apply N.div_le_lower_bound; lia.
Qed.

Lemma hook_slug_content (fuel : nat) (store : list Post) (isNew : bool) (m : Modified)
    (this this1 : Post) :
  hook_slug fuel store isNew m this = Some this1 ->
  post_content this1 = post_content this /\ post_readingTime this1 = post_readingTime this.
Proof.
  unfold hook_slug.
  destruct ((mod_title m && falsy (post_slug this)) || (isNew && falsy (post_slug this))).
  - destruct (slug_loop _ _ _ _ _ _); [|discriminate]. intros [= <-]. split; reflexivity.
  - intros [= <-]. split; reflexivity.
Qed.

Lemma hook_publishedAt_content (now : Date) (m : Modified) (this : Post) :
  post_content (hook_publishedAt now m this) = post_content this
  /\ post_readingTime (hook_publishedAt now m this) = post_readingTime this.
Proof. unfold hook_publishedAt. destruct (_ && _ && _); split; reflexivity. Qed.

(** What a save does to [content] and [readingTime]. *)
Lemma pre_save_readingTime (fuel : nat) (store : list Post) (now : Date) (isNew : bool)
    (m : Modified) (this this' : Post) :
  pre_save fuel store now isNew m this = Some this' ->
  post_content this' = post_content this
  /\ post_readingTime this' =
     if mod_content m then ceil_div (wordCount (post_content this)) 200
     else post_readingTime this.
Proof.
  unfold pre_save. destruct (hook_slug fuel store isNew m this) as [this1|] eqn:H1;
    [|discriminate].
  intros [= <-]. destruct (hook_slug_content _ _ _ _ _ _ H1) as [Hc Hr].
  destruct (hook_publishedAt_content now m this1) as [Hc' Hr'].
  unfold hook_readingTime. destruct (mod_content m); simpl; split; congruence.
Qed.

Lemma validatePostCreation_inr (b b' : Body) :
  validatePostCreation b = inr b' ->
  b' = with_title_content b (Some (trim (default "" (body_title b))))
         (Some (trim (default "" (body_content b))))
  /\ length_between 1 200 (trim (default "" (body_title b))) = true
  /\ (1 <=? String.length (trim (default "" (body_content b))))%nat = true.
Proof.
  unfold validatePostCreation.
  destruct (length_between 1 200 (trim (default "" (body_title b)))) eqn:Ht;
    [|discriminate].
  destruct (1 <=? String.length (trim (default "" (body_content b))))%nat eqn:Hc;
    [|discriminate].
  cbn [List.app]. intros [= <-]. repeat split; reflexivity.
Qed.

(** C5, the code against the claim: the hook counts the pieces of the raw
    content, markup included. A content of 200 words behind the tag
    ["<br />"] has 200 tokens once the tags are stripped, which makes one
    minute by the formula of the claim (that of [calculateReadingTime]),
    but the post is stored with a reading time of 2. *)
Lemma readingTime_counts_markup :
  trim tagged_200_words = tagged_200_words
  /\ List.length (tokens (strip_tags tagged_200_words)) = 200%nat
  /\ calculateReadingTime tagged_200_words = 1
  /\ exists p db,
       createPost empty_db 10 id1 alice (body_of "Hello, World!" tagged_200_words)
       = Some (Success 201 p, db)
       /\ post_content p = tagged_200_words
       /\ post_readingTime p = 2
       /\ post_readingTime p
          <> ceil_div (N.of_nat (List.length (tokens (strip_tags (post_content p))))) 200
       /\ post_readingTime p <> calculateReadingTime (post_content p).
Proof.
  split; [vm_compute; reflexivity|]. split; [vm_compute; reflexivity|].
  split; [vm_compute; reflexivity|].
  do 2 eexists. split; [vm_compute; reflexivity|].
  split; [reflexivity|]. split; [reflexivity|].
  split; vm_compute; discriminate.
Qed.

(** C5 as the code has it: a save that finds the content modified (every
    creation does) returns and sets [readingTime] to [ceil(wordCount/200)]
    where [wordCount] is the number of pieces of the raw content split at
    its whitespace runs, markup tags not stripped; this is at least 1;
    saving again changes nothing. For a created post the content is
    trimmed and non-empty, so [wordCount] is the number of its
    whitespace-delimited tokens. *)
Theorem readingTime_recomputed :
  (forall store now isNew m this,
     mod_content m = true ->
     exists this',
       pre_save (loop_budget store) store now isNew m this = Some this'
       /\ post_content this' = post_content this
       /\ post_readingTime this' = ceil_div (wordCount (post_content this)) 200
       /\ 1 <= post_readingTime this'
       /\ forall store2 now2 isNew2 m2,
            exists this'',
              pre_save (loop_budget store2) store2 now2 isNew2 m2 this' = Some this''
              /\ post_readingTime this'' = post_readingTime this')
  /\ (forall db now new_id user b,
        exists r db',
          createPost db now new_id user b = Some (r, db')
          /\ forall p, r = Success 201 p ->
               post_readingTime p
               = ceil_div (N.of_nat (List.length (tokens (post_content p)))) 200
               /\ 1 <= post_readingTime p).
Proof.
  assert (Hpos : forall c, 1 <= ceil_div (wordCount c) 200).
  { intros c. apply ceil_div_200_pos. unfold wordCount, split_ws.
    pose proof (split_go_length c false ""). lia. }
  split.
  - intros store now isNew m this Hm.
    destruct (pre_save_returns store now isNew m this) as [this' Hsave].
    destruct (pre_save_readingTime _ _ _ _ _ _ _ Hsave) as [Hc Hr]. rewrite Hm in Hr.
    exists this'. split; [exact Hsave|]. split; [exact Hc|]. split; [exact Hr|].
    split; [rewrite Hr; apply Hpos|].
    intros store2 now2 isNew2 m2.
    destruct (pre_save_returns store2 now2 isNew2 m2 this') as [this'' Hsave2].
    destruct (pre_save_readingTime _ _ _ _ _ _ _ Hsave2) as [_ Hr2].
    exists this''. split; [exact Hsave2|].
    rewrite Hr2. destruct (mod_content m2); [|reflexivity]. congruence.
  - intros db now new_id user b.
    unfold createPost.
    destruct (validatePostCreation b) as [errs|b'] eqn:Hval.
    { eexists _, _. split; [reflexivity|]. intros p [=]. }
    apply validatePostCreation_inr in Hval as (-> & _ & Hlen).
    set (content := trim (default "" (body_content b))) in *.
    unfold createPost_handler, Post_create_prepare.
    destruct (schema_errors _ _).
    2:{ eexists _, _. split; [reflexivity|]. intros p [=]. }
    destruct (pre_save_returns (posts db) now true
                (create_modified (with_title_content b
                   (Some (trim (default "" (body_title b)))) (Some content)))
                (new_document new_id (user_id user)
                   (with_title_content b
                      (Some (trim (default "" (body_title b)))) (Some content))))
      as [doc Hsave].
    rewrite Hsave.
    destruct (pre_save_readingTime _ _ _ _ _ _ _ Hsave) as [Hc Hr].
    cbn [create_modified with_title_content body_content isSome mod_content
         new_document post_content default from_option id] in Hc, Hr.
    unfold create_commit, insertOne. destruct (existsb _ (posts db)).
    { eexists _, _. split; [reflexivity|]. intros p [=]. }
    eexists _, _. split; [reflexivity|]. intros p [= <-].
    rewrite Hr, Hc. split; [|apply Hpos].
    f_equal. apply trimmed_pieces_are_tokens; [apply trim_idem|].
    intros Hempty. fold content in Hempty. rewrite Hempty in Hlen. discriminate.
Qed.

Lemma readingTime_recomputed_witness :
  exists this',
    pre_save (loop_budget two_posts) two_posts 30 true
      {| mod_title := true; mod_status := false; mod_content := true |}
      (hello_post id3 "") = Some this'
    /\ post_readingTime this' = 1.
Proof.
  destruct readingTime_recomputed as [Hsave _].
  destruct (Hsave two_posts 30 true
              {| mod_title := true; mod_status := false; mod_content := true |}
              (hello_post id3 "") eq_refl) as (this' & H1 & _ & H2 & _).
  exists this'. split; [exact H1|]. rewrite H2. reflexivity.
Defined.

(** ** A duplicate slug at commit time (claim C6) *)

(** C6, the code against the claim: two creations with one title both
    run the hook against the empty collection and both get the slug
    ["hello-world"]; the first write is stored, the second is rejected by
    the unique index and answered with the 500 "Server error" of any
    storage error, after one write command and without a second try. A
    request that brings the taken slug in its body is answered the same. *)
Lemma duplicate_slug_is_server_error :
  exists doc1 doc2 db1 db2,
    Post_create_prepare (loop_budget []) [] 10 id1 (user_id alice) hello_body
    = Some (inr doc1)
    /\ Post_create_prepare (loop_budget []) [] 20 id2 (user_id bob) hello_body
       = Some (inr doc2)
    /\ post_slug doc1 = "hello-world" /\ post_slug doc2 = "hello-world"
    /\ create_commit empty_db doc1 = (Success 201 doc1, db1)
    /\ create_commit db1 doc2 = (Failure 500 "Server error" [], db2)
    /\ create_commit db1 doc2 = (create_response (inl (MongoServerError 0)), db2)
    /\ posts db2 = [doc1]
    /\ write_calls db2 = 2%nat
    /\ createPost db1 20 id2 bob
         {| body_title := Some "Another title"; body_slug := Some "hello-world";
            body_content := Some "some text"; body_author := None;
            body_status := None; body_publishedAt := None; body_readingTime := None |}
       = Some (Failure 500 "Server error" [], db2).
Proof.
  do 4 eexists. split; [vm_compute; reflexivity|]. split; [vm_compute; reflexivity|].
  split; [reflexivity|]. split; [reflexivity|]. split; [vm_compute; reflexivity|].
  split; [vm_compute; reflexivity|]. repeat split; vm_compute; reflexivity.
Qed.

Lemma insertOne_taken (db : Db) (doc : Post) :
  In (post_slug doc) (slugs (posts db)) \/ In (post_id doc) (ids (posts db)) ->
  insertOne db doc
  = (inl (MongoServerError 11000),
     {| posts := posts db; write_calls := S (write_calls db) |}).
Proof.
  intros Htaken. unfold insertOne.
  assert (Hex : existsb (fun p => String.eqb (post_id p) (post_id doc)
                                  || String.eqb (post_slug p) (post_slug doc)) (posts db)
                = true).
  { apply existsb_exists.
    destruct Htaken as [Hin|Hin]; apply in_map_iff in Hin as (p & Heq & Hp);
      exists p; (split; [exact Hp|]); rewrite Heq, String.eqb_refl;
      [apply orb_true_r|reflexivity]. }
  rewrite Hex. reflexivity.
Qed.

Lemma insertOne_free (db : Db) (doc : Post) :
  ~ In (post_slug doc) (slugs (posts db)) -> ~ In (post_id doc) (ids (posts db)) ->
  insertOne db doc
  = (inr doc, {| posts := List.app (posts db) [doc]; write_calls := S (write_calls db) |}).
Proof.
  intros Hslug Hid. unfold insertOne.
  destruct (existsb _ (posts db)) eqn:Hex; [exfalso|reflexivity].
  apply existsb_exists in Hex as (p & Hp & Heq).
  apply orb_true_iff in Heq as [Heq|Heq]; apply String.eqb_eq in Heq;
    [apply Hid|apply Hslug]; rewrite <- Heq; apply in_map, Hp.
Qed.

(** For a document that is not stored, the loop does not depend on the
    [_id] of the document. *)
Lemma slug_loop_fresh (fuel : nat) (store : list Post) (id id' : ObjectId)
    (base slug : string) (counter : N) :
  ~ In id (ids store) -> ~ In id' (ids store) ->
  slug_loop fuel store id base slug counter = slug_loop fuel store id' base slug counter.
Proof.
  intros Hid Hid'. revert slug counter.
  induction fuel as [|fuel IH]; intros slug counter; [reflexivity|].
  cbn [slug_loop]. destruct (findOne_slug store slug) as [p|] eqn:Hfind; [|reflexivity].
  apply findOne_slug_Some in Hfind as [Hp _].
  assert (H1 : String.eqb (post_id p) id = false).
  { apply String.eqb_neq. intros Heq. apply Hid. rewrite <- Heq. apply in_map, Hp. }
  assert (H2 : String.eqb (post_id p) id' = false).
  { apply String.eqb_neq. intros Heq. apply Hid'. rewrite <- Heq. apply in_map, Hp. }
  rewrite H1, H2. apply IH.
Qed.

Lemma hook_tail_slug (now : Date) (m : Modified) (this : Post) :
  post_slug (hook_readingTime m (hook_publishedAt now m this)) = post_slug this.
Proof.
  unfold hook_readingTime, hook_publishedAt.
  destruct (mod_content m), (mod_status m && Status_eqb (post_status this) published
                             && negb (isSome (post_publishedAt this))); reflexivity.
Qed.

(** Two creations with one title and one slug parameter, prepared
    against the same collection, end with the same slug. *)
Lemma prepare_same_slug (store : list Post) (fuel : nat) (now1 now2 : Date)
    (id1 id2 author1 author2 : ObjectId) (b1 b2 : Body) (doc1 doc2 : Post) :
  ~ In id1 (ids store) -> ~ In id2 (ids store) ->
  body_title b2 = body_title b1 -> body_slug b2 = body_slug b1 ->
  Post_create_prepare fuel store now1 id1 author1 b1 = Some (inr doc1) ->
  Post_create_prepare fuel store now2 id2 author2 b2 = Some (inr doc2) ->
  post_slug doc2 = post_slug doc1.
Proof.
  intros Hid1 Hid2 Htitle Hslug. unfold Post_create_prepare.
  cbn [new_document post_title post_content].
  destruct (schema_errors _ (default "" (body_content b1))); [|discriminate].
  destruct (schema_errors _ (default "" (body_content b2))); [|discriminate].
  unfold pre_save, hook_slug, create_modified.
  cbn [new_document post_title post_slug post_id mod_title].
  rewrite Htitle, Hslug.
  destruct ((isSome (body_title b1) && falsy (slug_setter (default "" (body_slug b1))))
            || (true && falsy (slug_setter (default "" (body_slug b1))))).
  - rewrite (slug_loop_fresh fuel store id1 id2 _ _ _ Hid1 Hid2).
    destruct (slug_loop fuel store id2 _ _ _) as [slug|]; [|discriminate].
    intros [= <-] [= <-]. rewrite !hook_tail_slug. reflexivity.
  - intros [= <-] [= <-]. rewrite !hook_tail_slug.
    cbn [new_document post_slug]. rewrite Hslug. reflexivity.
Qed.

(** A creation whose body brings a slug keeps it: the hook leaves a
    document with a slug alone. *)
Lemma prepare_body_slug (store : list Post) (fuel : nat) (now : Date)
    (new_id author_id : ObjectId) (b : Body) (slug : string) :
  schema_errors (title_setter (default "" (body_title b))) (default "" (body_content b)) = [] ->
  body_slug b = Some slug -> slug_setter slug <> "" ->
  exists doc,
    Post_create_prepare fuel store now new_id author_id b = Some (inr doc)
    /\ post_slug doc = slug_setter slug.
Proof.
  intros Hschema Hslug Hne. unfold Post_create_prepare.
  cbn [new_document post_title post_content]. rewrite Hschema.
  unfold pre_save, hook_slug. cbn [new_document post_slug]. rewrite Hslug.
  change (default "" (Some slug)) with slug.
  assert (Hf : falsy (slug_setter slug) = false) by (apply String.eqb_neq, Hne).
  rewrite Hf, !andb_false_r. cbn [orb].
  eexists. split; [reflexivity|]. rewrite hook_tail_slug.
  cbn [new_document post_slug]. rewrite Hslug. reflexivity.
Qed.

(** C6 as the code has it: the write of a creation is issued exactly
    once and is decided by the unique indexes: a document whose slug (or
    [_id]) is stored already is answered 500 "Server error", the answer
    to every error that is not a Mongoose validation error, and the
    collection stays as it was; any other document is stored and
    answered 201. So of two creations with one title (and no slug, or one
    slug, in their bodies) that ran the hook against the same
    collection, the second to write is answered 500, and so is a request
    whose body brings the slug of a stored post. A
    creation request as a whole returns after at most one write command,
    with the post stored and answered 201, or with the collection
    unchanged and the answer 400 "Validation failed" or 500 "Server
    error". *)
Theorem create_single_write (db : Db) :
  (forall doc,
     (In (post_slug doc) (slugs (posts db)) \/ In (post_id doc) (ids (posts db)) ->
      create_commit db doc
      = (Failure 500 "Server error" [],
         {| posts := posts db; write_calls := S (write_calls db) |}))
     /\ (~ In (post_slug doc) (slugs (posts db)) -> ~ In (post_id doc) (ids (posts db)) ->
         create_commit db doc
         = (Success 201 doc,
            {| posts := List.app (posts db) [doc]; write_calls := S (write_calls db) |})))
  /\ (forall now1 now2 id1 id2 user1 user2 b1 b2 doc1 doc2 db1,
        ~ In id1 (ids (posts db)) -> ~ In id2 (ids (posts db)) ->
        body_title b2 = body_title b1 -> body_slug b2 = body_slug b1 ->
        Post_create_prepare (loop_budget (posts db)) (posts db) now1 id1 (user_id user1) b1
        = Some (inr doc1) ->
        Post_create_prepare (loop_budget (posts db)) (posts db) now2 id2 (user_id user2) b2
        = Some (inr doc2) ->
        create_commit db doc1 = (Success 201 doc1, db1) ->
        create_commit db1 doc2
        = (Failure 500 "Server error" [],
           {| posts := List.app (posts db) [doc1];
              write_calls := S (S (write_calls db)) |}))
  /\ (forall now new_id user b b' slug,
        validatePostCreation b = inr b' ->
        body_slug b = Some slug -> slug_setter slug <> "" ->
        In (slug_setter slug) (slugs (posts db)) ->
        createPost db now new_id user b
        = Some (Failure 500 "Server error" [],
                {| posts := posts db; write_calls := S (write_calls db) |}))
  /\ (forall code, create_response (inl (MongoServerError code))
                   = Failure 500 "Server error" [])
  /\ (forall now new_id user b, exists r db',
        createPost db now new_id user b = Some (r, db')
        /\ (write_calls db' <= S (write_calls db))%nat
        /\ ((exists p, r = Success 201 p /\ posts db' = List.app (posts db) [p])
            \/ (exists details, r = Failure 400 "Validation failed" details /\ db' = db)
            \/ (r = Failure 500 "Server error" [] /\ posts db' = posts db
                /\ write_calls db' = S (write_calls db)))).
Proof.
  assert (Htaken : forall db0 doc,
            In (post_slug doc) (slugs (posts db0)) \/ In (post_id doc) (ids (posts db0)) ->
            create_commit db0 doc
            = (Failure 500 "Server error" [],
               {| posts := posts db0; write_calls := S (write_calls db0) |})).
  { intros db0 doc H. unfold create_commit. rewrite (insertOne_taken db0 doc H). reflexivity. }
  assert (Hcommit : forall doc, exists r db',
     create_commit db doc = (r, db')
     /\ write_calls db' = S (write_calls db)
     /\ ((r = Success 201 doc /\ posts db' = List.app (posts db) [doc])
         \/ (r = Failure 500 "Server error" [] /\ posts db' = posts db))).
  { intros doc. unfold create_commit, insertOne.
    destruct (existsb _ (posts db)); eexists _, _; (split; [reflexivity|]);
      (split; [reflexivity|]); [right|left]; split; reflexivity. }
  split.
  { intros doc. split; [apply Htaken|].
    intros Hslug Hid. unfold create_commit. rewrite (insertOne_free db doc Hslug Hid).
    reflexivity. }
  split.
  { intros now1 now2 id1 id2 user1 user2 b1 b2 doc1 doc2 db1 Hid1 Hid2 Htitle Hslug
      Hp1 Hp2 Hfirst.
    pose proof (prepare_same_slug _ _ _ _ _ _ _ _ _ _ _ _ Hid1 Hid2 Htitle Hslug Hp1 Hp2)
      as Hsame.
    assert (Hdb1 : db1 = {| posts := List.app (posts db) [doc1];
                            write_calls := S (write_calls db) |}).
    { revert Hfirst. unfold create_commit, insertOne.
      destruct (existsb _ (posts db)); [discriminate|]. intros [= <-]. reflexivity. }
    subst db1.
    rewrite (Htaken _ doc2); [reflexivity|].
    left. cbn [posts]. unfold slugs. rewrite map_app, Hsame. apply in_or_app.
    right. left. reflexivity. }
  split.
  { intros now new_id user b b' slug Hval Hslug Hne Hin.
    unfold createPost. rewrite Hval.
    apply validatePostCreation_inr in Hval as (-> & Htitle & Hcontent).
    unfold createPost_handler.
    destruct (prepare_body_slug (posts db) (loop_budget (posts db)) now new_id
                (user_id user)
                (with_title_content b (Some (trim (default "" (body_title b))))
                   (Some (trim (default "" (body_content b))))) slug)
      as (doc & -> & Hdoc); [|exact Hslug|exact Hne|].
    - cbn [with_title_content body_title body_content].
      change (default "" (Some ?x)) with x.
      unfold schema_errors, title_errors, content_errors, title_setter.
      rewrite trim_idem.
      unfold length_between in Htitle. apply andb_true_iff in Htitle as [H1 H2].
      rewrite !falsy_length, H1, Hcontent. cbn [negb].
      apply Nat.leb_le in H2.
      destruct (Nat.ltb_spec 200 (String.length (trim (default "" (body_title b)))));
        [lia|reflexivity].
    - f_equal. apply Htaken. left. rewrite Hdoc. exact Hin. }
  split; [reflexivity|].
  intros now new_id user b. unfold createPost.
  destruct (validatePostCreation b) as [errs|b'].
  { eexists _, _. split; [reflexivity|]. split; [lia|]. right. left. eauto. }
  unfold createPost_handler, Post_create_prepare.
  destruct (schema_errors _ _) as [|e errs].
  - destruct (pre_save_returns (posts db) now true (create_modified b')
                (new_document new_id (user_id user) b')) as [doc ->].
    destruct (Hcommit doc) as (r & db' & -> & Hw & [[-> Hp]|[-> Hp]]);
      eexists _, _; (split; [reflexivity|]); (split; [lia|]).
    + left. eauto.
    + right. right. auto.
  - eexists _, _. split; [reflexivity|]. split; [lia|]. right. left. eauto.
Qed.

Lemma create_single_write_witness :
  create_commit {| posts := two_posts; write_calls := 2 |} (hello_post id3 "hello-world")
  = (Failure 500 "Server error" [], {| posts := two_posts; write_calls := 3 |})
  /\ (exists doc1 doc2 db1,
        Post_create_prepare (loop_budget []) [] 10 id1 (user_id alice) hello_body
        = Some (inr doc1)
        /\ Post_create_prepare (loop_budget []) [] 20 id2 (user_id bob)
             (body_of "Hello, World!" "another text") = Some (inr doc2)
        /\ create_commit empty_db doc1 = (Success 201 doc1, db1)
        /\ create_commit db1 doc2
           = (Failure 500 "Server error" [], {| posts := [doc1]; write_calls := 2 |}))
  /\ createPost {| posts := two_posts; write_calls := 2 |} 30 id3 bob
       {| body_title := Some "Another title"; body_slug := Some " Hello-World ";
          body_content := Some "some text"; body_author := None;
          body_status := None; body_publishedAt := None; body_readingTime := None |}
     = Some (Failure 500 "Server error" [], {| posts := two_posts; write_calls := 3 |}).
Proof.
  destruct (create_single_write {| posts := two_posts; write_calls := 2 |})
    as (Hcommit & _ & Hbody & _).
  split; [|split].
  - apply (Hcommit (hello_post id3 "hello-world")). left. simpl. left. reflexivity.
  - destruct (create_single_write empty_db) as (_ & Hrace & _).
    eexists _, _, _. split; [vm_compute; reflexivity|].
    split; [vm_compute; reflexivity|]. split; [vm_compute; reflexivity|].
    eapply (Hrace 10 20 id1 id2 alice bob hello_body
              (body_of "Hello, World!" "another text"));
      [simpl; tauto|simpl; tauto|reflexivity|reflexivity
      |vm_compute; reflexivity|vm_compute; reflexivity|vm_compute; reflexivity].
  - eapply Hbody; [reflexivity|reflexivity|discriminate|simpl; left; reflexivity].
Defined.

(** * Properties of the rest of the code *)

(** ** Trimming, once more *)

Lemma drop_leading_length (cls : ascii -> bool) (s : string) :
  (String.length (drop_leading cls s) <= String.length s)%nat.
Proof.
  induction s as [|c r IH]; simpl; [lia|]. destruct (cls c); simpl; lia.
Qed.

Lemma drop_trailing_length (cls : ascii -> bool) (s : string) :
  (String.length (drop_trailing cls s) <= String.length s)%nat.
Proof.
  induction s as [|c r IH]; simpl; [lia|].
  destruct (drop_trailing cls r) as [|b t].
  - destruct (cls c); simpl; lia.
  - simpl in *. lia.
Qed.

Lemma trim_length (s : string) : (String.length (trim s) <= String.length s)%nat.
Proof.
  unfold trim.
  pose proof (drop_trailing_length is_space (drop_leading is_space s)).
  pose proof (drop_leading_length is_space s). lia.
Qed.

Lemma drop_trailing_fixed (cls : ascii -> bool) (s : string) :
  match last_char s with Some c => cls c = false | None => True end ->
  drop_trailing cls s = s.
Proof.
  induction s as [|c r IH]; [reflexivity|].
  destruct r as [|b t].
  - simpl. intros ->. reflexivity.
  - intros H. change (last_char (String c (String b t))) with (last_char (String b t)) in H.
    change (drop_trailing cls (String c (String b t)))
      with (match drop_trailing cls (String b t) with
            | EmptyString => if cls c then EmptyString else String c EmptyString
            | r' => String c r'
            end).
    rewrite (IH H). reflexivity.
Qed.

Lemma all_chars_first (p : ascii -> bool) (s : string) :
  all_chars p s = true ->
  match first_char s with Some c => p c = true | None => True end.
Proof. destruct s; simpl; [trivial|]. intros H. apply andb_true_iff in H. tauto. Qed.

Lemma all_chars_last (p : ascii -> bool) (s : string) :
  all_chars p s = true ->
  match last_char s with Some c => p c = true | None => True end.
Proof.
  induction s as [|c r IH]; [intros _; exact I|]. intros H.
  change (all_chars p (String c r)) with (p c && all_chars p r) in H.
  apply andb_true_iff in H as [Hc Hr].
  destruct r as [|b t]; [exact Hc|]. exact (IH Hr).
Qed.

(** A text without whitespace is its own trimming. *)
Lemma trim_no_space (s : string) :
  all_chars (fun c => negb (is_space c)) s = true -> trim s = s.
Proof.
  intros Hs. unfold trim.
  rewrite (drop_leading_first is_space s).
  - apply drop_trailing_fixed. pose proof (all_chars_last _ _ Hs) as H.
    destruct (last_char s); [|exact I]. apply negb_true_iff, H.
  - pose proof (all_chars_first _ _ Hs) as H.
    destruct (first_char s); [|exact I]. apply negb_true_iff, H.
Qed.

Lemma word_not_space (c : ascii) : is_word c = true -> negb (is_space c) = true.
Proof. ascii_cases c; vm_compute; intros; try discriminate; reflexivity. Qed.

(** ** Client-side and server-side rules *)

Lemma ahead_any (cls : N -> bool) (s : list N) :
  ahead cls s = true -> existsb cls s = true.
Proof.
  induction s as [|c r IH]; simpl; [discriminate|].
  destruct (is_line_terminator c); [discriminate|].
  rewrite !orb_true_iff. intros [H|H]; [left; exact H|right; apply IH, H].
Qed.

Lemma ahead_somewhere_any (cls : N -> bool) (s : list N) :
  (forall c, cls c = true -> is_line_terminator c = false) ->
  ahead_somewhere cls s = existsb cls s.
Proof.
  intros Hcls. induction s as [|c r IH]; [reflexivity|].
  cbn [ahead_somewhere existsb ahead]. rewrite IH.
  destruct (cls c) eqn:Hc.
  - rewrite (Hcls c Hc). reflexivity.
  - destruct (is_line_terminator c); simpl; [reflexivity|].
    destruct (existsb cls r) eqn:Hr; [apply orb_true_r|].
    rewrite orb_false_r. destruct (ahead cls r) eqn:Ha; [|reflexivity].
    apply ahead_any in Ha. congruence.
Qed.

Lemma ahead_one_line (cls : N -> bool) (s : list N) :
  existsb is_line_terminator s = false -> ahead cls s = existsb cls s.
Proof.
  induction s as [|c r IH]; simpl; [reflexivity|].
  rewrite orb_false_iff. intros [-> Hr]. rewrite (IH Hr). reflexivity.
Qed.

Lemma lower_not_terminator (u : N) : unit_lower u = true -> is_line_terminator u = false.
Proof.
  unfold unit_lower, is_line_terminator. rewrite andb_true_iff, !N.leb_le.
  intros [H1 H2]. rewrite !orb_false_iff, !N.eqb_neq. lia.
Qed.
Lemma upper_not_terminator (u : N) : unit_upper u = true -> is_line_terminator u = false.
Proof.
  unfold unit_upper, is_line_terminator. rewrite andb_true_iff, !N.leb_le.
  intros [H1 H2]. rewrite !orb_false_iff, !N.eqb_neq. lia.
Qed.
Lemma digit_not_terminator (u : N) : unit_digit u = true -> is_line_terminator u = false.
Proof.
  unfold unit_digit, is_line_terminator. rewrite andb_true_iff, !N.leb_le.
  intros [H1 H2]. rewrite !orb_false_iff, !N.eqb_neq. lia.
Qed.

Lemma short_text (s : string) (n : nat) :
  (1 <= n)%nat ->
  falsy s || (String.length s <? n)%nat = negb (n <=? String.length s)%nat.
Proof.
  intros Hn. rewrite falsy_length.
  destruct (Nat.leb_spec 1 (String.length s)), (Nat.ltb_spec (String.length s) n),
    (Nat.leb_spec n (String.length s)); simpl; try reflexivity; lia.
Qed.

Lemma validatePassword_ok (p : list N) :
  validatePassword p = [] <->
  (6 <= List.length p)%nat
  /\ existsb unit_lower p = true /\ existsb unit_upper p = true
  /\ existsb unit_digit p = true.
Proof.
  unfold validatePassword.
  rewrite (ahead_somewhere_any unit_lower p lower_not_terminator),
    (ahead_somewhere_any unit_upper p upper_not_terminator),
    (ahead_somewhere_any unit_digit p digit_not_terminator).
  assert (Hshort : match p with [] => true | _ => false end || (List.length p <? 6)%nat
                   = negb (6 <=? List.length p)%nat).
  { destruct p as [|u r]; [reflexivity|]. cbn [orb].
    destruct (Nat.ltb_spec (List.length (u :: r)) 6),
      (Nat.leb_spec 6 (List.length (u :: r))); simpl; try reflexivity; lia. }
  rewrite Hshort.
  destruct (Nat.leb_spec 6 (List.length p)) as [H6|H6], (existsb unit_lower p),
    (existsb unit_upper p), (existsb unit_digit p); simpl; split; intros H;
    try discriminate; try (destruct H as (? & ? & ? & ?); try discriminate; lia);
    repeat split; auto.
Qed.

Lemma password_chain_ok (selectors : bool) (p : list N) :
  password_chain selectors p = [] <->
  (6 <= validator_length selectors p)%nat
  /\ ahead unit_lower p = true /\ ahead unit_upper p = true /\ ahead unit_digit p = true.
Proof.
  unfold password_chain.
  destruct (Nat.leb_spec 6 (validator_length selectors p)) as [H6|H6],
    (ahead unit_lower p), (ahead unit_upper p), (ahead unit_digit p);
    simpl; split; intros H;
    try discriminate; try (destruct H as (? & ? & ? & ?); try discriminate; lia);
    repeat split; auto.
Qed.

Lemma validator_length_le (selectors : bool) (p : list N) :
  (validator_length selectors p <= List.length p)%nat.
Proof. unfold validator_length. lia. Qed.

(** A text of code units below U+D800 without variation selectors, such
    as a text of ASCII or Latin-1 characters, is counted unit by unit. *)
Lemma validator_length_plain (selectors : bool) (p : list N) :
  List.Forall (fun u => u < 55296) p ->
  validator_length selectors p = List.length p.
Proof.
  intros Hp. unfold validator_length.
  assert (Hsel : List.filter is_variation_selector p = []).
  { induction Hp as [|u r Hu _ IH]; [reflexivity|]. simpl.
    replace (is_variation_selector u) with false; [exact IH|].
    symmetry. unfold is_variation_selector. rewrite orb_false_iff, !N.eqb_neq. lia. }
  assert (Hpairs : surrogate_pairs p = O).
  { clear Hsel. induction Hp as [|u r Hu Hr IH]; [reflexivity|].
    destruct r as [|v t]; [reflexivity|].
    change (surrogate_pairs (u :: v :: t))
      with (if is_high_surrogate u && is_low_surrogate v then S (surrogate_pairs t)
            else surrogate_pairs (v :: t)).
    replace (is_high_surrogate u) with false; [exact IH|].
    symmetry. unfold is_high_surrogate. apply andb_false_iff. left.
    apply N.leb_gt. exact Hu. }
  rewrite Hsel, Hpairs. destruct selectors; simpl; lia.
Qed.

(** X1: every password the registration rule of the server accepts is
    accepted by the client-side [validatePassword], whichever version of
    the validator library counts the length. The two agree on a password
    of one line that the library counts code unit by code unit, as it
    does every password without surrogates and variation selectors.
    They differ on a password whose letters and digits are spread over
    two lines, since the pattern of the server is anchored at the start
    and does not look past the first line, and on a password of seven
    code units that are five characters: the client accepts both and the
    server rejects both. *)
Theorem password_rules_compared (selectors : bool) (p : list N) :
  (password_chain selectors p = [] -> validatePassword p = [])
  /\ (existsb is_line_terminator p = false ->
      validator_length selectors p = List.length p ->
      validatePassword p = [] -> password_chain selectors p = [])
  /\ (List.Forall (fun u => u < 55296) p ->
      validator_length selectors p = List.length p)
  /\ (validatePassword two_line_password = []
      /\ password_chain selectors two_line_password <> [])
  /\ (validatePassword astral_password = []
      /\ existsb is_line_terminator astral_password = false
      /\ password_chain selectors astral_password <> []).
Proof.
  split; [|split; [|split; [|split]]].
  - rewrite password_chain_ok, validatePassword_ok.
    intros (H6 & Hl & Hu & Hd).
    pose proof (validator_length_le selectors p).
    split; [lia|]. repeat split; auto using ahead_any.
  - intros Hline Hcount. rewrite password_chain_ok, validatePassword_ok, Hcount.
    rewrite !(ahead_one_line _ p Hline). tauto.
  - apply validator_length_plain.
  - split; [reflexivity|]. destruct selectors; discriminate.
  - split; [reflexivity|]. split; [reflexivity|]. destruct selectors; discriminate.
Qed.

Lemma password_rules_compared_witness :
  validatePassword (units "Secret123") = []
  /\ password_chain true (units "Secret123") = [].
Proof.
  destruct (password_rules_compared true (units "Secret123")) as (Hsc & Hcs & Hplain & _).
  assert (H : password_chain true (units "Secret123") = []).
  { apply Hcs; [reflexivity| |reflexivity].
    apply Hplain. repeat constructor. }
  split; [apply Hsc, H|exact H].
Defined.

(** X2: a user name the client-side [validateUsername] accepts passes
    the user-name rule of the server unchanged; the server also accepts
    names the client rejects, since it trims first. *)
Theorem username_client_implies_server (u : string) :
  (validateUsername u = [] -> username_chain u = ([], u))
  /\ (validateUsername " bob " <> [] /\ username_chain " bob " = ([], "bob")).
Proof.
  split; [|split; [discriminate|reflexivity]].
  unfold validateUsername, username_chain.
  rewrite short_text by lia.
  destruct (Nat.leb_spec 3 (String.length u)) as [H3|H3]; [|discriminate].
  destruct (Nat.ltb_spec 20 (String.length u)) as [H20|H20]; [discriminate|].
  destruct (word_only u) eqn:Hw; [|discriminate]. intros _.
  assert (Htrim : trim u = u).
  { apply trim_no_space. unfold word_only in Hw. apply andb_true_iff in Hw as [_ Hw].
    apply (all_chars_impl is_word); [exact word_not_space|exact Hw]. }
  cbn zeta. rewrite Htrim, Hw. unfold length_between.
  replace (3 <=? String.length u)%nat with true by (symmetry; apply Nat.leb_le; lia).
  replace (String.length u <=? 20)%nat with true by (symmetry; apply Nat.leb_le; lia).
  reflexivity.
Qed.

Lemma username_client_implies_server_witness : username_chain "bob_42" = ([], "bob_42").
Proof.
  destruct (username_client_implies_server "bob_42") as [H _]. apply H. reflexivity.
Defined.

(** X3: a title and a content the client-side [validateTitle] and
    [validateContent] accept pass [validatePostCreation] of the server,
    which hands on the trimmed values; the server also accepts a title
    that is too long only by the blanks around it. *)
Theorem post_fields_client_implies_server (title content : string) :
  (validateTitle title = [] -> validateContent content = [] ->
   validatePostCreation (body_of title content)
   = inr (body_of (trim title) (trim content)))
  /\ (validateTitle (repeat_str " " 200 +:+ "t") <> []
      /\ validatePostCreation (body_of (repeat_str " " 200 +:+ "t") "c")
         = inr (body_of "t" "c")).
Proof.
  split; [|split; [vm_compute; discriminate|vm_compute; reflexivity]].
  unfold validateTitle, validateContent.
  destruct (falsy title || (String.length (trim title) =? 0)%nat) eqn:Ht; [discriminate|].
  destruct (negb (falsy title) && (200 <? String.length title)%nat) eqn:Hlen; [discriminate|].
  destruct (falsy content || (String.length (trim content) =? 0)%nat) eqn:Hc; [discriminate|].
  intros _ _.
  apply orb_false_iff in Ht as [Hft Ht]. apply Nat.eqb_neq in Ht.
  apply orb_false_iff in Hc as [_ Hc]. apply Nat.eqb_neq in Hc.
  rewrite Hft in Hlen. simpl in Hlen. apply Nat.ltb_ge in Hlen.
  pose proof (trim_length title) as Hle.
  unfold validatePostCreation, body_of.
  cbn -[trim length_between Nat.leb].
  unfold length_between.
  replace (1 <=? String.length (trim title))%nat with true by (symmetry; apply Nat.leb_le; lia).
  replace (String.length (trim title) <=? 200)%nat with true
    by (symmetry; apply Nat.leb_le; lia).
  replace (1 <=? String.length (trim content))%nat with true
    by (symmetry; apply Nat.leb_le; lia).
  reflexivity.
Qed.

Lemma post_fields_client_implies_server_witness :
  validatePostCreation (body_of " Hello " "text")
  = inr (body_of (trim " Hello ") (trim "text")).
Proof.
  destruct (post_fields_client_implies_server " Hello " "text") as [H _].
  apply H; reflexivity.
Defined.

(** ** [truncateText] *)

(** X4: [truncateText] returns a text of at most [maxLength] characters as
    it is, and otherwise a text of at most [maxLength + 3] characters
    that ends with the three dots. *)
Theorem truncateText_bound (text : string) (maxLength : nat) :
  (String.length (truncateText text maxLength) <= maxLength + 3)%nat
  /\ ((String.length text <= maxLength)%nat -> truncateText text maxLength = text)
  /\ ((maxLength < String.length text)%nat ->
      exists kept, truncateText text maxLength = kept +:+ "..."
                   /\ (String.length kept <= maxLength)%nat).
Proof.
  unfold truncateText.
  pose proof (trim_length (substring0 maxLength text)) as Htrim.
  pose proof (substring0_length maxLength text) as Hsub.
  destruct (falsy text) eqn:Hf; simpl.
  - destruct text; [|discriminate]. simpl.
    split; [lia|]. split; [reflexivity|]. intros H. lia.
  - destruct (String.length text <=? maxLength)%nat eqn:Hle.
    + apply Nat.leb_le in Hle. split; [lia|]. split; [reflexivity|]. intros H. lia.
    + apply Nat.leb_gt in Hle. rewrite app_length. simpl.
      split; [lia|]. split; [intros H; lia|].
      intros _. eexists. split; [reflexivity|lia].
Qed.

Lemma truncateText_bound_witness :
  truncateText "Hello, World!" 6 = "Hello," +:+ "...".
Proof.
  destruct (truncateText_bound "Hello, World!" 6) as (_ & _ & H).
  destruct H as (kept & Heq & _); [simpl; lia|]. reflexivity.
Defined.

(** ** [getFileExtension] *)

Lemma lastIndexOf_from_absent (x : ascii) (s : string) (i : Z) :
  includes_char x s = false -> lastIndexOf_from x s i = (-1)%Z.
Proof.
  revert i. induction s as [|c r IH]; intros i; simpl; [reflexivity|].
  rewrite orb_false_iff. intros [Hc Hr]. rewrite (IH _ Hr), Hc. reflexivity.
Qed.

Lemma lastIndexOf_from_last (x : ascii) (stem ext : string) (i : Z) :
  (0 <= i)%Z -> includes_char x ext = false ->
  lastIndexOf_from x (stem +:+ String x ext) i = (i + Z.of_nat (String.length stem))%Z.
Proof.
  revert i. induction stem as [|c r IH]; intros i Hi Hext.
  - change ("" +:+ String x ext) with (String x ext). simpl.
    rewrite (lastIndexOf_from_absent x ext _ Hext), Ascii.eqb_refl. simpl. lia.
  - change (String c r +:+ String x ext) with (String c (r +:+ String x ext)).
    cbn [lastIndexOf_from]. rewrite (IH (i + 1)%Z) by (lia || assumption).
    replace (0 <=? i + 1 + Z.of_nat (String.length r))%Z with true
      by (symmetry; apply Z.leb_le; lia).
    cbn [String.length]. lia.
Qed.

Lemma slice_from_app (stem ext : string) (x : ascii) :
  slice_from (S (String.length stem)) (stem +:+ String x ext) = ext.
Proof.
  induction stem as [|c r IH]; [reflexivity|].
  change (String c r +:+ String x ext) with (String c (r +:+ String x ext)).
  exact IH.
Qed.

(** X5: for a file name of fewer than 2^32 characters,
    [getFileExtension] yields the characters after the last dot; it
    yields the empty string when there is no dot and when the only dot is
    the first character (the unsigned shift turns the indices -2 and -1
    into numbers past the end of the name). *)
Theorem getFileExtension_spec :
  (forall filename,
     (Z.of_nat (String.length filename) < 2 ^ 32)%Z ->
     includes_char "." filename = false ->
     getFileExtension filename = "")
  /\ (forall stem ext,
        (Z.of_nat (String.length (stem +:+ String "." ext)) < 2 ^ 32)%Z ->
        includes_char "." ext = false ->
        getFileExtension (stem +:+ String "." ext) = if falsy stem then "" else ext).
Proof.
  split.
  - intros filename Hlen Hdot. unfold getFileExtension, lastIndexOf.
    rewrite (lastIndexOf_from_absent _ _ _ Hdot).
    change (to_uint32 (-1 - 1) + 2)%Z with (2 ^ 32)%Z. unfold slice.
    replace (Z.of_nat (String.length filename) <=? 2 ^ 32)%Z with true
      by (symmetry; apply Z.leb_le; lia).
    reflexivity.
  - intros stem ext Hlen Hdot. unfold getFileExtension, lastIndexOf.
    rewrite (lastIndexOf_from_last _ _ _ _ (Z.le_refl 0) Hdot).
    rewrite app_length in Hlen. cbn [String.length] in Hlen.
    destruct stem as [|c r].
    + change (to_uint32 (0 + Z.of_nat (String.length "") - 1) + 2)%Z with (2 ^ 32 + 1)%Z.
      unfold slice. rewrite app_length. cbn [String.length].
      replace (Z.of_nat (0 + S (String.length ext)) <=? 2 ^ 32 + 1)%Z with true
        by (symmetry; apply Z.leb_le; cbn [String.length] in Hlen; lia).
      reflexivity.
    + cbn [falsy String.eqb]. unfold to_uint32.
      rewrite Z.mod_small by (cbn [String.length] in *; lia).
      unfold slice. rewrite app_length.
      destruct (Z.leb_spec
                  (Z.of_nat (String.length (String c r) + String.length (String "." ext)))
                  (0 + Z.of_nat (String.length (String c r)) - 1 + 2)) as [Hend|Hin].
      * destruct ext; [reflexivity|]. cbn [String.length] in Hend. lia.
      * replace (Z.to_nat (0 + Z.of_nat (String.length (String c r)) - 1 + 2))
          with (S (String.length (String c r))) by lia.
        apply slice_from_app.
Qed.

Lemma getFileExtension_spec_witness :
  getFileExtension "README" = ""
  /\ getFileExtension "photo.tar.gz" = "gz"
  /\ getFileExtension ".bashrc" = "".
Proof.
  destruct getFileExtension_spec as [Hnone Hlast].
  split; [apply Hnone; [vm_compute; reflexivity|reflexivity]|].
  split.
  - apply (Hlast "photo.tar" "gz"); [vm_compute; reflexivity|reflexivity].
  - apply (Hlast "" "bashrc"); [vm_compute; reflexivity|reflexivity].
Defined.

(** ** The cache *)

Section CacheFacts.

Context {V : Type}.
Implicit Types (cache : Cache V) (item : CacheItem V).

Lemma map_get_set_eq (key : string) item cache :
  map_get key (map_set key item cache) = Some item.
Proof.
  induction cache as [|[k old] rest IH]; simpl; [rewrite String.eqb_refl; reflexivity|].
  destruct (String.eqb k key) eqn:Hk; simpl; rewrite Hk; [reflexivity|exact IH].
Qed.

Lemma map_get_set_ne (key k' : string) item cache :
  k' <> key -> map_get k' (map_set key item cache) = map_get k' cache.
Proof.
  intros Hne. induction cache as [|[k old] rest IH]; simpl.
  - apply String.eqb_neq in Hne. rewrite String.eqb_sym, Hne. reflexivity.
  - destruct (String.eqb k key) eqn:Hk; simpl.
    + apply String.eqb_eq in Hk. subst k.
      apply String.eqb_neq in Hne. rewrite String.eqb_sym, Hne. reflexivity.
    + rewrite IH. reflexivity.
Qed.

Lemma map_set_keys (key : string) item cache :
  getCacheKeys (map_set key item cache)
  = if existsb (String.eqb key) (getCacheKeys cache) then getCacheKeys cache
    else List.app (getCacheKeys cache) [key].
Proof.
  unfold getCacheKeys. induction cache as [|[k old] rest IH]; simpl; [reflexivity|].
  rewrite (String.eqb_sym key k).
  destruct (String.eqb k key) eqn:Hk; simpl; [reflexivity|].
  rewrite IH. destruct (existsb _ _); reflexivity.
Qed.

Lemma map_set_NoDup (key : string) item cache :
  List.NoDup (getCacheKeys cache) -> List.NoDup (getCacheKeys (map_set key item cache)).
Proof.
  intros Hnd. rewrite map_set_keys.
  destruct (existsb (String.eqb key) (getCacheKeys cache)) eqn:Hex; [exact Hnd|].
  apply NoDup_app; [exact Hnd|repeat constructor; simpl; tauto|].
  intros x Hx [<-|[]].
  assert (existsb (String.eqb key) (getCacheKeys cache) = true)
    by (apply existsb_exists; exists key; split; [exact Hx|apply String.eqb_refl]).
  congruence.
Qed.

Lemma map_get_None_keys (key : string) cache :
  ~ In key (getCacheKeys cache) -> map_get key cache = None.
Proof.
  unfold getCacheKeys. induction cache as [|[k old] rest IH]; simpl; [reflexivity|].
  intros Hnot. destruct (String.eqb k key) eqn:Hk.
  - apply String.eqb_eq in Hk. tauto.
  - apply IH. tauto.
Qed.

Lemma map_get_delete_eq (key : string) cache :
  List.NoDup (getCacheKeys cache) -> map_get key (map_delete key cache) = None.
Proof.
  unfold getCacheKeys. induction cache as [|[k old] rest IH]; simpl; [reflexivity|].
  intros Hnd. inversion Hnd as [|? ? Hk Hrest]; subst.
  destruct (String.eqb k key) eqn:Heq.
  - apply String.eqb_eq in Heq. subst k. apply map_get_None_keys, Hk.
  - simpl. rewrite Heq. apply IH, Hrest.
Qed.

Lemma map_get_delete_ne (key k' : string) cache :
  k' <> key -> map_get k' (map_delete key cache) = map_get k' cache.
Proof.
  intros Hne. induction cache as [|[k old] rest IH]; simpl; [reflexivity|].
  destruct (String.eqb k key) eqn:Hk; simpl.
  - apply String.eqb_eq in Hk. subst k.
    apply String.eqb_neq in Hne. rewrite String.eqb_sym, Hne. reflexivity.
  - rewrite IH. reflexivity.
Qed.

Lemma alive_keys_incl (now : Z) cache (k : string) :
  In k (getCacheKeys (alive now cache)) -> In k (getCacheKeys cache).
Proof.
  unfold getCacheKeys, alive. intros H. apply in_map_iff in H as (e & <- & He).
  apply filter_In in He as [He _]. apply in_map, He.
Qed.

Lemma alive_NoDup (now : Z) cache :
  List.NoDup (getCacheKeys cache) -> List.NoDup (getCacheKeys (alive now cache)).
Proof.
  unfold getCacheKeys at 1.
  induction cache as [|[k item] rest IH]; simpl; [constructor|].
  intros Hnd. inversion Hnd as [|? ? Hk Hrest]; subst.
  destruct (now <=? item_expiry item)%Z; [|apply IH, Hrest].
  unfold getCacheKeys. simpl. constructor; [|apply IH, Hrest].
  intros Hin. apply Hk. apply (alive_keys_incl now rest k Hin).
Qed.

Lemma map_get_alive (now : Z) (key : string) cache :
  List.NoDup (getCacheKeys cache) ->
  map_get key (alive now cache)
  = match map_get key cache with
    | Some item => if (now <=? item_expiry item)%Z then Some item else None
    | None => None
    end.
Proof.
  unfold getCacheKeys. induction cache as [|[k item] rest IH]; simpl; [reflexivity|].
  intros Hnd. inversion Hnd as [|? ? Hk Hrest]; subst.
  destruct (String.eqb k key) eqn:Heq.
  - apply String.eqb_eq in Heq. subst k.
    destruct (now <=? item_expiry item)%Z; simpl; [rewrite String.eqb_refl; reflexivity|].
    apply map_get_None_keys. intros Hin. apply Hk, (alive_keys_incl now rest key Hin).
  - destruct (now <=? item_expiry item)%Z; simpl; [rewrite Heq|]; apply IH, Hrest.
Qed.

Lemma to_double_exact (z : Z) : (Z.abs z <= 2 ^ 53)%Z -> to_double z = z.
Proof. unfold to_double. intros H. apply Z.leb_le in H. rewrite H. reflexivity. Qed.

(** X6: a value set under a non-empty key is what [getCache] returns for
    that key until the expiry time that was stored, that time included,
    and the cache is left as it is; after that time [getCache] answers
    [null] and removes the entry. For a time and an expiry that are
    integers and doubles, with a sum below 2^1023 in magnitude, the
    stored time is the double nearest to [now + expiry], which is
    [now + expiry] itself while that is at most 2^53 in magnitude.
    Setting a key touches no other key. *)
Theorem cache_round_trip (now now' expiry : Z) (key : string) (v : V) cache :
  falsy key = false ->
  List.NoDup (getCacheKeys cache) ->
  to_double now = now -> to_double expiry = expiry ->
  (Z.abs (now + expiry) < 2 ^ 1023)%Z ->
  List.NoDup (getCacheKeys (setCache now key v expiry cache))
  /\ (forall k, k <> key ->
        map_get k (setCache now key v expiry cache) = map_get k cache)
  /\ ((now' <= to_double (now + expiry))%Z ->
      getCache now' key (setCache now key v expiry cache)
      = (Value (Some v), setCache now key v expiry cache))
  /\ ((to_double (now + expiry) < now')%Z ->
      exists cache2,
        getCache now' key (setCache now key v expiry cache) = (Value None, cache2)
        /\ map_get key cache2 = None
        /\ forall k, k <> key -> map_get k cache2 = map_get k cache)
  /\ ((Z.abs (now + expiry) <= 2 ^ 53)%Z ->
      to_double (now + expiry) = (now + expiry)%Z).
Proof.
  intros Hkey Hnd _ _ _. unfold setCache.
  set (stored := to_double (now + expiry)).
  set (item := {| item_value := v; item_expiry := stored |}).
  pose proof (map_set_NoDup key item cache Hnd) as Hnd1.
  split; [exact Hnd1|].
  split; [intros k Hk; apply map_get_set_ne, Hk|].
  split; [|split; [|apply to_double_exact]].
  - intros Hle. unfold getCache. rewrite Hkey, map_get_set_eq. simpl.
    replace (stored <? now')%Z with false by (symmetry; apply Z.ltb_ge; lia).
    reflexivity.
  - intros Hgt. unfold getCache. rewrite Hkey, map_get_set_eq. simpl.
    replace (stored <? now')%Z with true by (symmetry; apply Z.ltb_lt; lia).
    eexists. split; [reflexivity|]. split; [apply map_get_delete_eq, Hnd1|].
    intros k Hk. rewrite map_get_delete_ne by exact Hk. apply map_get_set_ne, Hk.
Qed.

(** X7: in a cache with one entry per key, [cleanExpiredCache] keeps
    exactly the entries that have not expired, changes the answer of no
    [getCache] call made at that time, and never makes the cache larger. *)
Theorem cleanExpiredCache_unobservable (now : Z) cache :
  List.NoDup (getCacheKeys cache) ->
  (forall key item,
     map_get key (cleanExpiredCache now cache) = Some item
     <-> map_get key cache = Some item /\ (now <= item_expiry item)%Z)
  /\ (forall key,
        fst (getCache now key (cleanExpiredCache now cache))
        = fst (getCache now key cache))
  /\ (getCacheSize (cleanExpiredCache now cache) <= getCacheSize cache)%nat.
Proof.
  intros Hnd. unfold cleanExpiredCache. split; [|split].
  - intros key item. rewrite (map_get_alive now key cache Hnd).
    destruct (map_get key cache) as [item'|]; [|split; [discriminate|intros [H _]; discriminate]].
    destruct (Z.leb_spec now (item_expiry item')) as [Hle|Hgt].
    + split; [intros [= <-]; auto|intros [[= <-] _]; reflexivity].
    + split; [discriminate|]. intros [[= <-] H]. lia.
  - intros key. unfold getCache. destruct (falsy key).
    + simpl. unfold alive. f_equal. f_equal.
      induction cache as [|e rest IH]; simpl; [reflexivity|].
      inversion Hnd; subst.
      destruct (now <=? item_expiry (snd e))%Z eqn:He; simpl; [rewrite He|]; simpl;
        rewrite IH; auto.
    + rewrite (map_get_alive now key cache Hnd).
      destruct (map_get key cache) as [item|]; [|reflexivity].
      destruct (Z.leb_spec now (item_expiry item)) as [Hle|Hgt].
      * replace (item_expiry item <? now)%Z with false
          by (symmetry; apply Z.ltb_ge; lia). reflexivity.
      * replace (item_expiry item <? now)%Z with true
          by (symmetry; apply Z.ltb_lt; lia). reflexivity.
  - unfold getCacheSize, alive. apply filter_length_le.
Qed.

End CacheFacts.

Lemma cache_round_trip_witness :
  getCache 1500 "posts" (setCache 1000 "posts" 7%nat 500 [])
  = (Value (Some 7%nat), setCache 1000 "posts" 7%nat 500 [])
  /\ getCache (2 ^ 53 + 4) "posts" (setCache 3 "posts" 7%nat (2 ^ 53) [])
     = (Value (Some 7%nat), setCache 3 "posts" 7%nat (2 ^ 53) []).
Proof.
  split.
  - destruct (cache_round_trip 1000 1500 500 "posts" 7%nat []) as (_ & _ & Hhit & _).
    + reflexivity.
    + constructor.
    + reflexivity.
    + reflexivity.
    + vm_compute. reflexivity.
    + apply Hhit. vm_compute. discriminate.
  - destruct (cache_round_trip 3 (2 ^ 53 + 4) (2 ^ 53) "posts" 7%nat [])
      as (_ & _ & Hhit & _).
    + reflexivity.
    + constructor.
    + reflexivity.
    + reflexivity.
    + vm_compute. reflexivity.
    + apply Hhit. vm_compute. discriminate.
Defined.

Lemma cleanExpiredCache_unobservable_witness :
  fst (getCache 2000 "a"
         (cleanExpiredCache 2000 (setCache 1000 "b" 2%nat 500 (setCache 1000 "a" 1%nat 5000 []))))
  = Value (Some 1%nat).
Proof.
  destruct (cleanExpiredCache_unobservable 2000
              (setCache 1000 "b" 2%nat 500 (setCache 1000 "a" 1%nat 5000 [])))
    as (_ & Hsame & _).
  - repeat constructor; simpl; intuition discriminate.
  - rewrite Hsame. reflexivity.
Defined.

(** ** [generateSlug] on its own output *)

Lemma hyphen_is_separator (c : ascii) :
  is_hyphen c = true -> space_underscore_hyphen c = true /\ c = "-"%char.
Proof. ascii_cases c; vm_compute; intros; try discriminate; split; reflexivity. Qed.

Lemma slug_char_kept (c : ascii) :
  is_slug_char c = true -> not_word_space_hyphen c = false.
Proof. ascii_cases c; vm_compute; intros; try discriminate; reflexivity. Qed.

Lemma slug_char_separator (c : ascii) :
  is_slug_char c = true -> is_hyphen c = false -> space_underscore_hyphen c = false.
Proof. ascii_cases c; vm_compute; intros; try discriminate; reflexivity. Qed.

Lemma has_adjacent_cons (p : ascii -> bool) (a b : ascii) (t : string) :
  has_adjacent p (String a (String b t)) = (p a && p b) || has_adjacent p (String b t).
Proof. reflexivity. Qed.

Lemma replace_runs_no_adjacent (s : string) (in_run : bool) :
  has_adjacent is_hyphen (replace_runs space_underscore_hyphen in_run s) = false
  /\ (in_run = true ->
      leading_hyphen (replace_runs space_underscore_hyphen in_run s) = false).
Proof.
  revert in_run. induction s as [|c r IH]; intros in_run; simpl; [split; reflexivity|].
  destruct (space_underscore_hyphen c) eqn:Hsep.
  - destruct (IH true) as [Hadj Hlead]. specialize (Hlead eq_refl).
    destruct in_run; [split; [exact Hadj|intros _; exact Hlead]|].
    split; [|discriminate].
    unfold leading_hyphen in Hlead.
    destruct (replace_runs space_underscore_hyphen true r) as [|b t]; [reflexivity|].
    cbn [first_char] in Hlead. rewrite has_adjacent_cons, Hlead, andb_false_r. exact Hadj.
  - destruct (IH false) as [Hadj _].
    assert (Hc : is_hyphen c = false).
    { destruct (is_hyphen c) eqn:H; [|reflexivity].
      apply hyphen_is_separator in H as [H _]. congruence. }
    split; [|intros _; unfold leading_hyphen; simpl; exact Hc].
    destruct (replace_runs space_underscore_hyphen false r) as [|b t]; [reflexivity|].
    rewrite has_adjacent_cons, Hc. exact Hadj.
Qed.

Lemma has_adjacent_tail (p : ascii -> bool) (c : ascii) (s : string) :
  has_adjacent p (String c s) = false -> has_adjacent p s = false.
Proof.
  destruct s as [|b t]; [reflexivity|]. rewrite has_adjacent_cons, orb_false_iff. tauto.
Qed.

Lemma drop_leading_adjacent (p cls : ascii -> bool) (s : string) :
  has_adjacent p s = false -> has_adjacent p (drop_leading cls s) = false.
Proof.
  induction s as [|c r IH]; [reflexivity|]. intros H. simpl drop_leading.
  destruct (cls c); [apply IH, (has_adjacent_tail p c r H)|exact H].
Qed.

Lemma drop_trailing_adjacent (p cls : ascii -> bool) (s : string) :
  has_adjacent p s = false -> has_adjacent p (drop_trailing cls s) = false.
Proof.
  induction s as [|c r IH]; [reflexivity|]. intros H.
  pose proof (IH (has_adjacent_tail p c r H)) as Hr.
  simpl drop_trailing.
  destruct r as [|b t].
  - simpl. destruct (cls c); reflexivity.
  - rewrite has_adjacent_cons in H. apply orb_false_iff in H as [Hcb _].
    destruct (drop_trailing cls (String b t)) as [|b' t'] eqn:Hd.
    + destruct (cls c); reflexivity.
    + assert (b' = b).
      { simpl in Hd. destruct (drop_trailing cls t); [destruct (cls b)|];
          congruence. }
      subst b'. rewrite has_adjacent_cons, Hcb. exact Hr.
Qed.

Lemma remove_class_none (cls : ascii -> bool) (s : string) :
  all_chars (fun c => negb (cls c)) s = true -> remove_class cls s = s.
Proof.
  induction s as [|c r IH]; simpl; [reflexivity|].
  rewrite andb_true_iff, negb_true_iff. intros [-> Hr]. rewrite (IH Hr). reflexivity.
Qed.

Lemma replace_runs_slug (s : string) (in_run : bool) :
  all_chars is_slug_char s = true ->
  has_adjacent is_hyphen s = false ->
  (in_run = true -> leading_hyphen s = false) ->
  replace_runs space_underscore_hyphen in_run s = s.
Proof.
  revert in_run. induction s as [|c r IH]; intros in_run Hall Hadj Hlead; [reflexivity|].
  simpl in Hall. apply andb_true_iff in Hall as [Hc Hr].
  pose proof (has_adjacent_tail _ _ _ Hadj) as Hadj'.
  simpl replace_runs. destruct (is_hyphen c) eqn:Hh.
  - destruct (hyphen_is_separator c Hh) as [-> ->].
    destruct in_run; [specialize (Hlead eq_refl); discriminate|].
    f_equal. apply IH; auto. intros _.
    destruct r as [|b t]; [reflexivity|].
    rewrite has_adjacent_cons in Hadj. apply orb_false_iff in Hadj as [Hb _].
    unfold leading_hyphen. simpl. exact Hb.
  - rewrite (slug_char_separator c Hc Hh). f_equal. apply IH; auto. discriminate.
Qed.

(** A text that has the shape of a slug already is left as it is. *)
Lemma generateSlug_fixed (s : string) :
  all_chars is_slug_char s = true ->
  has_adjacent is_hyphen s = false ->
  leading_hyphen s = false ->
  trailing_hyphen s = false ->
  generateSlug s = s.
Proof.
  intros Hall Hadj Hlead Htrail. unfold generateSlug.
  rewrite (toLowerCase_slug_id s Hall), (trim_slug_id s Hall).
  rewrite (remove_class_none not_word_space_hyphen s).
  2:{ apply (all_chars_impl is_slug_char); [|exact Hall].
      intros c Hc. rewrite (slug_char_kept c Hc). reflexivity. }
  rewrite (replace_runs_slug s false Hall Hadj) by discriminate.
  rewrite (drop_leading_first is_hyphen s).
  2:{ unfold leading_hyphen in Hlead. destruct (first_char s); [exact Hlead|exact I]. }
  apply drop_trailing_fixed.
  unfold trailing_hyphen in Htrail. destruct (last_char s); [exact Htrail|exact I].
Qed.

(** X8: the texts [generateSlug] yields are the slugs, and it leaves a
    slug as it is. Its output is made of [[a-z0-9-]] only, has no two
    hyphens in a row and no hyphen at either end; every text of that
    shape is returned unchanged; so applying it to its own output
    changes nothing. *)
Theorem generateSlug_idempotent (text : string) :
  (all_chars is_slug_char (generateSlug text) = true
   /\ has_adjacent is_hyphen (generateSlug text) = false
   /\ leading_hyphen (generateSlug text) = false
   /\ trailing_hyphen (generateSlug text) = false)
  /\ (all_chars is_slug_char text = true ->
      has_adjacent is_hyphen text = false ->
      leading_hyphen text = false ->
      trailing_hyphen text = false ->
      generateSlug text = text)
  /\ generateSlug (generateSlug text) = generateSlug text.
Proof.
  destruct (generateSlug_shape text) as (Hall & Hlead & Htrail).
  assert (Hadj : has_adjacent is_hyphen (generateSlug text) = false).
  { unfold generateSlug. apply drop_trailing_adjacent, drop_leading_adjacent.
    apply (replace_runs_no_adjacent _ false). }
  split; [repeat split; assumption|].
  split; [apply generateSlug_fixed|].
  apply generateSlug_fixed; assumption.
Qed.

Lemma generateSlug_idempotent_witness :
  generateSlug "my-1st-post" = "my-1st-post"
  /\ generateSlug " My  1st_Post! " = "my-1st-post".
Proof.
  split; [|reflexivity].
  destruct (generateSlug_idempotent "my-1st-post") as (_ & Hfixed & _).
  apply Hfixed; reflexivity.
Defined.

(** ** The two reading-time estimates *)

Lemma strip_tags_none (in_text : string) :
  includes_char "<" in_text = false -> strip_tags in_text = in_text.
Proof.
  unfold strip_tags. induction in_text as [|c r IH]; simpl; [reflexivity|].
  rewrite orb_false_iff. intros [-> Hr]. simpl. rewrite (IH Hr). reflexivity.
Qed.

(** The content and the reading time of a created post. *)
Lemma createPost_content (db : Db) (now : Date) (new_id : ObjectId) (user : User)
    (b : Body) (p : Post) (db' : Db) :
  createPost db now new_id user b = Some (Success 201 p, db') ->
  trim (post_content p) = post_content p
  /\ post_content p <> ""
  /\ post_readingTime p = ceil_div (wordCount (post_content p)) 200.
Proof.
  unfold createPost.
  destruct (validatePostCreation b) as [errs|b'] eqn:Hval; [discriminate|].
  apply validatePostCreation_inr in Hval as (-> & _ & Hlen).
  set (content := trim (default "" (body_content b))) in *.
  unfold createPost_handler, Post_create_prepare.
  destruct (schema_errors _ _); [|discriminate].
  destruct (pre_save _ _ _ _ _ _) as [doc|] eqn:Hsave; [|discriminate].
  destruct (pre_save_readingTime _ _ _ _ _ _ _ Hsave) as [Hc Hr].
  cbn [create_modified with_title_content body_content isSome mod_content
       new_document post_content default from_option id] in Hc, Hr.
  unfold create_commit, insertOne. destruct (existsb _ (posts db)); [discriminate|].
  intros [= <- _]. rewrite Hc, Hr. split; [apply trim_idem|]. split; [|reflexivity].
  intros Hempty. fold content in Hempty. rewrite Hempty in Hlen. discriminate.
Qed.

(** X9: for a created post whose content has no ["<"], the estimate the
    front end computes with [calculateReadingTime] is the reading time
    the server stored. *)
Theorem readingTime_estimates_agree (db : Db) (now : Date) (new_id : ObjectId)
    (user : User) (b : Body) (p : Post) (db' : Db) :
  createPost db now new_id user b = Some (Success 201 p, db') ->
  includes_char "<" (post_content p) = false ->
  calculateReadingTime (post_content p) = post_readingTime p.
Proof.
  intros Hcreate Hplain.
  destruct (createPost_content _ _ _ _ _ _ _ Hcreate) as (Htrim & Hne & ->).
  unfold calculateReadingTime.
  destruct (falsy (post_content p)) eqn:Hf;
    [apply String.eqb_eq in Hf; contradiction|].
  rewrite (strip_tags_none _ Hplain).
  fold (tokens (post_content p)).
  rewrite <- (trimmed_pieces_are_tokens _ Htrim Hne).
  apply N.max_r, ceil_div_200_pos.
  unfold wordCount, split_ws. pose proof (split_go_length (post_content p) false ""). lia.
Qed.

Lemma readingTime_estimates_agree_witness :
  exists p, calculateReadingTime (post_content p) = post_readingTime p
            /\ post_readingTime p = 1.
Proof.
  eexists. split.
  - eapply (readingTime_estimates_agree empty_db 10 id1 alice hello_body).
    + vm_compute. reflexivity.
    + reflexivity.
  - reflexivity.
Defined.

(** ** Looking a post up after it was created *)

Lemma lower_char_idem (c : ascii) : lower_char (lower_char c) = lower_char c.
Proof. ascii_cases c; reflexivity. Qed.

Lemma lower_char_space (c : ascii) : is_space (lower_char c) = is_space c.
Proof. ascii_cases c; reflexivity. Qed.

Lemma toLowerCase_idem (s : string) : toLowerCase (toLowerCase s) = toLowerCase s.
Proof.
  unfold toLowerCase. induction s as [|c r IH]; simpl; [reflexivity|].
  rewrite lower_char_idem, IH. reflexivity.
Qed.

Lemma drop_leading_lower (s : string) :
  drop_leading is_space (toLowerCase s) = toLowerCase (drop_leading is_space s).
Proof.
  unfold toLowerCase. induction s as [|c r IH]; simpl; [reflexivity|].
  rewrite lower_char_space. destruct (is_space c); [exact IH|reflexivity].
Qed.

Lemma drop_trailing_lower (s : string) :
  drop_trailing is_space (toLowerCase s) = toLowerCase (drop_trailing is_space s).
Proof.
  unfold toLowerCase. induction s as [|c r IH]; simpl; [reflexivity|].
  rewrite IH, lower_char_space.
  destruct (drop_trailing is_space r); simpl; [destruct (is_space c)|]; reflexivity.
Qed.

Lemma trim_lower (s : string) : trim (toLowerCase s) = toLowerCase (trim s).
Proof. unfold trim. rewrite drop_leading_lower, drop_trailing_lower. reflexivity. Qed.

(** The setters of the [slug] path do nothing to a value they produced. *)
Lemma slug_setter_idem (s : string) : slug_setter (slug_setter s) = slug_setter s.
Proof.
  unfold slug_setter. rewrite trim_lower, trim_idem. apply toLowerCase_idem.
Qed.

Lemma find_app_last {A : Type} (f : A -> bool) (l : list A) (x : A) :
  find f (List.app l [x])
  = match find f l with
    | Some y => Some y
    | None => if f x then Some x else None
    end.
Proof.
  induction l as [|a l IH]; simpl; [reflexivity|]. destruct (f a); [reflexivity|exact IH].
Qed.

Lemma find_none_forall {A : Type} (f : A -> bool) (l : list A) :
  (forall x, In x l -> f x = false) -> find f l = None.
Proof.
  induction l as [|a l IH]; simpl; intros H; [reflexivity|].
  rewrite (H a (or_introl eq_refl)). apply IH. intros x Hx. apply H. right. exact Hx.
Qed.

Lemma hook_slug_shape (fuel : nat) (store : list Post) (isNew : bool) (m : Modified)
    (this this1 : Post) :
  hook_slug fuel store isNew m this = Some this1 ->
  post_id this1 = post_id this
  /\ (post_slug this1 = post_slug this \/ exists s, post_slug this1 = slug_setter s).
Proof.
  unfold hook_slug.
  destruct ((mod_title m && falsy (post_slug this)) || (isNew && falsy (post_slug this))).
  - destruct (slug_loop _ _ _ _ _ _) as [s|]; [|discriminate].
    intros [= <-]. split; [reflexivity|]. right. exists s. reflexivity.
  - intros [= <-]. split; [reflexivity|]. left. reflexivity.
Qed.

(** What a successful creation stored. *)
Lemma createPost_stored (db : Db) (now : Date) (new_id : ObjectId) (user : User)
    (b : Body) (p : Post) (db' : Db) :
  createPost db now new_id user b = Some (Success 201 p, db') ->
  posts db' = List.app (posts db) [p]
  /\ post_id p = new_id
  /\ post_author p = user_id user
  /\ slug_setter (post_slug p) = post_slug p
  /\ (forall q, In q (posts db) -> post_id q <> new_id /\ post_slug q <> post_slug p).
Proof.
  unfold createPost.
  destruct (validatePostCreation b) as [errs|b']; [discriminate|].
  unfold createPost_handler, Post_create_prepare.
  destruct (schema_errors _ _); [|discriminate].
  destruct (pre_save _ _ _ _ _ _) as [doc|] eqn:Hsave; [|discriminate].
  unfold pre_save in Hsave.
  destruct (hook_slug _ _ _ _ _) as [this1|] eqn:Hslug; [|discriminate].
  injection Hsave as <-.
  destruct (hook_slug_shape _ _ _ _ _ _ Hslug) as [Hid Hs].
  assert (Hauthor : post_author this1 = user_id user).
  { unfold hook_slug in Hslug.
    destruct (_ || _) in Hslug; [destruct (slug_loop _ _ _ _ _ _) in Hslug|];
      try discriminate; injection Hslug as <-; reflexivity. }
  set (doc := hook_readingTime _ (hook_publishedAt now _ this1)).
  assert (Hdoc : post_id doc = new_id /\ post_slug doc = post_slug this1
                 /\ post_author doc = user_id user).
  { unfold doc, hook_readingTime, hook_publishedAt.
    destruct (mod_content _), (_ && _ && _); simpl; repeat split; auto. }
  destruct Hdoc as (Hdid & Hdslug & Hdauthor).
  unfold create_commit, insertOne.
  destruct (existsb _ (posts db)) eqn:Hex; [discriminate|].
  intros [= <- <-]. simpl. split; [reflexivity|]. split; [exact Hdid|].
  split; [exact Hdauthor|]. split.
  - rewrite Hdslug. destruct Hs as [Hs|[s Hs]]; rewrite Hs.
    + simpl. apply slug_setter_idem.
    + apply slug_setter_idem.
  - intros q Hq. pose proof (existsb_false_forall _ _ Hex q Hq) as H.
    apply orb_false_iff in H as [H1 H2].
    apply String.eqb_neq in H1. apply String.eqb_neq in H2.
    rewrite Hdid in H1. split; assumption.
Qed.

(** X10: the post a creation stored is found again by the lookup of the
    update, like, delete and read handlers: by its [_id], and by its slug
    unless the slug has the shape of an [_id] and spells that of a stored
    post, which the lookup then prefers. *)
Theorem lookup_after_create (db : Db) (now : Date) (new_id : ObjectId) (user : User)
    (b : Body) (p : Post) (db' : Db) :
  createPost db now new_id user b = Some (Success 201 p, db') ->
  (isValidObjectId new_id = true -> toLowerCase new_id = new_id ->
   lookup (posts db') new_id = Some p)
  /\ ((isValidObjectId (post_slug p) = true ->
       ~ In (toLowerCase (post_slug p)) (ids (posts db'))) ->
      lookup (posts db') (post_slug p) = Some p).
Proof.
  intros Hcreate.
  destruct (createPost_stored _ _ _ _ _ _ _ Hcreate) as (-> & Hid & _ & Hnorm & Hfresh).
  split.
  - intros Hvalid Hlower. unfold lookup, findById. rewrite Hvalid, find_app_last.
    rewrite find_none_forall.
    + rewrite Hlower, Hid, String.eqb_refl. reflexivity.
    + intros q Hq. rewrite Hlower. apply String.eqb_neq. apply (Hfresh q Hq).
  - intros Hshadow. unfold lookup.
    assert (Hbyid : (if isValidObjectId (post_slug p)
                     then findById (List.app (posts db) [p]) (post_slug p)
                     else None) = None).
    { destruct (isValidObjectId (post_slug p)); [|reflexivity].
      apply find_none_forall. intros q Hq. apply String.eqb_neq. intros Heq.
      apply Hshadow; [reflexivity|]. rewrite <- Heq. unfold ids. apply in_map, Hq. }
    rewrite Hbyid. unfold findOne_slug. rewrite find_app_last, find_none_forall.
    + rewrite Hnorm, String.eqb_refl. reflexivity.
    + intros q Hq. rewrite Hnorm. apply String.eqb_neq. apply (Hfresh q Hq).
Qed.

Lemma lookup_after_create_witness :
  exists p db',
    createPost empty_db 10 id1 alice hello_body = Some (Success 201 p, db')
    /\ lookup (posts db') id1 = Some p
    /\ lookup (posts db') "hello-world" = Some p.
Proof.
  do 2 eexists. split; [vm_compute; reflexivity|].
  pose proof (lookup_after_create empty_db 10 id1 alice hello_body
                (hello_post id1 "hello-world")
                {| posts := [hello_post id1 "hello-world"]; write_calls := 1 |}) as H.
  destruct H as [Hid Hslug]; [vm_compute; reflexivity|].
  split; [apply Hid; reflexivity|].
  apply Hslug. intros H. discriminate.
Defined.

(** ** Reading one post *)

Lemma Status_eqb_eq (a b : Status) : Status_eqb a b = true <-> a = b.
Proof. destruct a, b; simpl; split; intros H; try reflexivity; discriminate. Qed.

Lemma Role_eqb_eq (a b : Role) : Role_eqb a b = true <-> a = b.
Proof. destruct a, b; simpl; split; intros H; try reflexivity; discriminate. Qed.

(** X11: both routes that read one post answer 404 when the lookup
    finds nothing, and show a post that is not published only to its
    author and to admins: anyone else, logged in or not, is answered 404
    (500 when a logged-in requester meets a post whose author document
    is gone), and the store stays as it was. A published post is shown
    to everyone with its view counter plus one; the counter of that post
    is incremented and its [updatedAt] is set to the time of the call,
    with one write command, and no other counter or time stamp, no post,
    no comment and no user changes. *)
Theorem getPost_visibility (site : Site) (now : Date) (requester : option User)
    (id : string) (route : Site -> Date -> option User -> string -> Reply * Site)
    (find : list Post -> string -> option Post) :
  (route = getPost /\ find = lookup) \/ (route = getPostBySlug /\ find = findOne_slug) ->
  (find (posts (site_db site)) id = None ->
   route site now requester id = (ReplyError 404 "Post not found" [], site))
  /\ (forall post, find (posts (site_db site)) id = Some post ->
        (post_status post = published ->
         exists site',
           route site now requester id
           = (ReplyPost 200 post (site_views site (post_id post) + 1), site')
           /\ site_views site' (post_id post) = site_views site (post_id post) + 1
           /\ site_updatedAt site' (post_id post) = now
           /\ (forall i, i <> post_id post ->
                 site_views site' i = site_views site i
                 /\ site_updatedAt site' i = site_updatedAt site i)
           /\ posts (site_db site') = posts (site_db site)
           /\ write_calls (site_db site') = S (write_calls (site_db site))
           /\ site_comments site' = site_comments site
           /\ site_users site' = site_users site)
        /\ (post_status post <> published ->
            (requester = None ->
             route site now requester id = (ReplyError 404 "Post not found" [], site))
            /\ (forall user, requester = Some user ->
                  (author_populated site post = false ->
                   route site now requester id = (ReplyError 500 "Server error" [], site))
                  /\ (author_populated site post = true ->
                      (user_id user = post_author post \/ user_role user = admin ->
                       route site now requester id
                       = (ReplyPost 200 post (site_views site (post_id post)), site))
                      /\ (user_id user <> post_author post -> user_role user <> admin ->
                          route site now requester id
                          = (ReplyError 404 "Post not found" [], site)))))).
Proof.
  intros Hroute.
  assert (Hcall : route site now requester id
                  = match find (posts (site_db site)) id with
                    | None => (ReplyError 404 "Post not found" [], site)
                    | Some post => show_post site now requester post
                    end).
  { destruct Hroute as [[-> ->]|[-> ->]]; reflexivity. }
  rewrite Hcall. clear Hcall Hroute.
  split; [intros ->; reflexivity|].
  intros post ->. unfold show_post. split.
  - intros Hpub. apply Status_eqb_eq in Hpub. rewrite Hpub. cbn [negb].
    eexists. split; [reflexivity|].
    cbn [count_view site_views site_updatedAt site_db site_comments site_users
         wrote posts write_calls].
    rewrite String.eqb_refl. split; [reflexivity|]. split; [reflexivity|].
    split; [|repeat split; reflexivity].
    intros i Hi. apply String.eqb_neq in Hi. rewrite Hi. split; reflexivity.
  - intros Hne.
    assert (Hst : Status_eqb (post_status post) published = false).
    { destruct (Status_eqb (post_status post) published) eqn:H; [|reflexivity].
      apply Status_eqb_eq in H. contradiction. }
    rewrite Hst. cbn [negb]. split; [intros ->; reflexivity|].
    intros user ->. split; [intros ->; reflexivity|].
    intros ->. cbn [negb]. split.
    + intros [Hauthor|Hadmin].
      * apply String.eqb_eq in Hauthor. rewrite Hauthor. reflexivity.
      * apply Role_eqb_eq in Hadmin. rewrite Hadmin, andb_false_r. reflexivity.
    + intros Hauthor Hadmin. apply String.eqb_neq in Hauthor. rewrite Hauthor.
      assert (Hr : Role_eqb (user_role user) admin = false).
      { destruct (Role_eqb (user_role user) admin) eqn:H; [|reflexivity].
        apply Role_eqb_eq in H. contradiction. }
      rewrite Hr. reflexivity.
Qed.

Lemma getPost_visibility_witness :
  exists site',
    getPost published_site 30 None id1
    = (ReplyPost 200 published_hello 1, site')
    /\ site_views site' id1 = 1 /\ site_updatedAt site' id1 = 30
    /\ getPostBySlug published_site 30 (Some bob) "hello-world-1"
       = (ReplyError 404 "Post not found" [], published_site).
Proof.
  destruct (getPost_visibility published_site 30 None id1 getPost lookup)
    as [_ Hfound]; [left; split; reflexivity|].
  destruct (Hfound published_hello eq_refl) as [Hshown _].
  destruct (Hshown eq_refl) as (site' & Hcall & Hviews & Hstamp & _).
  exists site'. split; [exact Hcall|]. split; [exact Hviews|]. split; [exact Hstamp|].
  destruct (getPost_visibility published_site 30 (Some bob) "hello-world-1"
              getPostBySlug findOne_slug) as [_ Hfound2]; [right; split; reflexivity|].
  destruct (Hfound2 (hello_post id2 "hello-world-1") eq_refl) as [_ Hdraft].
  destruct (Hdraft ltac:(discriminate)) as [_ Huser].
  destruct (Huser bob eq_refl) as [_ Hpop].
  destruct (Hpop eq_refl) as [_ Hother].
  apply Hother; discriminate.
Defined.

(** ** Deleting a post *)

Lemma remove_first_In {A : Type} (f : A -> bool) (l : list A) (x : A) :
  In x (remove_first f l) -> In x l.
Proof.
  induction l as [|a l IH]; simpl; [tauto|].
  destruct (f a); simpl; [tauto|]. intros [H|H]; [left; exact H|right; apply IH, H].
Qed.

(** With one element per key, removing the first element of a key
    removes the element of that key and keeps all the others. *)
Lemma remove_first_key {A : Type} (key : A -> string) (k : string) (l : list A) :
  List.NoDup (map key l) ->
  forall x, In x (remove_first (fun y => String.eqb (key y) k) l)
            <-> In x l /\ key x <> k.
Proof.
  induction l as [|a l IH]; simpl; intros Hnd x; [tauto|].
  inversion Hnd as [|? ? Ha Hl]; subst.
  destruct (String.eqb (key a) k) eqn:Hk.
  - apply String.eqb_eq in Hk. split.
    + intros Hx. split; [right; exact Hx|]. intros Heq. apply Ha.
      rewrite Hk, <- Heq. apply in_map, Hx.
    + intros [[->|Hx] Hne]; [contradiction|exact Hx].
  - apply String.eqb_neq in Hk. simpl. rewrite (IH Hl x). split.
    + intros [->|[Hx Hne]]; [split; [left; reflexivity|exact Hk]|tauto].
    + intros [[->|Hx] Hne]; [left; reflexivity|right; tauto].
Qed.

Lemma validateObjectId_bad (id : string) :
  isValidObjectId id = false -> validateObjectId (Some id) <> [].
Proof.
  unfold validateObjectId. change (default "undefined" (Some id)) with id.
  intros -> H. apply app_eq_nil in H as [_ H]. discriminate.
Qed.

Lemma validateObjectId_good (id : string) :
  isValidObjectId id = true -> validateObjectId (Some id) = [].
Proof.
  unfold validateObjectId. change (default "" (Some id)) with id.
  change (default "undefined" (Some id)) with id.
  intros H. rewrite H. unfold isValidObjectId in H.
  apply andb_true_iff in H as [H _]. apply Nat.eqb_eq in H. rewrite H. reflexivity.
Qed.

Lemma Role_eqb_neq (a b : Role) : Role_eqb a b = false <-> a <> b.
Proof. destruct a, b; simpl; split; intros H; try reflexivity; try discriminate; congruence. Qed.



(** ** Pages *)

Lemma pages_cover {A : Type} (n k : nat) (l : list A) :
  (List.length l <= k * n)%nat ->
  List.concat (map (fun i => firstn n (skipn (i * n) l)) (seq 0 k)) = l.
Proof.
  revert l. induction k as [|k IH]; intros l Hlen.
  - destruct l; [reflexivity|simpl in Hlen; lia].
  - cbn [seq map List.concat]. rewrite <- seq_shift, map_map.
    transitivity (List.app (firstn n l) (skipn n l)); [|apply firstn_skipn].
    cbn [Nat.mul Nat.add skipn]. f_equal.
    etransitivity; [|apply (IH (skipn n l)); rewrite length_skipn; lia].
    f_equal. apply map_ext. intros i.
    rewrite skipn_skipn. do 2 f_equal. lia.
Qed.

Lemma ceil_div_covers (total limit : N) : 1 <= limit -> total <= ceil_div total limit * limit.
Proof.
  intros Hl. unfold ceil_div.
  pose proof (N.div_mod (total + limit - 1) limit ltac:(lia)) as Hdiv.
  pose proof (N.mod_lt (total + limit - 1) limit ltac:(lia)) as Hmod.
  nia.
Qed.

Lemma hasNext_iff (page limit total : N) :
  1 <= limit -> ((page * limit <? total) = true <-> page < ceil_div total limit).
Proof.
  intros Hl. rewrite N.ltb_lt. unfold ceil_div.
  pose proof (N.div_mod (total + limit - 1) limit ltac:(lia)) as Hdiv.
  pose proof (N.mod_lt (total + limit - 1) limit ltac:(lia)) as Hmod.
  set (q := (total + limit - 1) / limit) in *.
  set (r := (total + limit - 1) mod limit) in *.
  split; intros H.
  - destruct (N.lt_ge_cases page q) as [Hlt|Hge]; [exact Hlt|exfalso].
    assert (limit * q <= limit * page) by (apply N.mul_le_mono_l, Hge). lia.
  - assert (limit * (page + 1) <= limit * q) by (apply N.mul_le_mono_l; lia). lia.
Qed.

(** X13: the pagination object and the page agree. For a page number and
    a limit of at least 1: [hasNext] holds exactly when the page is
    before the last one, [hasPrev] exactly when it is after the first,
    the page holds [min(limit, total - (page - 1) * limit)] documents,
    none past the last page, and the pages 1 to [totalPages] laid end to
    end are the whole list. *)
Theorem pagination_consistent {A : Type} (page limit : N) (l : list A) :
  1 <= page -> 1 <= limit ->
  (hasNext (paginate page limit (N.of_nat (List.length l))) = true
   <-> page < totalPages (paginate page limit (N.of_nat (List.length l))))
  /\ (hasPrev (paginate page limit (N.of_nat (List.length l))) = true <-> 1 < page)
  /\ N.of_nat (List.length (page_slice page limit l))
     = N.min limit (N.of_nat (List.length l) - (page - 1) * limit)
  /\ (totalPages (paginate page limit (N.of_nat (List.length l))) < page ->
      page_slice page limit l = [])
  /\ List.concat
       (map (fun k => page_slice (N.of_nat k) limit l)
          (seq 1 (N.to_nat (totalPages (paginate page limit (N.of_nat (List.length l)))))))
     = l.
Proof.
  intros Hp Hl. cbn [hasNext hasPrev totalPages paginate].
  split; [apply hasNext_iff, Hl|]. split; [apply N.ltb_lt|].
  assert (Hsize : N.of_nat (List.length (page_slice page limit l))
                  = N.min limit (N.of_nat (List.length l) - (page - 1) * limit)).
  { unfold page_slice. rewrite length_firstn, length_skipn. lia. }
  split; [exact Hsize|]. split.
  - intros Hpast.
    pose proof (ceil_div_covers (N.of_nat (List.length l)) limit Hl) as Hcover.
    assert (Hzero : N.of_nat (List.length (page_slice page limit l)) = 0).
    { rewrite Hsize. nia. }
    destruct (page_slice page limit l); [reflexivity|simpl in Hzero; lia].
  - pose proof (ceil_div_covers (N.of_nat (List.length l)) limit Hl) as Hcover.
    rewrite <- (pages_cover (N.to_nat limit)
                  (N.to_nat (ceil_div (N.of_nat (List.length l)) limit)) l) at 2 by nia.
    rewrite <- seq_shift, map_map. f_equal. apply map_ext. intros i.
    unfold page_slice. do 2 f_equal. lia.
Qed.

Lemma pagination_consistent_witness :
  hasNext (paginate 2 2 (N.of_nat (List.length [1; 2; 3; 4; 5]))) = true
  /\ page_slice 3 2 [1; 2; 3; 4; 5] = [5].
Proof.
  destruct (pagination_consistent 2 2 [1; 2; 3; 4; 5]) as (Hnext & _); [lia|lia|].
  split; [apply Hnext; vm_compute; reflexivity|reflexivity].
Defined.

(** ** The listing routes *)

Section ListingFacts.

Variable category_is : string -> Post -> bool.
Variable text_matches : string -> Post -> bool.
Variable mongo_sort : SortOptions -> list Post -> list Post.

(** Sorting returns the documents it was given. *)
Hypothesis mongo_sort_perm : forall options l, Permutation (mongo_sort options l) l.

Lemma page_slice_In {A : Type} (page limit : N) (l : list A) (x : A) :
  In x (page_slice page limit l) -> In x l.
Proof.
  unfold page_slice. intros H.
  assert (Hskip : In x (skipn (N.to_nat ((page - 1) * limit)) l)).
  { rewrite <- (firstn_skipn (N.to_nat limit)). apply in_or_app. left. exact H. }
  rewrite <- (firstn_skipn (N.to_nat ((page - 1) * limit)) l).
  apply in_or_app. right. exact Hskip.
Qed.

Lemma listing_spec (options : SortOptions) (matching : list Post) (q : PostQuery) :
  exists data,
    listing mongo_sort options matching q
    = ReplyPosts 200 (List.length data)
        (paginate (or_default 1 (q_page q)) (or_default 10 (q_limit q))
           (N.of_nat (List.length matching))) data
    /\ (forall p, In p data -> In p matching)
    /\ N.of_nat (List.length data)
       = N.min (or_default 10 (q_limit q))
           (N.of_nat (List.length matching)
            - (or_default 1 (q_page q) - 1) * or_default 10 (q_limit q)).
Proof.
  unfold listing. eexists. split; [reflexivity|]. split.
  - intros p Hp. apply page_slice_In in Hp.
    apply (Permutation_in p (mongo_sort_perm options matching)), Hp.
  - unfold page_slice. rewrite length_firstn, length_skipn.
    rewrite (Permutation_length (mongo_sort_perm options matching)). lia.
Qed.

Lemma limit_validated (q : PostQuery) :
  validatePostQuery q = [] -> 1 <= or_default 10 (q_limit q) <= 100.
Proof.
  unfold validatePostQuery. cbn [List.concat].
  intros H. apply app_eq_nil in H as [_ H]. apply app_eq_nil in H as [H _].
  destruct (q_limit q) as [n|]; simpl in *; [|lia].
  destruct ((1 <=? n) && (n <=? 100)) eqn:Hn; [|discriminate].
  apply andb_true_iff in Hn as [H1 H2]. apply N.leb_le in H1. apply N.leb_le in H2.
  destruct n; simpl; lia.
Qed.

(** X14: [GET /api/posts] answers 400 to a query that fails
    [validatePostQuery], and 500 to a query whose author passes the
    check of the validator without being 24 hexadecimal digits, as the
    values with the prefix [0x] or [0h] do. Every other query is
    answered 200 with a page of the stored posts that are published and,
    when the query names an author, written by that author: the page
    holds [min(limit, total - (page - 1) * limit)] posts, at most 100,
    where [total], the [totalPosts] of the answer, counts the posts that
    pass the filter. *)
Theorem listPosts_only_published (store : list Post) (q : PostQuery) :
  (validatePostQuery q <> [] ->
   listPosts category_is text_matches mongo_sort store q
   = ReplyError 400 "Validation failed" (validatePostQuery q))
  /\ (validatePostQuery q = [] ->
      (forall a, truthy (q_author q) = Some a -> isValidObjectId a = false ->
         isMongoId a = true
         /\ listPosts category_is text_matches mongo_sort store q
            = ReplyError 500 "Server error" [])
      /\ ((forall a, truthy (q_author q) = Some a -> isValidObjectId a = true) ->
          exists data,
            listPosts category_is text_matches mongo_sort store q
            = ReplyPosts 200 (List.length data)
                (paginate (or_default 1 (q_page q)) (or_default 10 (q_limit q))
                   (N.of_nat (List.length
                                (List.filter (public_filter category_is text_matches q)
                                   store)))) data
            /\ (forall p, In p data ->
                  In p store /\ post_status p = published
                  /\ (forall a, truthy (q_author q) = Some a ->
                        post_author p = toLowerCase a))
            /\ N.of_nat (List.length data)
               = N.min (or_default 10 (q_limit q))
                   (N.of_nat (List.length
                                (List.filter (public_filter category_is text_matches q)
                                   store))
                    - (or_default 1 (q_page q) - 1) * or_default 10 (q_limit q))
            /\ (List.length data <= 100)%nat)).
Proof.
  unfold listPosts. split.
  - destruct (validatePostQuery q); [intros H; contradiction|reflexivity].
  - intros Hval. pose proof (limit_validated q Hval) as Hl. split.
    + intros a Ha Hcast. split.
      * revert Hval. unfold validatePostQuery. cbn [List.concat]. intros H.
        do 4 (apply app_eq_nil in H as [_ H]). apply app_eq_nil in H as [H _].
        unfold truthy in Ha. destruct (q_author q) as [a'|]; [|discriminate].
        destruct (falsy a'); [discriminate|]. injection Ha as ->.
        cbn [optional] in H. destruct (isMongoId a); [reflexivity|discriminate].
      * rewrite Hval, Ha. unfold cast_ObjectId. rewrite Hcast. reflexivity.
    + intros Hcast. rewrite Hval.
      assert (Hcall : match truthy (q_author q) with
                      | Some a =>
                          match cast_ObjectId a with
                          | Some _ =>
                              listing mongo_sort (public_sort q)
                                (List.filter (public_filter category_is text_matches q)
                                   store) q
                          | None => ReplyError 500 "Server error" []
                          end
                      | None =>
                          listing mongo_sort (public_sort q)
                            (List.filter (public_filter category_is text_matches q) store) q
                      end
                      = listing mongo_sort (public_sort q)
                          (List.filter (public_filter category_is text_matches q) store) q).
      { destruct (truthy (q_author q)) as [a|]; [|reflexivity].
        unfold cast_ObjectId. rewrite (Hcast a eq_refl). reflexivity. }
      rewrite Hcall.
      destruct (listing_spec (public_sort q)
                  (List.filter (public_filter category_is text_matches q) store) q)
        as (data & -> & Hin & Hcount).
      exists data. split; [reflexivity|]. split; [|split; [exact Hcount|lia]].
      intros p Hp. apply Hin, filter_In in Hp as [Hstore Hf].
      unfold public_filter in Hf. rewrite !andb_true_iff in Hf.
      destruct Hf as [[[Hst _] Hauthor] _].
      split; [exact Hstore|]. split; [apply Status_eqb_eq, Hst|].
      intros a Ha. rewrite Ha in Hauthor. apply String.eqb_eq, Hauthor.
Qed.

(** X15: [GET /api/posts/user/my-posts] answers 400 to a query that
    fails [validatePostQuery]. Every other query, whatever its author
    parameter, is answered 200 with a page of the caller's own posts, of
    the status the query asks for when it asks for one: the page holds
    [min(limit, total - (page - 1) * limit)] posts, at most 100, where
    [total], the [totalPosts] of the answer, counts the caller's posts of
    that status. *)
Theorem myPosts_only_own (store : list Post) (user : User) (q : PostQuery) :
  (validatePostQuery q <> [] ->
   myPosts mongo_sort store user q
   = ReplyError 400 "Validation failed" (validatePostQuery q))
  /\ (validatePostQuery q = [] ->
      exists data,
        myPosts mongo_sort store user q
        = ReplyPosts 200 (List.length data)
            (paginate (or_default 1 (q_page q)) (or_default 10 (q_limit q))
               (N.of_nat (List.length (List.filter (my_filter user q) store)))) data
        /\ (forall p, In p data ->
              In p store /\ post_author p = user_id user
              /\ (forall s, truthy (q_status q) = Some s ->
                    status_name (post_status p) = s))
        /\ N.of_nat (List.length data)
           = N.min (or_default 10 (q_limit q))
               (N.of_nat (List.length (List.filter (my_filter user q) store))
                - (or_default 1 (q_page q) - 1) * or_default 10 (q_limit q))
        /\ (List.length data <= 100)%nat).
Proof.
  unfold myPosts. split.
  - destruct (validatePostQuery q); [intros H; contradiction|reflexivity].
  - intros Hval. pose proof (limit_validated q Hval) as Hl. rewrite Hval.
    destruct (listing_spec (ByField "createdAt" (-1)%Z)
                (List.filter (my_filter user q) store) q) as (data & -> & Hin & Hcount).
    exists data. split; [reflexivity|]. split; [|split; [exact Hcount|lia]].
    intros p Hp. apply Hin, filter_In in Hp as [Hstore Hf].
    unfold my_filter in Hf. rewrite andb_true_iff in Hf. destruct Hf as [Hauthor Hst].
    split; [exact Hstore|]. split; [apply String.eqb_eq, Hauthor|].
    intros s Hs. rewrite Hs in Hst. apply String.eqb_eq, Hst.
Qed.

End ListingFacts.

Lemma listPosts_only_published_witness :
  listPosts (fun _ _ => true) (fun _ _ => true) (fun _ l => l)
    [published_hello; hello_post id2 "hello-world-1"] no_query
  = ReplyPosts 200 1 (paginate 1 10 1) [published_hello]
  /\ listPosts (fun _ _ => true) (fun _ _ => true) (fun _ l => l)
       [published_hello; hello_post id2 "hello-world-1"] (by_author "0xaaaaaaaaaaaaaaaaaaaaaa")
     = ReplyError 500 "Server error" [].
Proof.
  split; [reflexivity|].
  destruct (listPosts_only_published (fun _ _ => true) (fun _ _ => true) (fun _ l => l)
              (fun _ l => Permutation_refl l)
              [published_hello; hello_post id2 "hello-world-1"]
              (by_author "0xaaaaaaaaaaaaaaaaaaaaaa")) as [_ Hvalid].
  destruct (Hvalid eq_refl) as [Hcast _].
  apply (Hcast "0xaaaaaaaaaaaaaaaaaaaaaa"); reflexivity.
Defined.

Lemma myPosts_only_own_witness :
  exists data,
    myPosts (fun _ l => l) two_posts alice (by_author "0xaaaaaaaaaaaaaaaaaaaaaa")
    = ReplyPosts 200 (List.length data) (paginate 1 10 2) data
    /\ forall p, In p data -> post_author p = user_id alice.
Proof.
  destruct (myPosts_only_own (fun _ l => l) (fun _ l => Permutation_refl l)
              two_posts alice (by_author "0xaaaaaaaaaaaaaaaaaaaaaa")) as [_ Hvalid].
  destruct (Hvalid eq_refl) as (data & Hcall & Hown & _).
  exists data. split.
  - exact Hcall.
  - intros p Hp. apply (Hown p Hp).
Defined.

(** ** Commands on one document *)

Section OneDocument.

Context {A : Type}.
Variable key : A -> string.
Variable g : A -> A.

Lemma find_update_first_same (k : string) (l : list A) :
  (forall x, key x = k -> key (g x) = k) ->
  find (fun y => String.eqb (key y) k) (update_first (fun y => String.eqb (key y) k) g l)
  = option_map g (find (fun y => String.eqb (key y) k) l).
Proof.
  intros key_kept. induction l as [|a l IH]; simpl; [reflexivity|].
  destruct (String.eqb (key a) k) eqn:Hk; simpl.
  - apply String.eqb_eq in Hk. rewrite (key_kept a Hk), String.eqb_refl. reflexivity.
  - rewrite Hk. exact IH.
Qed.

Lemma find_update_first_other (k k' : string) (l : list A) :
  (forall x, key x = k -> key (g x) = k) ->
  k' <> k ->
  find (fun y => String.eqb (key y) k') (update_first (fun y => String.eqb (key y) k) g l)
  = find (fun y => String.eqb (key y) k') l.
Proof.
  intros key_kept Hne. induction l as [|a l IH]; simpl; [reflexivity|].
  destruct (String.eqb (key a) k) eqn:Hk; simpl.
  - apply String.eqb_eq in Hk. rewrite (key_kept a Hk).
    destruct (String.eqb k k') eqn:Hk'; [apply String.eqb_eq in Hk'; congruence|].
    rewrite Hk, Hk'. reflexivity.
  - destruct (String.eqb (key a) k'); [reflexivity|exact IH].
Qed.


End OneDocument.

Lemma NoDup_map_filter {A : Type} (key : A -> string) (f : A -> bool) (l : list A) :
  List.NoDup (map key l) -> List.NoDup (map key (List.filter f l)).
Proof.
  induction l as [|a l IH]; simpl; intros Hnd; [constructor|].
  inversion Hnd as [|? ? Ha Hl]; subst.
  destruct (f a); simpl; [|apply IH, Hl].
  constructor; [|apply IH, Hl].
  intros Hin. apply Ha. apply in_map_iff in Hin as (x & Hx & Hin).
  apply filter_In in Hin as [Hin _]. rewrite <- Hx. apply in_map, Hin.
Qed.

Lemma validateObjectId_ok (id : string) :
  validateObjectId (Some id) = [] <-> isValidObjectId id = true.
Proof.
  unfold validateObjectId. change (default "" (Some id)) with id.
  change (default "undefined" (Some id)) with id.
  split.
  - intros H. apply app_eq_nil in H as [_ H].
    destruct (isValidObjectId id); [reflexivity|discriminate].
  - intros H. rewrite H. unfold isValidObjectId in H.
    apply andb_true_iff in H as [H _]. apply Nat.eqb_eq in H. rewrite H. reflexivity.
Qed.

(** ** The comment routes *)

(** X16: [GET /api/comments/post/:postId] never lists comments. The route
    runs [validateObjectId], which checks the parameter [id], and the
    route has no such parameter: whatever the post and the stored
    comments, the answer is 400 with both messages of the check. *)
Theorem commentsForPost_never_lists (sort_comments : list Comment -> list Comment)
    (site : Site) (postId : string) :
  commentsForPost sort_comments site postId
  = ReplyError 400 "Validation failed"
      ["ID parameter is required";
       "Invalid ID format. Expected a 24-character hexadecimal string."].
Proof. reflexivity. Qed.








(** X18: [PUT /api/comments/:id] changes a comment only for its author:
    every other caller, an admin included, is answered with an error and
    the store stays as it was. A successful update replaces the content
    by the trimmed content of the request, of 1 to 1000 characters, marks
    the comment edited at the time of the call and keeps its author, post,
    parent, replies and likes; no other comment changes. *)
Theorem updateComment_author_only (site : Site) (now : Date) (id : string) (user : User)
    (content : option string) (reply : Reply) (site' : Site) :
  updateComment site now id user content = (reply, site') ->
  match reply with
  | ReplyComment code c' =>
      code = 200
      /\ exists c,
           find (has_comment_id (toLowerCase id)) (site_comments site) = Some c
           /\ comment_author c = user_id user
           /\ find (has_comment_id (toLowerCase id)) (site_comments site') = Some c'
           /\ comment_content c' = trim (default "" content)
           /\ (1 <= String.length (comment_content c') <= 1000)%nat
           /\ comment_edited c' = true /\ comment_editedAt c' = Some now
           /\ comment_id c' = comment_id c /\ comment_author c' = comment_author c
           /\ comment_post c' = comment_post c /\ comment_parent c' = comment_parent c
           /\ comment_replies c' = comment_replies c
           /\ comment_likes c' = comment_likes c
           /\ comment_createdAt c' = comment_createdAt c
           /\ (forall k, k <> toLowerCase id ->
                 find (has_comment_id k) (site_comments site')
                 = find (has_comment_id k) (site_comments site))
           /\ posts (site_db site') = posts (site_db site)
  | ReplyError code _ _ => site' = site
  | _ => False
  end.
Proof.
  unfold updateComment.
  destruct (validateObjectId (Some id)); [|intros [= <- <-]; reflexivity].
  unfold comment_content_errors.
  destruct (length_between 1 1000 (trim (default "" content))) eqn:Hlen;
    [|intros [= <- <-]; reflexivity].
  unfold findCommentById.
  destruct (find _ (site_comments site)) as [c|] eqn:Hfind; [|intros [= <- <-]; reflexivity].
  destruct (String.eqb (comment_author c) (user_id user)) eqn:Hauthor;
    cbn [negb]; [|intros [= <- <-]; reflexivity].
  destruct (comment_schema_errors _); [|intros [= <- <-]; reflexivity].
  intros [= <- <-]. split; [reflexivity|]. exists c.
  apply String.eqb_eq in Hauthor. unfold length_between in Hlen.
  apply andb_true_iff in Hlen as [H1 H2]. apply Nat.leb_le in H1, H2.
  cbn [edit_comment comment_content comment_edited comment_editedAt comment_id
       comment_author comment_post comment_parent comment_replies comment_likes
       comment_createdAt with_comments site_comments site_db wrote posts].
  rewrite trim_idem. unfold has_comment_id.
  split; [reflexivity|]. split; [exact Hauthor|].
  split.
  { rewrite (find_update_first_same comment_id
               (edit_comment (trim (default "" content)) now) (toLowerCase id) _
               (fun _ H => H)).
    rewrite Hfind. reflexivity. }
  do 11 (split; [first [reflexivity | lia]|]).
  split; [|reflexivity].
  intros k Hk.
  apply (find_update_first_other comment_id
           (edit_comment (trim (default "" content)) now)
           (toLowerCase id) k _ (fun _ H => H) Hk).
Qed.

Lemma updateComment_author_only_witness :
  exists site',
    updateComment commented_site 9 id3 root (Some "edited by the admin")
    = (ReplyError 403 "Not authorized to update this comment" [], site')
    /\ site' = commented_site.
Proof.
  eexists. split; [reflexivity|].
  apply (updateComment_author_only commented_site 9 id3 root (Some "edited by the admin")
           (ReplyError 403 "Not authorized to update this comment" []) _ eq_refl).
Defined.

(** X19: [DELETE /api/comments/:id] answers 400 to a parameter that is
    not 24 hexadecimal digits, 404 when no comment has that [_id] and 403
    to a caller who is neither the comment's author nor an admin, and
    leaves the store as it was in all three cases. For the author and
    for an admin it answers 200 and removes, with two write commands,
    the comment and the comments whose parent it is, and nothing else:
    every other comment stays exactly as it was, so the parent of a
    deleted reply keeps the reply's [_id] in its [replies], and the
    replies to a deleted reply stay, with a parent that is gone. Posts
    and users are not touched. *)
Theorem deleteComment_spec (site : Site) (id : string) (user : User) :
  List.NoDup (map comment_id (site_comments site)) ->
  (isValidObjectId id = false ->
   validateObjectId (Some id) <> []
   /\ deleteComment site id user
      = (ReplyError 400 "Validation failed" (validateObjectId (Some id)), site))
  /\ (isValidObjectId id = true ->
      (findCommentById (site_comments site) id = None ->
       deleteComment site id user = (ReplyError 404 "Comment not found" [], site))
      /\ (forall c, findCommentById (site_comments site) id = Some c ->
            (comment_author c <> user_id user -> user_role user <> admin ->
             deleteComment site id user
             = (ReplyError 403 "Not authorized to delete this comment" [], site))
            /\ (comment_author c = user_id user \/ user_role user = admin ->
                exists site',
                  deleteComment site id user
                  = (ReplyMessage 200 "Comment deleted successfully", site')
                  /\ (forall x, In x (site_comments site')
                                <-> In x (site_comments site)
                                    /\ comment_id x <> toLowerCase id
                                    /\ comment_parent x <> Some (toLowerCase id))
                  /\ posts (site_db site') = posts (site_db site)
                  /\ site_users site' = site_users site
                  /\ write_calls (site_db site')
                     = S (S (write_calls (site_db site)))))).
Proof.
  intros Hnd. split.
  - intros Hbad. pose proof (validateObjectId_bad id Hbad) as Hne.
    split; [exact Hne|]. unfold deleteComment.
    destruct (validateObjectId (Some id)); [contradiction|reflexivity].
  - intros Hgood. unfold deleteComment. rewrite (validateObjectId_good id Hgood).
    split; [intros ->; reflexivity|].
    intros c ->. split.
    + intros Hauthor Hadmin. apply String.eqb_neq in Hauthor. apply Role_eqb_neq in Hadmin.
      rewrite Hauthor, Hadmin. reflexivity.
    + intros Hallowed.
      assert (Hguard : negb (String.eqb (comment_author c) (user_id user))
                       && negb (Role_eqb (user_role user) admin) = false).
      { destruct Hallowed as [Hauthor|Hadmin].
        - apply String.eqb_eq in Hauthor. rewrite Hauthor. reflexivity.
        - apply Role_eqb_eq in Hadmin. rewrite Hadmin. apply andb_false_r. }
      rewrite Hguard. eexists. split; [reflexivity|].
      cbn [with_comments site_comments site_db site_users wrote posts write_calls].
      split; [|repeat split; reflexivity].
      intros x. unfold has_comment_id.
      rewrite (remove_first_key comment_id (toLowerCase id) _
                 (NoDup_map_filter comment_id _ _ Hnd) x).
      rewrite filter_In, negb_true_iff, bool_decide_eq_false. tauto.
Qed.

Lemma deleteComment_spec_witness :
  deleteComment commented_site id4 bob
  = (ReplyError 403 "Not authorized to delete this comment" [], commented_site)
  /\ exists site',
       deleteComment commented_site id3 root
       = (ReplyMessage 200 "Comment deleted successfully", site')
       /\ In (sample_comment id5 bob (Some id4) []) (site_comments site')
       /\ ~ In (sample_comment id4 alice (Some id3) [id5]) (site_comments site').
Proof.
  assert (Hnd : List.NoDup (map comment_id (site_comments commented_site))).
  { simpl. repeat constructor; simpl; intuition discriminate. }
  split.
  - destruct (deleteComment_spec commented_site id4 bob Hnd) as [_ Hgood].
    destruct (Hgood eq_refl) as [_ Hfound].
    destruct (Hfound (sample_comment id4 alice (Some id3) [id5]) eq_refl)
      as [Hforbidden _].
    apply Hforbidden; discriminate.
  - destruct (deleteComment_spec commented_site id3 root Hnd) as [_ Hgood].
    destruct (Hgood eq_refl) as [_ Hfound].
    destruct (Hfound (sample_comment id3 bob None [id4]) eq_refl) as [_ Hdeleted].
    destruct (Hdeleted (or_intror eq_refl)) as (site' & Hcall & Hkept & _).
    exists site'. split; [exact Hcall|]. split.
    + apply Hkept. split; [simpl; tauto|]. split; discriminate.
    + intros Hin. apply Hkept in Hin as (_ & _ & Hparent). apply Hparent. reflexivity.
Defined.

Lemma likeComment_found (site : Site) (now : Date) (id : string) (user : User)
    (comment : Comment) :
  isValidObjectId id = true ->
  findCommentById (site_comments site) id = Some comment ->
  exists site1,
    likeComment site now id user
    = (ReplyLiked 200
         (List.length (fst (toggle_like now (user_id user) (comment_likes comment))))
         (snd (toggle_like now (user_id user) (comment_likes comment))), site1)
    /\ findCommentById (site_comments site1) id
       = Some (set_comment_likes comment
                 (fst (toggle_like now (user_id user) (comment_likes comment))))
    /\ (forall k, k <> toLowerCase id ->
          find (has_comment_id k) (site_comments site1)
          = find (has_comment_id k) (site_comments site))
    /\ posts (site_db site1) = posts (site_db site).
Proof.
  intros Hid Hfind. unfold likeComment.
  rewrite (proj2 (validateObjectId_ok id) Hid), Hfind.
  destruct (toggle_like now (user_id user) (comment_likes comment)) as [likes1 isLiked].
  cbn [fst snd]. eexists. split; [reflexivity|].
  cbn [with_comments site_comments site_db wrote posts].
  unfold findCommentById in *.
  assert (Hkey : comment_id comment = toLowerCase id).
  { apply find_some in Hfind as [_ H]. apply String.eqb_eq, H. }
  rewrite Hkey. unfold has_comment_id.
  split; [|split; [|reflexivity]].
  - rewrite (find_update_first_same comment_id (fun _ => set_comment_likes comment likes1)
               (toLowerCase id) _ (fun _ _ => Hkey)).
    rewrite Hfind. reflexivity.
  - intros k Hk.
    apply (find_update_first_other comment_id (fun _ => set_comment_likes comment likes1)
             (toLowerCase id) k _ (fun _ _ => Hkey) Hk).
Qed.

(** X20: [PUT /api/comments/:id/like] on a stored comment whose [likes]
    hold at most one entry per user toggles the caller's like: after the
    call the caller is among the likers exactly if they were not before,
    nobody else's like changes, the answer reports the new number of
    likes and, as [isLiked], whether the caller now likes the comment;
    only the [likes] of that comment change, and a second call by the same
    user restores the likers. *)
Theorem likeComment_involution (site : Site) (now now' : Date) (id : string) (user : User)
    (comment : Comment) :
  isValidObjectId id = true ->
  findCommentById (site_comments site) id = Some comment ->
  List.NoDup (likers (comment_likes comment)) ->
  exists likes1 isLiked1 site1 likes2 isLiked2 site2,
    likeComment site now id user = (ReplyLiked 200 (List.length likes1) isLiked1, site1)
    /\ findCommentById (site_comments site1) id = Some (set_comment_likes comment likes1)
    /\ (In (user_id user) (likers likes1)
        <-> ~ In (user_id user) (likers (comment_likes comment)))
    /\ (forall v, v <> user_id user ->
          (In v (likers likes1) <-> In v (likers (comment_likes comment))))
    /\ (isLiked1 = true <-> In (user_id user) (likers likes1))
    /\ (forall k, k <> toLowerCase id ->
          find (has_comment_id k) (site_comments site1)
          = find (has_comment_id k) (site_comments site))
    /\ likeComment site1 now' id user = (ReplyLiked 200 (List.length likes2) isLiked2, site2)
    /\ findCommentById (site_comments site2) id = Some (set_comment_likes comment likes2)
    /\ (forall v, In v (likers likes2) <-> In v (likers (comment_likes comment))).
Proof.
  intros Hid Hfind Hnd.
  destruct (likeComment_found site now id user comment Hid Hfind)
    as (site1 & Hcall1 & Hfind1 & Hother1 & _).
  destruct (likeComment_found site1 now' id user _ Hid Hfind1)
    as (site2 & Hcall2 & Hfind2 & _ & _).
  set (uid := user_id user) in *. set (likes := comment_likes comment) in *.
  change (comment_likes (set_comment_likes comment (fst (toggle_like now uid likes))))
    with (fst (toggle_like now uid likes)) in *.
  change (set_comment_likes (set_comment_likes comment (fst (toggle_like now uid likes)))
            (fst (toggle_like now' uid (fst (toggle_like now uid likes)))))
    with (set_comment_likes comment
            (fst (toggle_like now' uid (fst (toggle_like now uid likes))))) in *.
  destruct (toggle_like_spec now uid likes Hnd) as (Hrem & Hadd & Hoth & _ & Hflag).
  exists (fst (toggle_like now uid likes)), (snd (toggle_like now uid likes)), site1,
    (fst (toggle_like now' uid (fst (toggle_like now uid likes)))),
    (snd (toggle_like now' uid (fst (toggle_like now uid likes)))), site2.
  split; [exact Hcall1|]. split; [exact Hfind1|]. split.
  { split.
    - intros Hin Hbefore. destruct (Hrem Hbefore) as [Hgone _]. contradiction.
    - intros Hout. rewrite (Hadd Hout). unfold likers. rewrite map_app, in_app_iff.
      right. left. reflexivity. }
  split; [exact Hoth|]. split; [exact Hflag|]. split; [exact Hother1|].
  split; [exact Hcall2|]. split; [exact Hfind2|].
  apply toggle_like_twice, Hnd.
Qed.

Lemma likeComment_involution_witness :
  exists likes1 site1 likes2 site2,
    likeComment commented_site 30 id3 alice = (ReplyLiked 200 (List.length likes1) true, site1)
    /\ In (user_id alice) (likers likes1)
    /\ likeComment site1 40 id3 alice = (ReplyLiked 200 (List.length likes2) false, site2)
    /\ (forall v, In v (likers likes2) <-> In v []).
Proof.
  destruct (likeComment_involution commented_site 30 40 id3 alice
              (sample_comment id3 bob None [id4]))
    as (likes1 & isLiked1 & site1 & likes2 & isLiked2 & site2 & Hcall1 & _ & Hnow & _
        & Hflag & _ & Hcall2 & _ & Hback).
  - reflexivity.
  - reflexivity.
  - constructor.
  - exists likes1, site1, likes2, site2.
    assert (Hin : In (user_id alice) (likers likes1)) by (apply Hnow; simpl; tauto).
    assert (H1 : isLiked1 = true) by (apply Hflag, Hin).
    assert (H2 : isLiked2 = false).
    { destruct isLiked2; [|reflexivity]. exfalso.
      assert (Hsame : likeComment site1 40 id3 alice
                      = (ReplyLiked 200 (List.length likes2) true, site2)) by exact Hcall2.
      clear Hcall2. revert Hsame. inversion Hcall1; subst. vm_compute. discriminate. }
    subst. split; [exact Hcall1|]. split; [exact Hin|]. split; [exact Hcall2|exact Hback].
Defined.

(** ** Deleting a user *)

Lemma find_key_In {A : Type} (key : A -> string) (k : string) (l : list A) :
  In k (map key l) -> exists x, find (fun y => String.eqb (key y) k) l = Some x.
Proof.
  intros Hin. apply in_map_iff in Hin as (x & Hx & Hin).
  destruct (find (fun y => String.eqb (key y) k) l) as [y|] eqn:Hfind; [exists y; reflexivity|].
  pose proof (find_none _ _ Hfind x Hin) as Hno. cbn beta in Hno.
  rewrite Hx, String.eqb_refl in Hno. discriminate.
Qed.

(** X21: [DELETE /api/users/:id], once past [authorize('admin')],
    answers 400 to a parameter that is not 24 hexadecimal digits, 404
    when no user has that [_id], and 400 when the parameter is spelled
    exactly as the caller's [_id], and leaves the store as it was in all
    three cases. Otherwise it answers 200 and removes, with two write
    commands, the user the lookup found and every post of that user; it
    keeps all other users and posts and leaves every comment in place,
    those of the deleted user included (the handler's comment announces
    [Delete user's posts and comments]; only [Post.deleteMany] is
    called). *)
Theorem deleteUser_spec (site : Site) (caller : User) (id : string) :
  List.NoDup (map ud_id (site_users site)) ->
  (isValidObjectId id = false ->
   validateObjectId (Some id) <> []
   /\ deleteUser site caller id
      = (ReplyError 400 "Validation failed" (validateObjectId (Some id)), site))
  /\ (isValidObjectId id = true ->
      (~ In (toLowerCase id) (map ud_id (site_users site)) ->
       deleteUser site caller id = (ReplyError 404 "User not found" [], site))
      /\ (In (toLowerCase id) (map ud_id (site_users site)) ->
          (id = user_id caller ->
           deleteUser site caller id
           = (ReplyError 400 "Cannot delete your own account" [], site))
          /\ (id <> user_id caller ->
              exists site',
                deleteUser site caller id
                = (ReplyMessage 200 "User deleted successfully", site')
                /\ (forall u, In u (site_users site')
                              <-> In u (site_users site) /\ ud_id u <> toLowerCase id)
                /\ (forall p, In p (posts (site_db site'))
                              <-> In p (posts (site_db site))
                                  /\ post_author p <> toLowerCase id)
                /\ site_comments site' = site_comments site
                /\ write_calls (site_db site')
                   = S (S (write_calls (site_db site)))))).
Proof.
  intros Hnd. split.
  - intros Hbad. pose proof (validateObjectId_bad id Hbad) as Hne.
    split; [exact Hne|]. unfold deleteUser.
    destruct (validateObjectId (Some id)); [contradiction|reflexivity].
  - intros Hgood. unfold deleteUser. rewrite (validateObjectId_good id Hgood). split.
    + intros Hout. rewrite find_none_forall; [reflexivity|].
      intros u Hu. apply String.eqb_neq. intros Heq. apply Hout. rewrite <- Heq.
      apply in_map, Hu.
    + intros Hin. destruct (find_key_In ud_id (toLowerCase id) _ Hin) as [u ->]. split.
      * intros ->. rewrite String.eqb_refl. reflexivity.
      * intros Hne. assert (Hguard : String.eqb (user_id caller) id = false).
        { apply String.eqb_neq. congruence. }
        rewrite Hguard. eexists. split; [reflexivity|].
        cbn [site_users site_db site_comments posts write_calls].
        split; [apply (remove_first_key ud_id (toLowerCase id) _ Hnd)|].
        split; [|split; reflexivity].
        intros p. rewrite filter_In, negb_true_iff, String.eqb_neq. tauto.
Qed.

Lemma deleteUser_spec_witness :
  exists site',
    deleteUser sample_site root (user_id alice)
    = (ReplyMessage 200 "User deleted successfully", site')
    /\ posts (site_db site') = [] /\ ~ In alice_doc (site_users site').
Proof.
  assert (Hnd : List.NoDup (map ud_id (site_users sample_site))).
  { simpl. repeat constructor; simpl; intuition discriminate. }
  destruct (deleteUser_spec sample_site root (user_id alice) Hnd) as [_ Hgood].
  destruct (Hgood eq_refl) as [_ Hfound].
  destruct Hfound as [_ Hdeleted]; [simpl; tauto|].
  destruct (Hdeleted ltac:(discriminate)) as (site' & Hcall & Husers & Hposts & _).
  exists site'. split; [exact Hcall|]. split.
  - destruct (posts (site_db site')) as [|p rest] eqn:Hstore; [reflexivity|].
    exfalso. destruct (proj1 (Hposts p) (or_introl eq_refl)) as [Hin Hauthor].
    apply Hauthor. destruct Hin as [<-|[<-|[]]]; reflexivity.
  - intros Hin. apply Husers in Hin as [_ Hne]. apply Hne. reflexivity.
Defined.

(** X22: the guard [Cannot delete your own account] compares the text of
    the parameter with the caller's [_id], and the lookup and the
    deletion read the parameter as an ObjectId, whatever the case of its
    letters. For a stored caller, a parameter that is the caller's [_id]
    is refused with 400 when it is spelled as the caller's [_id] is
    printed, and deletes the caller's own account when a letter of it is
    in upper case. *)
Theorem deleteUser_own_account (site : Site) (caller : User) (id : string) :
  List.NoDup (map ud_id (site_users site)) ->
  In (user_id caller) (map ud_id (site_users site)) ->
  isValidObjectId id = true ->
  toLowerCase id = user_id caller ->
  (id = user_id caller ->
   deleteUser site caller id = (ReplyError 400 "Cannot delete your own account" [], site))
  /\ (id <> user_id caller ->
      exists site',
        deleteUser site caller id = (ReplyMessage 200 "User deleted successfully", site')
        /\ ~ In (user_id caller) (map ud_id (site_users site'))
        /\ (forall p, In p (posts (site_db site')) -> post_author p <> user_id caller)).
Proof.
  intros Hnd Hstored Hid Hlower. unfold deleteUser.
  rewrite (proj2 (validateObjectId_ok id) Hid), Hlower.
  destruct (find_key_In ud_id (user_id caller) _ Hstored) as [u Hfind]. rewrite Hfind.
  split.
  - intros ->. rewrite String.eqb_refl. reflexivity.
  - intros Hne. assert (Hguard : String.eqb (user_id caller) id = false).
    { apply String.eqb_neq. congruence. }
    rewrite Hguard. eexists. split; [reflexivity|].
    cbn [site_users site_db posts]. split.
    + intros Hin. apply in_map_iff in Hin as (x & Hx & Hin).
      apply (remove_first_key ud_id (user_id caller) _ Hnd) in Hin as [_ Hkey].
      contradiction.
    + intros p Hp. apply filter_In in Hp as [_ Hp].
      apply negb_true_iff, String.eqb_neq in Hp. exact Hp.
Qed.

Lemma deleteUser_own_account_witness :
  exists site',
    deleteUser sample_site root "CCCCCCCCCCCCCCCCCCCCCCCC"
    = (ReplyMessage 200 "User deleted successfully", site')
    /\ ~ In (user_id root) (map ud_id (site_users site')).
Proof.
  assert (Hnd : List.NoDup (map ud_id (site_users sample_site))).
  { simpl. repeat constructor; simpl; intuition discriminate. }
  destruct (deleteUser_own_account sample_site root "CCCCCCCCCCCCCCCCCCCCCCCC" Hnd)
    as [_ Hdeleted].
  - simpl. left. reflexivity.
  - reflexivity.
  - reflexivity.
  - destruct (Hdeleted ltac:(discriminate)) as (site' & Hcall & Hgone & _).
    exists site'. split; [exact Hcall|exact Hgone].
Defined.
